(** * Authentication and session lifecycle of afk-master

    A shallow embedding of [src/modules/auth/auth.service.ts], of the two
    tables it works on ([user.schema.ts], [user_tokens.schema.ts]), of the
    token helpers of [src/utils/token.ts] and of the status mapping of
    [src/middleware/error.middleware.ts].

    - The PostgreSQL store is a pair of row lists plus the supply of fresh
      uuids; every drizzle statement is one step of a state-and-exception
      monad.  A thrown exception keeps the store as it is at the throw: the
      service opens no transaction, so nothing is rolled back.
    - The libraries the service calls (jsonwebtoken, crypto, bcrypt,
      google-auth-library) are the fields of the class [Platform]; theorems
      hold for every platform, examples run on the instance [Toy.platform].
    - Time is in milliseconds since the epoch, as [Date.now()] gives it.  A
      service call is handed [now], the reading of the clock during that
      call: the few readings one call makes ([Date.now()], [new Date()],
      the [iat] jsonwebtoken stamps, [defaultNow()]) are taken to agree.
    - A row identifier stands for a uuid; [defaultRandom()] draws the next
      one from a supply kept with the store. *)

From Stdlib Require Import ZArith List String Ascii Bool Lia DecimalString
  Permutation.
Import ListNotations.

Local Open Scope string_scope.
Local Open Scope Z_scope.

(** ** JavaScript truthiness of the values the service tests *)

Module Js.

(** [!!s] for a string: only the empty string is falsy. *)
Definition truthy (s : string) : bool := negb (s =? "")%string.

(** [!!x] for a nullable text column: [null] and the empty string are falsy. *)
Definition truthy_opt (o : option string) : bool :=
  match o with
  | Some s => truthy s
  | None => false
  end.

(** [s || d] *)
Definition or (s d : string) : string := if truthy s then s else d.

(** [x || d] for a nullable text column. *)
Definition or_opt (o : option string) (d : string) : string :=
  match o with
  | Some s => or s d
  | None => d
  end.

End Js.

(** ** Tables *)

Definition uuid := nat.
Definition timestamp := Z.

(** [users] of user.schema.ts ([typeof users.$inferSelect]). *)
Module users.
Record row : Type := mk {
  id : uuid;
  email : string;
  name : string;
  password : option string;
  googleId : option string;
  authProvider : option string;
  avatar : option string;
  lastLoginAt : timestamp;
  createdAt : timestamp;
  updatedAt : timestamp
}.

(** The columns an [insert] of the service supplies; the others take their
    defaults ([defaultRandom()], [defaultNow()]). *)
Record values : Type := mkValues {
  v_email : string;
  v_name : string;
  v_password : option string;
  v_googleId : option string;
  v_authProvider : string;
  v_avatar : option string
}.

Definition set_lastLoginAt (t : timestamp) (u : row) : row :=
  mk (id u) (email u) (name u) (password u) (googleId u) (authProvider u)
     (avatar u) t (createdAt u) (updatedAt u).

Definition set_google (g : string) (provider : string) (u : row) : row :=
  mk (id u) (email u) (name u) (password u) (Some g) (Some provider)
     (avatar u) (lastLoginAt u) (createdAt u) (updatedAt u).
End users.

(** [refreshTokens] of user_tokens.schema.ts.  [tokenHash] is [notNull] and
    carries no [unique()]; [device] is nullable. *)
Module refreshTokens.
Record row : Type := mk {
  id : uuid;
  userId : uuid;
  tokenHash : string;
  device : option string;
  expiresAt : timestamp;
  revoked : bool;
  createdAt : timestamp
}.

Record values : Type := mkValues {
  v_userId : uuid;
  v_tokenHash : string;
  v_device : string;
  v_expiresAt : timestamp
}.
End refreshTokens.

(** ** Exceptions and their mapping to HTTP statuses *)

(** What [jwt.verify] throws. *)
Inductive JwtError : Type :=
| JsonWebTokenError (message : string)
| TokenExpiredError
| NotBeforeError.

Definition jwt_message (e : JwtError) : string :=
  match e with
  | JsonWebTokenError m => m
  | TokenExpiredError => "jwt expired"
  | NotBeforeError => "jwt not active"
  end.

Inductive Exn : Type :=
| AppError (statusCode : Z) (message : string)
| JwtThrown (e : JwtError)
| TypeError (message : string)
| DatabaseError (code : string).

(** [errorHandler] of error.middleware.ts, on the exceptions the service can
    raise: the status and the message of the response. *)
Definition errorHandler (err : Exn) : Z * string :=
  match err with
  | AppError statusCode message => (statusCode, message)
  | DatabaseError code =>
      if (code =? "23505")%string then (409, "Resource already exists")
      else if (code =? "23503")%string then (400, "Invalid reference")
      else if (code =? "23502")%string then (400, "Required field missing")
      else (500, "Database error")
  | JwtThrown e => (500, jwt_message e)
  | TypeError message => (500, message)
  end.

(** The failure kinds of the specification, as the service raises them. *)
Definition NotFound : Exn := AppError 404 "User not found".
Definition WrongAuthMethod : Exn := AppError 400 "Please login with Google".
Definition InvalidCredentials : Exn := AppError 401 "Invalid password".
Definition AlreadyExists : Exn := AppError 400 "User already exists".
Definition RefreshReuseOrInvalid : Exn :=
  AppError 401 "Refresh token reuse detected or invalid".
Definition RefreshExpired : Exn := AppError 401 "Refresh token expired".
Definition InvalidFederatedToken : Exn := AppError 401 "Invalid Google Token".
Definition FederatedClaimsIncomplete : Exn :=
  AppError 400 "Google account validation failed".

(** ** The store and the monad of the service *)

(** [faults] scripts the availability of the store: each statement sent to
    the database takes the head of the list, and fails with a connection
    error when it is [true].  The empty script is a store that is up. *)
Record Store : Type := mkStore {
  users_rows : list users.row;
  refreshTokens_rows : list refreshTokens.row;
  uuid_seed : uuid;
  faults : list bool
}.

Inductive Outcome (A : Type) : Type :=
| Return (a : A)
| Throw (e : Exn).
Arguments Return {A} a.
Arguments Throw {A} e.

Definition Async (A : Type) : Type := Store -> Store * Outcome A.

Definition ret {A} (a : A) : Async A := fun s => (s, Return a).
Definition throw {A} (e : Exn) : Async A := fun s => (s, Throw e).
Definition bind {A B} (m : Async A) (k : A -> Async B) : Async B :=
  fun s =>
    match m s with
    | (s', Return a) => k a s'
    | (s', Throw e) => (s', Throw e)
    end.

Notation "x <- m ;; k" := (bind m (fun x => k))
  (at level 61, m at next level, right associativity).
Notation "m ;;; k" := (bind m (fun _ => k))
  (at level 61, right associativity).

(** ** The drizzle statements the service issues *)

Module db.

Definition connection_failure : string := "08006".
Definition unique_violation : string := "23505".
Definition foreign_key_violation : string := "23503".

(** One round trip to the database. *)
Definition roundtrip : Async unit := fun s =>
  match faults s with
  | [] => (s, Return tt)
  | down :: rest =>
      let s' := mkStore (users_rows s) (refreshTokens_rows s) (uuid_seed s) rest in
      if down then (s', Throw (DatabaseError connection_failure))
      else (s', Return tt)
  end.

(** [defaultRandom()] *)
Definition gen_random_uuid : Async uuid := fun s =>
  (mkStore (users_rows s) (refreshTokens_rows s) (S (uuid_seed s)) (faults s),
   Return (uuid_seed s)).

(** [db.select().from(users).where(w).limit(n)] *)
Definition select_users (where_ : users.row -> bool) (limit : nat)
  : Async (list users.row) :=
  roundtrip ;;; fun s => (s, Return (firstn limit (filter where_ (users_rows s)))).

(** A value assigned to a [varchar(n)] column: stored as it is when it has
    at most [n] characters, cut to [n] characters when what exceeds them is
    spaces only, and refused with [22001] otherwise. *)
Definition string_data_right_truncation : string := "22001".

Fixpoint spaces_only (s : string) : bool :=
  match s with
  | EmptyString => true
  | String c rest => Ascii.eqb c " " && spaces_only rest
  end.

Definition varchar (n : nat) (s : string) : option string :=
  if Nat.leb (String.length s) n then Some s
  else if spaces_only (substring n (String.length s - n) s)
  then Some (substring 0 n s)
  else None.

Definition fits (n : nat) (s : string) : bool := Nat.leb (String.length s) n.

Definition fits_opt (n : nat) (o : option string) : bool :=
  match o with
  | Some s => fits n s
  | None => true
  end.

(** The values of an insert into [users], fitted to their columns: [name]
    is a [varchar(255)]; so are [email], [password] and [googleId], and
    [authProvider] is a [varchar(50)], whose values reach the statement with
    no space at their end (an email that passed [z.string().email()] or that
    Google verified, a bcrypt hash, a Google subject identifier, the literals
    ['local'] and ['google']), so that one too long is refused; [avatar] is a
    [text]. *)
Definition fit_users (v : users.values) : option users.values :=
  match varchar 255 (users.v_name v) with
  | None => None
  | Some name =>
      if fits 255 (users.v_email v)
         && fits_opt 255 (users.v_password v)
         && fits_opt 255 (users.v_googleId v)
         && fits 50 (users.v_authProvider v)
      then Some (users.mkValues (users.v_email v) name (users.v_password v)
                   (users.v_googleId v) (users.v_authProvider v)
                   (users.v_avatar v))
      else None
  end.

(** The row of fitted values is written when the primary key and the
    [unique()] of [email] allow it. *)
Definition write_users (v : users.values) (now : timestamp)
  : Async (list users.row) :=
  i <- gen_random_uuid ;;
  fun s =>
    if existsb (fun u => Nat.eqb (users.id u) i
                         || (users.email u =? users.v_email v)%string)
               (users_rows s)
    then (s, Throw (DatabaseError unique_violation))
    else
      let u := users.mk i (users.v_email v) (users.v_name v)
                 (users.v_password v) (users.v_googleId v)
                 (Some (users.v_authProvider v)) (users.v_avatar v)
                 now now now in
      (mkStore (users_rows s ++ [u]) (refreshTokens_rows s) (uuid_seed s) (faults s),
       Return [u]).

(** [db.insert(users).values(v).returning()] *)
Definition insert_users (v : users.values) (now : timestamp)
  : Async (list users.row) :=
  roundtrip ;;;
  match fit_users v with
  | None => throw (DatabaseError string_data_right_truncation)
  | Some fitted => write_users fitted now
  end.

(** [db.update(users).set(f).where(w)].  The service writes through it a
    timestamp, the literal ['google'] and a Google subject identifier, which
    has at most 255 characters: values that fit their columns. *)
Definition update_users (set : users.row -> users.row)
  (where_ : users.row -> bool) : Async unit :=
  roundtrip ;;; fun s =>
    (mkStore (map (fun u => if where_ u then set u else u) (users_rows s))
       (refreshTokens_rows s) (uuid_seed s) (faults s),
     Return tt).

(** [db.select().from(refreshTokens).where(w).limit(n)] *)
Definition select_refreshTokens (where_ : refreshTokens.row -> bool) (limit : nat)
  : Async (list refreshTokens.row) :=
  roundtrip ;;; fun s =>
    (s, Return (firstn limit (filter where_ (refreshTokens_rows s)))).

(** [db.insert(refreshTokens).values(v)]: the primary key and the reference
    of [userId] to [users.id] are checked; [revoked] defaults to [false]. *)
Definition insert_refreshTokens (v : refreshTokens.values) (now : timestamp)
  : Async unit :=
  roundtrip ;;;
  i <- gen_random_uuid ;;
  fun s =>
    if existsb (fun r => Nat.eqb (refreshTokens.id r) i) (refreshTokens_rows s)
    then (s, Throw (DatabaseError unique_violation))
    else if negb (existsb (fun u => Nat.eqb (users.id u) (refreshTokens.v_userId v))
                    (users_rows s))
    then (s, Throw (DatabaseError foreign_key_violation))
    else
      let r := refreshTokens.mk i (refreshTokens.v_userId v)
                 (refreshTokens.v_tokenHash v) (Some (refreshTokens.v_device v))
                 (refreshTokens.v_expiresAt v) false now in
      (mkStore (users_rows s) (refreshTokens_rows s ++ [r]) (uuid_seed s) (faults s),
       Return tt).

(** [db.delete(refreshTokens).where(w)] *)
Definition delete_refreshTokens (where_ : refreshTokens.row -> bool)
  : Async unit :=
  roundtrip ;;; fun s =>
    (mkStore (users_rows s)
       (filter (fun r => negb (where_ r)) (refreshTokens_rows s))
       (uuid_seed s) (faults s),
     Return tt).

End db.

(** ** The libraries behind the service *)

(** The claims [{ id, email }] the service signs into a token. *)
Record JwtPayload : Type := mkPayload {
  jwt_id : uuid;
  jwt_email : string
}.

(** What [jwt.verify] returns: [string | JwtPayload]. *)
Inductive Decoded : Type :=
| DecodedString (s : string)
| DecodedObject (p : JwtPayload).

(** [!!decoded]: an object is truthy, a string unless it is empty. *)
Definition decoded_truthy (d : Decoded) : bool :=
  match d with
  | DecodedString s => Js.truthy s
  | DecodedObject _ => true
  end.

(** The payload of a verified Google ticket ([TokenPayload]). *)
Record GooglePayload : Type := mkGoogle {
  g_email : option string;
  g_name : option string;
  g_sub : string;
  g_picture : option string
}.

Record Config : Type := mkConfig {
  ACCESS_SECRET : string;
  REFRESH_SECRET : string;
  GOOGLE_CLIENT_ID : string
}.

(** - [jwt_sign payload secret iat expiresIn] is [jwt.sign(payload, secret,
      { expiresIn })] run when the clock shows [iat] seconds, [expiresIn] in
      seconds; it is a function of these, as HS256 signing is.
    - [jwt_verify token secret clock] is [jwt.verify(token, secret)] run when
      the clock shows [clock] seconds: the decoded payload, or the exception
      thrown.
    - [sha256_hex] is [crypto.createHash("sha256").update(t).digest("hex")].
    - [verifyIdToken idToken audience] is [None] when
      [googleClient.verifyIdToken] throws, and otherwise what [getPayload()]
      of the ticket returns. *)
Class Platform : Type := {
  jwt_sign : JwtPayload -> string -> Z -> Z -> string;
  jwt_verify : string -> string -> Z -> JwtError + Decoded;
  sha256_hex : string -> string;
  bcrypt_hash : string -> Z -> string;
  bcrypt_compare : string -> string -> bool;
  verifyIdToken : string -> string -> option (option GooglePayload);
  encodeURIComponent : string -> string
}.

(** ** src/utils/token.ts *)

Section Token.
Context {P : Platform} (config : Config).

(** The clock in seconds, as jsonwebtoken reads it:
    [Math.floor(Date.now() / 1000)]. *)
Definition seconds (now : timestamp) : Z := now / 1000.

Definition ACCESS_EXPIRES_IN : Z := 15 * 60.          (* "15m" *)
Definition REFRESH_EXPIRES_IN : Z := 7 * 24 * 60 * 60. (* "7d" *)

Definition generateToken (user : users.row) (now : timestamp) : string :=
  jwt_sign (mkPayload (users.id user) (users.email user))
    (ACCESS_SECRET config) (seconds now) ACCESS_EXPIRES_IN.

Definition generateRefreshToken (user : users.row) (now : timestamp) : string :=
  jwt_sign (mkPayload (users.id user) (users.email user))
    (REFRESH_SECRET config) (seconds now) REFRESH_EXPIRES_IN.

Definition hashToken (token : string) : string := sha256_hex token.

Definition verifyToken (token : string) (now : timestamp) : JwtError + Decoded :=
  jwt_verify token (REFRESH_SECRET config) (seconds now).

End Token.

(** ** src/modules/auth/auth.service.ts *)

Record TokenResponse : Type := mkTokens {
  refreshToken : string;
  accessToken : string
}.

Record LoginData : Type := mkLogin {
  l_email : string;
  l_password : string;
  l_device : string
}.

Record RegisterData : Type := mkRegister {
  r_email : string;
  r_name : string;
  r_password : string;
  r_device : string
}.

Inductive LogoutResponse : Type := success_true.

Section AuthService.
Context {P : Platform} (config : Config).

Definition SEVEN_DAYS_MS : Z := 7 * 24 * 60 * 60 * 1000.

Definition _generateAuthResponse (user : users.row) (device : string)
  (now : timestamp) : Async TokenResponse :=
  let accessToken := generateToken config user now in
  let refreshToken := generateRefreshToken config user now in
  let hashedRefreshToken := hashToken refreshToken in
  db.insert_refreshTokens
    (refreshTokens.mkValues (users.id user) hashedRefreshToken
       (Js.or device "Unknown Device") (now + SEVEN_DAYS_MS)) now ;;;
  db.update_users (users.set_lastLoginAt now)
    (fun u => Nat.eqb (users.id u) (users.id user)) ;;;
  ret (mkTokens refreshToken accessToken).

(** Lines 55-72 of [loginWithGoogle]: find the identity of the verified
    email, create it when there is none, link it when it has no [googleId]. *)
Definition resolveGoogleUser (payload : GooglePayload) (email : string)
  (now : timestamp) : Async users.row :=
  found <- db.select_users (fun u => (users.email u =? email)%string) 1 ;;
  match found with
  | [] =>
      inserted <- db.insert_users
        (users.mkValues email (Js.or_opt (g_name payload) "User") None
           (Some (g_sub payload)) "google" (g_picture payload)) now ;;
      match inserted with
      | user :: _ => ret user
      | [] => throw (TypeError "Cannot read properties of undefined")
      end
  | user :: _ =>
      if negb (Js.truthy_opt (users.googleId user)) then
        db.update_users (users.set_google (g_sub payload) "google")
          (fun u => Nat.eqb (users.id u) (users.id user)) ;;;
        ret user
      else ret user
  end.

Definition loginWithGoogle (idToken : string) (device : string)
  (now : timestamp) : Async TokenResponse :=
  match verifyIdToken idToken (GOOGLE_CLIENT_ID config) with
  | None => throw InvalidFederatedToken
  | Some ticket =>
      match ticket with
      | None => throw FederatedClaimsIncomplete
      | Some payload =>
          match g_email payload with
          | None => throw FederatedClaimsIncomplete
          | Some email =>
              if negb (Js.truthy email) then throw FederatedClaimsIncomplete
              else
                user <- resolveGoogleUser payload email now ;;
                _generateAuthResponse user device now
          end
      end
  end.

Definition login (data : LoginData) (now : timestamp) : Async TokenResponse :=
  found <- db.select_users (fun u => (users.email u =? l_email data)%string) 1 ;;
  match found with
  | [] => throw NotFound
  | user :: _ =>
      match users.password user with
      | None => throw WrongAuthMethod
      | Some hash =>
          if negb (Js.truthy hash) then throw WrongAuthMethod
          else
            let isPasswordValid := bcrypt_compare (l_password data) hash in
            if negb isPasswordValid then throw InvalidCredentials
            else _generateAuthResponse user (l_device data) now
      end
  end.

Definition register (data : RegisterData) (now : timestamp) : Async TokenResponse :=
  existing <- db.select_users (fun u => (users.email u =? r_email data)%string) 1 ;;
  match existing with
  | _ :: _ => throw AlreadyExists
  | [] =>
      let hashedPassword := bcrypt_hash (r_password data) 10 in
      let defaultAvatarUrl :=
        ("https://ui-avatars.com/api/?name=" ++ encodeURIComponent (r_name data)
           ++ "&background=random&color=fff&size=128")%string in
      inserted <- db.insert_users
        (users.mkValues (r_email data) (r_name data) (Some hashedPassword)
           None "local" (Some defaultAvatarUrl)) now ;;
      match inserted with
      | [] => throw (AppError 500 "Failed to create user")
      | user :: _ => _generateAuthResponse user (r_device data) now
      end
  end.

Definition refresh (token : string) (now : timestamp) : Async TokenResponse :=
  if negb (Js.truthy token) then throw (AppError 401 "No token provided")
  else
    match verifyToken config token now with
    | inl thrown => throw (JwtThrown thrown)
    | inr decodedToken =>
        if negb (decoded_truthy decodedToken)
        then throw (AppError 401 "Invalid token signature")
        else
          let incomingTokenHash := hashToken token in
          found <- db.select_refreshTokens
            (fun r => (refreshTokens.tokenHash r =? incomingTokenHash)%string
                      && Bool.eqb (refreshTokens.revoked r) false) 1 ;;
          match found with
          | [] => throw RefreshReuseOrInvalid
          | storedRefreshToken :: _ =>
              if now >? refreshTokens.expiresAt storedRefreshToken then
                db.delete_refreshTokens
                  (fun r => Nat.eqb (refreshTokens.id r)
                              (refreshTokens.id storedRefreshToken)) ;;;
                throw RefreshExpired
              else
                db.delete_refreshTokens
                  (fun r => Nat.eqb (refreshTokens.id r)
                              (refreshTokens.id storedRefreshToken)) ;;;
                users_found <- db.select_users
                  (fun u => Nat.eqb (users.id u)
                              (refreshTokens.userId storedRefreshToken)) 1 ;;
                match users_found with
                | [] => throw NotFound
                | user :: _ =>
                    _generateAuthResponse user
                      (Js.or_opt (refreshTokens.device storedRefreshToken) "Unknown")
                      now
                end
          end
    end.

Definition logout (refreshTokenString : string) : Async LogoutResponse :=
  if negb (Js.truthy refreshTokenString) then throw (AppError 400 "Token required")
  else
    let tokenHashToFind := hashToken refreshTokenString in
    db.delete_refreshTokens
      (fun r => (refreshTokens.tokenHash r =? tokenHashToFind)%string) ;;;
    ret success_true.

End AuthService.

(** ** More statements: those of user.service.ts *)

Module userStatements.

(** [db.select().from(users)].  The statement has no [ORDER BY]: the rows
    come in the order in which PostgreSQL scans the table, which the service
    does not control.  [scan] is that order; all that is known of it is that
    it rearranges the rows of the table ([Permutation (scan rows) rows]). *)
Definition select_all (scan : list users.row -> list users.row)
  : Async (list users.row) :=
  db.roundtrip ;;; fun s => (s, Return (scan (users_rows s))).

(** Another row, by primary key, holds the email of [u']. *)
Definition email_taken (rows : list users.row) (u' : users.row) : bool :=
  existsb (fun v => negb (Nat.eqb (users.id v) (users.id u'))
                    && (users.email v =? users.email u')%string) rows.

(** [db.update(users).set(f).where(w).returning()]: the [unique()] of
    [email] is checked on the rows written.  The values the user service
    writes through it passed [updateUserSchema], which bounds them at 255
    characters, or are bcrypt hashes: they fit their columns. *)
Definition update_returning (set : users.row -> users.row)
  (where_ : users.row -> bool) : Async (list users.row) :=
  db.roundtrip ;;; fun s =>
    let written := map set (filter where_ (users_rows s)) in
    let rows' := map (fun u => if where_ u then set u else u) (users_rows s) in
    if existsb (email_taken rows') written
    then (s, Throw (DatabaseError db.unique_violation))
    else (mkStore rows' (refreshTokens_rows s) (uuid_seed s) (faults s),
          Return written).

(** [db.delete(users).where(w).returning()]: the rows of [refreshTokens]
    that reference a deleted user go with it ([onDelete: 'cascade']). *)
Definition delete_returning (where_ : users.row -> bool)
  : Async (list users.row) :=
  db.roundtrip ;;; fun s =>
    let deleted := filter where_ (users_rows s) in
    (mkStore (filter (fun u => negb (where_ u)) (users_rows s))
       (filter (fun r => negb (existsb (fun u => Nat.eqb (users.id u)
                                                   (refreshTokens.userId r))
                                 deleted))
          (refreshTokens_rows s))
       (uuid_seed s) (faults s),
     Return deleted).

End userStatements.

(** ** src/modules/user/user.service.ts *)

(** [UserResponse = Omit<User, 'password'>] *)
Record UserResponse : Type := mkResponse {
  res_id : uuid;
  res_email : string;
  res_name : string;
  res_googleId : option string;
  res_authProvider : option string;
  res_avatar : option string;
  res_lastLoginAt : timestamp;
  res_createdAt : timestamp;
  res_updatedAt : timestamp
}.

(** [const { password, ...userWithoutPassword } = user] *)
Definition withoutPassword (u : users.row) : UserResponse :=
  mkResponse (users.id u) (users.email u) (users.name u) (users.googleId u)
    (users.authProvider u) (users.avatar u) (users.lastLoginAt u)
    (users.createdAt u) (users.updatedAt u).

Record CreateUserData : Type := mkCreate {
  c_email : string;
  c_name : string;
  c_password : string
}.

(** Every field is optional. *)
Record UpdateUserData : Type := mkUpdate {
  up_email : option string;
  up_name : option string;
  up_password : option string
}.

Definition or_keep {A} (o : option A) (a : A) : A :=
  match o with
  | Some x => x
  | None => a
  end.

(** [.set(updateData)]: the keys that are present, and [updatedAt]. *)
Definition set_updateData (email name password : option string)
  (now : timestamp) (u : users.row) : users.row :=
  users.mk (users.id u) (or_keep email (users.email u))
    (or_keep name (users.name u))
    (match password with Some p => Some p | None => users.password u end)
    (users.googleId u) (users.authProvider u) (users.avatar u)
    (users.lastLoginAt u) (users.createdAt u) now.

Module userService.
Section UserService.
Context {P : Platform}.

Definition create (data : CreateUserData) (now : timestamp) : Async UserResponse :=
  existingUser <- db.select_users
    (fun u => (users.email u =? c_email data)%string) 1 ;;
  if Nat.ltb 0 (List.length existingUser)
  then throw (AppError 409 "Email already exists")
  else
    let hashedPassword := bcrypt_hash (c_password data) 10 in
    inserted <- db.insert_users
      (users.mkValues (c_email data) (c_name data) (Some hashedPassword)
         None "local" None) now ;;
    match inserted with
    | [] => throw (AppError 500 "Failed to create user")
    | newUser :: _ => ret (withoutPassword newUser)
    end.

Definition getAll (scan : list users.row -> list users.row)
  : Async (list UserResponse) :=
  allUsers <- userStatements.select_all scan ;;
  ret (map withoutPassword allUsers).

Definition getById (id : uuid) : Async UserResponse :=
  found <- db.select_users (fun u => Nat.eqb (users.id u) id) 1 ;;
  match found with
  | [] => throw (AppError 404 "User not found")
  | user :: _ => ret (withoutPassword user)
  end.

Definition update (id : uuid) (data : UpdateUserData) (now : timestamp)
  : Async UserResponse :=
  found <- db.select_users (fun u => Nat.eqb (users.id u) id) 1 ;;
  match found with
  | [] => throw (AppError 404 "User not found")
  | existingUser :: _ =>
      (match up_email data with
       | Some email =>
           if Js.truthy email && negb (email =? users.email existingUser)%string
           then
             emailExists <- db.select_users
               (fun u => (users.email u =? email)%string) 1 ;;
             match emailExists with
             | _ :: _ => throw (AppError 409 "Email already exists")
             | [] => ret tt
             end
           else ret tt
       | None => ret tt
       end) ;;;
      let password :=
        match up_password data with
        | Some p => if Js.truthy p then Some (bcrypt_hash p 10) else Some p
        | None => None
        end in
      updated <- userStatements.update_returning
        (set_updateData (up_email data) (up_name data) password now)
        (fun u => Nat.eqb (users.id u) id) ;;
      match updated with
      | [] => throw (AppError 500 "Failed to update user")
      | updatedUser :: _ => ret (withoutPassword updatedUser)
      end
  end.

Definition delete (id : uuid) : Async UserResponse :=
  deleted <- userStatements.delete_returning (fun u => Nat.eqb (users.id u) id) ;;
  match deleted with
  | [] => throw (AppError 404 "User not found")
  | deletedUser :: _ => ret (withoutPassword deletedUser)
  end.

End UserService.
End userService.

(** ** A platform to run the service on

    Tokens are readable: [secret|id|iat|exp|email].  Verification checks the
    shape, then the secret, then the expiry against the clock, in the order
    jsonwebtoken does. *)

Module Toy.

Definition dec (z : Z) : string := NilZero.string_of_uint (N.to_uint (Z.to_N z)).

Definition undec (s : string) : option Z :=
  match NilZero.uint_of_string s with
  | Some u => Some (Z.of_N (N.of_uint u))
  | None => None
  end.

(** The text before the first ["|"] and the text after it. *)
Fixpoint cut (s : string) : option (string * string) :=
  match s with
  | EmptyString => None
  | String c rest =>
      if Ascii.eqb c "|" then Some (EmptyString, rest)
      else match cut rest with
           | Some (field, tail) => Some (String c field, tail)
           | None => None
           end
  end.

Definition sign (p : JwtPayload) (secret : string) (iat expiresIn : Z) : string :=
  secret ++ "|" ++ dec (Z.of_nat (jwt_id p)) ++ "|" ++ dec iat ++ "|"
    ++ dec (iat + expiresIn) ++ "|" ++ jwt_email p.

Definition verify (token secret : string) (clock : Z) : JwtError + Decoded :=
  match cut token with
  | None => inl (JsonWebTokenError "jwt malformed")
  | Some (sig, t1) =>
  match cut t1 with
  | None => inl (JsonWebTokenError "jwt malformed")
  | Some (id_, t2) =>
  match cut t2 with
  | None => inl (JsonWebTokenError "jwt malformed")
  | Some (iat_, t3) =>
  match cut t3 with
  | None => inl (JsonWebTokenError "jwt malformed")
  | Some (exp_, email_) =>
  match undec id_, undec iat_, undec exp_ with
  | Some i, Some _, Some exp =>
      if negb (sig =? secret)%string then inl (JsonWebTokenError "invalid signature")
      else if clock >=? exp then inl TokenExpiredError
      else inr (DecodedObject (mkPayload (Z.to_nat i) email_))
  | _, _, _ => inl (JsonWebTokenError "jwt malformed")
  end end end end end.

Definition google (idToken audience : string) : option (option GooglePayload) :=
  if (idToken =? "id-token-of-ann")%string then
    Some (Some (mkGoogle (Some "ann@x.com") (Some "Ann") "sub-ann" None))
  else None.

Definition platform : Platform := {|
  jwt_sign := sign;
  jwt_verify := verify;
  sha256_hex := fun t => ("sha256:" ++ t)%string;
  bcrypt_hash := fun pw _ => ("bcrypt:" ++ pw)%string;
  bcrypt_compare := fun pw h => (h =? "bcrypt:" ++ pw)%string;
  verifyIdToken := google;
  encodeURIComponent := fun n => n
|}.

Definition config : Config := mkConfig "access-secret" "refresh-secret" "client-id".

Definition empty : Store := mkStore [] [] 1%nat [].

End Toy.

(** ** Notions the statements are written in *)

(** The store answers every statement. *)
Definition store_up (s : Store) : Prop := faults s = [].

(** Whether the [k]-th next statement meets a store that is down. *)
Definition fault_at (k : nat) (s : Store) : bool := nth k (faults s) false.

(** Every row identifier in use was drawn from the supply. *)
Definition fresh_uuids (s : Store) : Prop :=
  (forall u, In u (users_rows s) -> (users.id u < uuid_seed s)%nat) /\
  (forall r, In r (refreshTokens_rows s) -> (refreshTokens.id r < uuid_seed s)%nat).

(** The ledger rows a [refresh] of a token of fingerprint [h] can match. *)
Definition live_with (h : string) (r : refreshTokens.row) : bool :=
  (refreshTokens.tokenHash r =? h)%string && Bool.eqb (refreshTokens.revoked r) false.

Definition has_id (i : uuid) (r : refreshTokens.row) : bool :=
  Nat.eqb (refreshTokens.id r) i.

(** At most one live ledger row carries the fingerprint [h]. *)
Definition at_most_one_live (h : string) (s : Store) : Prop :=
  forall r r', In r (refreshTokens_rows s) -> In r' (refreshTokens_rows s) ->
    live_with h r = true -> live_with h r' = true ->
    refreshTokens.id r = refreshTokens.id r'.

Definition findByEmail (s : Store) (e : string) : option users.row :=
  hd_error (filter (fun u => (users.email u =? e)%string) (users_rows s)).

Definition findById (s : Store) (i : uuid) : option users.row :=
  hd_error (filter (fun u => Nat.eqb (users.id u) i) (users_rows s)).

(** The store once [refresh] has consumed the row of identifier [i], with
    [rest] the availability script left. *)
Definition consumed (i : uuid) (s : Store) (rest : list bool) : Store :=
  mkStore (users_rows s)
    (filter (fun r => negb (has_id i r)) (refreshTokens_rows s))
    (uuid_seed s) rest.

(** The fields of an identity other than [googleId], [authProvider] and
    [lastLoginAt] are those of [u] in [u']. *)
Definition same_identity (u u' : users.row) : Prop :=
  users.id u' = users.id u /\
  users.email u' = users.email u /\
  users.name u' = users.name u /\
  users.password u' = users.password u /\
  users.avatar u' = users.avatar u /\
  users.createdAt u' = users.createdAt u /\
  users.updatedAt u' = users.updatedAt u.

(** The federation link of [u] is the one of [u']. *)
Definition same_link (u u' : users.row) : Prop :=
  users.googleId u' = users.googleId u /\
  users.authProvider u' = users.authProvider u.

(** The fields of an identity other than [googleId] and [authProvider] are
    those of [u] in [u']. *)
Definition link_apart (u u' : users.row) : Prop :=
  same_identity u u' /\ users.lastLoginAt u' = users.lastLoginAt u.

(** Every ledger row has a device label, neither [null] nor empty. *)
Definition labelled (s : Store) : Prop :=
  forall r, In r (refreshTokens_rows s) ->
    Js.truthy_opt (refreshTokens.device r) = true.

(** The table where the rows of the identifier of [user] went through
    [touch]. *)
Definition touched (user : users.row) (touch : users.row -> users.row)
  (rows : list users.row) : list users.row :=
  map (fun u => if Nat.eqb (users.id u) (users.id user) then touch u else u) rows.

(** [m] keeps the property [I] of the store, whether it returns or throws. *)
Definition preserves (I : Store -> Prop) {A} (m : Async A) : Prop :=
  forall s, I s -> I (fst (m s)).

Section Notions.
Context {P : Platform} (config : Config).

(** The ledger after [logout token]: every row of the token's fingerprint
    is gone, the others stay in order. *)
Definition without_fingerprint (token : string) (s : Store) : Store :=
  mkStore (users_rows s)
    (filter (fun r => negb (refreshTokens.tokenHash r =? hashToken token)%string)
       (refreshTokens_rows s))
    (uuid_seed s) (faults s).

(** The token passes the two tests of lines 124-127 of [refresh] at [now]. *)
Definition verifies (token : string) (now : timestamp) : Prop :=
  token <> "" /\
  exists decodedToken,
    verifyToken config token now = inr decodedToken /\
    decoded_truthy decodedToken = true.

(** The store after a pair was issued to [user] at [now]. *)
Definition issued_to (user : users.row) (device : string) (now : timestamp)
  (s : Store) : Store :=
  mkStore
    (map (fun u => if Nat.eqb (users.id u) (users.id user)
                   then users.set_lastLoginAt now u else u) (users_rows s))
    (refreshTokens_rows s
       ++ [refreshTokens.mk (uuid_seed s) (users.id user)
             (hashToken (generateRefreshToken config user now))
             (Some (Js.or device "Unknown Device")) (now + SEVEN_DAYS_MS)
             false now])
    (S (uuid_seed s)) (faults s).

(** The four calls that hand a token pair to the caller. *)
Inductive issues (now : timestamp) (s s' : Store) (pair : TokenResponse) : Prop :=
| issued_by_login (data : LoginData) :
    login config data now s = (s', Return pair) -> issues now s s' pair
| issued_by_register (data : RegisterData) :
    register config data now s = (s', Return pair) -> issues now s s' pair
| issued_by_loginWithGoogle (idToken device : string) :
    loginWithGoogle config idToken device now s = (s', Return pair) ->
    issues now s s' pair
| issued_by_refresh (token : string) :
    refresh config token now s = (s', Return pair) -> issues now s s' pair.

End Notions.

(** ** Notions for the two services together *)

(** Every ledger row belongs to an identity of the table. *)
Definition references_hold (s : Store) : Prop :=
  forall r, In r (refreshTokens_rows s) ->
    existsb (fun u => Nat.eqb (users.id u) (refreshTokens.userId r))
      (users_rows s) = true.

(** No two identities share an email, nor an identifier. *)
Definition emails_unique (s : Store) : Prop :=
  NoDup (map users.email (users_rows s)).

Definition ids_unique (s : Store) : Prop :=
  NoDup (map users.id (users_rows s)).

Definition directory_sound (s : Store) : Prop :=
  ids_unique s /\ emails_unique s.

(** The ledger of [s'] is the one of [s] with at most one row added at the
    end. *)
Definition ledger_grows (s s' : Store) : Prop :=
  exists added,
    refreshTokens_rows s' = (refreshTokens_rows s ++ added)%list /\
    (List.length added <= 1)%nat.

(** [login] would accept this email and password on [s]. *)
Definition accepts {P : Platform} (s : Store) (email password : string) : Prop :=
  exists user hash,
    findByEmail s email = Some user /\
    users.password user = Some hash /\
    hash <> "" /\
    bcrypt_compare password hash = true.

(** The identity of email [email] has no password to log in with. *)
Definition passwordless (s : Store) (email : string) : Prop :=
  exists user,
    findByEmail s email = Some user /\
    Js.truthy_opt (users.password user) = false.

(** A name as its [varchar(255)] column holds it. *)
Definition stored_name (name : string) : string :=
  or_keep (db.varchar 255 name) name.


Section MoreNotions.
Context {P : Platform}.

(** The identity [register] inserts. *)
Definition registered_user (data : RegisterData) (now : timestamp) (i : uuid)
  : users.row :=
  users.mk i (r_email data) (stored_name (r_name data))
    (Some (bcrypt_hash (r_password data) 10)) None (Some "local")
    (Some ("https://ui-avatars.com/api/?name=" ++ encodeURIComponent (r_name data)
             ++ "&background=random&color=fff&size=128")%string)
    now now now.

(** The identity [loginWithGoogle] inserts for a ticket whose email is new. *)
Definition google_user (payload : GooglePayload) (email : string)
  (now : timestamp) (i : uuid) : users.row :=
  users.mk i email (stored_name (Js.or_opt (g_name payload) "User")) None
    (Some (g_sub payload)) (Some "google") (g_picture payload) now now now.

(** The identity [userService.create] inserts. *)
Definition created_user (data : CreateUserData) (now : timestamp) (i : uuid)
  : users.row :=
  users.mk i (c_email data) (stored_name (c_name data))
    (Some (bcrypt_hash (c_password data) 10)) None (Some "local") None
    now now now.

(** What [userService.update] writes over the identity. *)
Definition updated_user (data : UpdateUserData) (now : timestamp)
  (u : users.row) : users.row :=
  set_updateData (up_email data) (up_name data)
    (match up_password data with
     | Some p => if Js.truthy p then Some (bcrypt_hash p 10) else Some p
     | None => None
     end) now u.

End MoreNotions.

(** ** The stores the services produce *)

(** A call of one of the two services. *)
Inductive Call : Type :=
| call_login (data : LoginData) (now : timestamp)
| call_register (data : RegisterData) (now : timestamp)
| call_loginWithGoogle (idToken device : string) (now : timestamp)
| call_refresh (token : string) (now : timestamp)
| call_logout (token : string)
| call_create (data : CreateUserData) (now : timestamp)
| call_getAll (scan : list users.row -> list users.row)
| call_getById (id : uuid)
| call_update (id : uuid) (data : UpdateUserData) (now : timestamp)
| call_delete (id : uuid).

Section Produced.
Context {P : Platform} (config : Config).

(** The store a call leaves, whether it returned or threw. *)
Definition after (c : Call) (s : Store) : Store :=
  match c with
  | call_login data now => fst (login config data now s)
  | call_register data now => fst (register config data now s)
  | call_loginWithGoogle idToken device now =>
      fst (loginWithGoogle config idToken device now s)
  | call_refresh token now => fst (refresh config token now s)
  | call_logout token => fst (logout token s)
  | call_create data now => fst (userService.create data now s)
  | call_getAll scan => fst (userService.getAll scan s)
  | call_getById id => fst (userService.getById id s)
  | call_update id data now => fst (userService.update id data now s)
  | call_delete id => fst (userService.delete id s)
  end.

(** The stores the two services produce: the ledger is empty at first, only
    calls of the services write to the tables, and the database comes and
    goes as it will between two calls. *)
Inductive produced : Store -> Prop :=
| produced_first (identities : list users.row) (seed : uuid) (script : list bool) :
    produced (mkStore identities [] seed script)
| produced_by_call (c : Call) (s : Store) :
    produced s -> produced (after c s)
| produced_availability (script : list bool) (s : Store) :
    produced s ->
    produced (mkStore (users_rows s) (refreshTokens_rows s) (uuid_seed s) script).

End Produced.

(** The fields [userService.update] never writes. *)
Definition same_account (u u' : users.row) : Prop :=
  users.id u' = users.id u /\
  users.googleId u' = users.googleId u /\
  users.authProvider u' = users.authProvider u /\
  users.avatar u' = users.avatar u /\
  users.lastLoginAt u' = users.lastLoginAt u /\
  users.createdAt u' = users.createdAt u.

(** ** Stores and calls the examples run on *)

Module Scenario.

Definition registration : RegisterData :=
  mkRegister "a@x.com" "A" "pw123456" "deviceX".

(** The store after [register] at 1000 ms on the empty store. *)
Definition registered : Store :=
  Eval vm_compute in
    fst (@register Toy.platform Toy.config registration 1000 Toy.empty).

(** The refresh token that registration returned. *)
Definition P1 : string := "refresh-secret|1|1|604801|a@x.com".

(** The store after [refresh P1] within the second of the registration, and
    in the second after it. *)
Definition refreshed_same_second : Store :=
  Eval vm_compute in fst (@refresh Toy.platform Toy.config P1 1500 registered).

Definition refreshed_next_second : Store :=
  Eval vm_compute in fst (@refresh Toy.platform Toy.config P1 2500 registered).

Definition P2 : TokenResponse :=
  mkTokens "refresh-secret|1|2|604802|a@x.com" "access-secret|1|2|902|a@x.com".

Definition a : users.row :=
  users.mk 1%nat "a@x.com" "A" (Some "bcrypt:pw123456") None (Some "local")
    (Some "https://ui-avatars.com/api/?name=A&background=random&color=fff&size=128")
    1000 1000 1000.

Definition record_of_P1 (device : option string) (expiresAt : timestamp)
  : refreshTokens.row :=
  refreshTokens.mk 2%nat 1%nat "sha256:refresh-secret|1|1|604801|a@x.com"
    device expiresAt false 1000.

(** The registered store whose ledger row was given an earlier expiry. *)
Definition shortened : Store :=
  mkStore [a] [record_of_P1 (Some "deviceX") 1200] 3%nat [].

(** The same with a second ledger row of that fingerprint. *)
Definition shortened_twice : Store :=
  mkStore [a]
    [record_of_P1 (Some "deviceX") 1200;
     refreshTokens.mk 3%nat 1%nat "sha256:refresh-secret|1|1|604801|a@x.com"
       (Some "deviceY") 1200 false 1000]
    4%nat [].

(** The registered store after a [login] within the second of the
    registration. *)
Definition logged_in_same_second : Store :=
  Eval vm_compute in
    fst (@login Toy.platform Toy.config (mkLogin "a@x.com" "pw123456" "deviceY")
           1700 registered).

(** The registered store whose ledger row has no device label. *)
Definition unlabelled : Store :=
  mkStore [a] [record_of_P1 None 604801000] 3%nat [].

(** The registered store, down at the fourth statement to come. *)
Definition failing_at_insert : Store :=
  mkStore [a] [record_of_P1 (Some "deviceX") 604801000] 3%nat
    [false; false; false; true].

(** The ledger row of [P1] with no identity behind it. *)
Definition orphaned : Store :=
  mkStore [] [record_of_P1 (Some "deviceX") 604801000] 3%nat [].

Definition ann (googleId : option string) (provider : string) : users.row :=
  users.mk 1%nat "ann@x.com" "Ann" (Some "bcrypt:pw") googleId (Some provider)
    None 0 0 0.

Definition ann_local : Store := mkStore [ann None "local"] [] 2%nat [].

Definition ann_linked : Store :=
  mkStore [ann (Some "sub-ann") "google"] [] 2%nat [].

(** A configuration whose two secrets are one string; the environment
    schema asks of each that it be a string. *)
Definition one_secret : Config := mkConfig "one-secret" "one-secret" "client-id".

Definition one_secret_registered : Store :=
  Eval vm_compute in
    fst (@register Toy.platform one_secret registration 1000 Toy.empty).

Definition one_secret_pair : TokenResponse :=
  mkTokens "one-secret|1|1|604801|a@x.com" "one-secret|1|1|901|a@x.com".

(** The store after the login within the second of the registration, down
    at the fourth statement to come, and what a [refresh] of [P1] leaves of
    it, the database being up again. *)
Definition duplicated_failing_at_insert : Store :=
  mkStore (users_rows logged_in_same_second)
    (refreshTokens_rows logged_in_same_second)
    (uuid_seed logged_in_same_second) [false; false; false; true].

Definition duplicated_after_failure : Store :=
  Eval vm_compute in
    fst (@refresh Toy.platform Toy.config P1 2500 duplicated_failing_at_insert).

(** A name of [n] letters, and registrations under names too long for the
    column: one of 256 letters, one of 255 letters and two spaces. *)
Fixpoint letters (n : nat) : string :=
  match n with
  | O => EmptyString
  | S m => String "n" (letters m)
  end.

Definition long_name : RegisterData :=
  mkRegister "c@x.com" (letters 256) "pw123456" "deviceX".

Definition spaced_name : RegisterData :=
  mkRegister "c@x.com" (letters 255 ++ "  ") "pw123456" "deviceX".

End Scenario.

Module DuplicateFingerprint.

Definition first_row : refreshTokens.row :=
  refreshTokens.mk 2%nat 1%nat "abc" (Some "phone") 604800000 false 0.

Definition before : Store :=
  mkStore [Scenario.ann None "local"] [first_row] 3%nat [].

Definition again : refreshTokens.values :=
  refreshTokens.mkValues 1%nat "abc" "laptop" 604800500.

Definition after : Store := fst (db.insert_refreshTokens again 500 before).

End DuplicateFingerprint.

(** What a call returned, [default] if it threw. *)
Definition returned {A} (o : Outcome A) (default : A) : A :=
  match o with
  | Return a => a
  | Throw _ => default
  end.

(** More of the scenario: a second session, a federated account, and the
    user service at work. *)
Module Walkthrough.

Definition no_tokens : TokenResponse := mkTokens "" "".

Definition no_response : UserResponse :=
  mkResponse 0%nat "" "" None None None 0 0 0.

(** [a] logs in, in another second than the one of the registration. *)
Definition relogin : LoginData := mkLogin "a@x.com" "pw123456" "deviceY".

Definition two_sessions : Store :=
  Eval vm_compute in
    fst (@login Toy.platform Toy.config relogin 2700 Scenario.registered).

Definition P3 : string := "refresh-secret|1|2|604802|a@x.com".

(** Ann comes in through Google, on the empty store. *)
Definition ann_created : Store :=
  Eval vm_compute in
    fst (@loginWithGoogle Toy.platform Toy.config "id-token-of-ann" "phone" 5000
           Toy.empty).

Definition ann_pair : TokenResponse :=
  Eval vm_compute in
    returned (snd (@loginWithGoogle Toy.platform Toy.config "id-token-of-ann"
                     "phone" 5000 Toy.empty)) no_tokens.

Definition ann_payload : GooglePayload :=
  mkGoogle (Some "ann@x.com") (Some "Ann") "sub-ann" None.

(** Bob is created through the user service, then renamed and given a new
    password. *)
Definition bob : CreateUserData := mkCreate "bob@x.com" "Bob" "secret-pw".

Definition bob_created : Store :=
  Eval vm_compute in
    fst (@userService.create Toy.platform bob 1000 Toy.empty).

Definition bob_response : UserResponse :=
  Eval vm_compute in
    returned (snd (@userService.create Toy.platform bob 1000 Toy.empty))
      no_response.

Definition bob_changes : UpdateUserData :=
  mkUpdate None (Some "Robert") (Some "new-secret").

Definition bob_updated : Store :=
  Eval vm_compute in
    fst (@userService.update Toy.platform 1%nat bob_changes 2000 bob_created).

Definition bob_updated_response : UserResponse :=
  Eval vm_compute in
    returned (snd (@userService.update Toy.platform 1%nat bob_changes 2000
                     bob_created)) no_response.

(** [a], registered, is deleted with the session of the registration. *)
Definition a_deleted : Store :=
  Eval vm_compute in
    fst (userService.delete 1%nat Scenario.registered).

Definition a_response : UserResponse :=
  Eval vm_compute in
    returned (snd (userService.delete 1%nat Scenario.registered))
      no_response.

End Walkthrough.

(** ** Running a call by cases *)

(** What [fit_users] lets through is the values given, the name as its
    column holds it. *)
Lemma fit_users_some v fitted :
  db.fit_users v = Some fitted ->
  fitted = users.mkValues (users.v_email v) (stored_name (users.v_name v))
             (users.v_password v) (users.v_googleId v)
             (users.v_authProvider v) (users.v_avatar v) /\
  db.varchar 255 (users.v_name v) <> None /\
  db.fits 255 (users.v_email v) = true /\
  db.fits_opt 255 (users.v_password v) = true /\
  db.fits_opt 255 (users.v_googleId v) = true /\
  db.fits 50 (users.v_authProvider v) = true.
Proof.
  unfold db.fit_users, stored_name. intros H.
  destruct (db.varchar 255 (users.v_name v)) as [name|]; [|discriminate].
  destruct (db.fits 255 (users.v_email v)) eqn:E1; [|discriminate].
  destruct (db.fits_opt 255 (users.v_password v)) eqn:E2; [|discriminate].
  destruct (db.fits_opt 255 (users.v_googleId v)) eqn:E3; [|discriminate].
  destruct (db.fits 50 (users.v_authProvider v)) eqn:E4; [|discriminate].
  cbn in H. injection H as <-. cbn. repeat split; congruence.
Qed.

(** Case analysis on the innermost scrutinee of a [match] of [t]. *)
Ltac case_scrutinee t :=
  lazymatch t with
  | context [match ?x with _ => _ end] => case_scrutinee x
  | _ => destruct t eqn:?
  end.

(** Follow hypothesis [H], the equation of a run, through every branch the
    run can take, dropping the branches that contradict [H]. *)
(** The values that passed [fit_users], named. *)
Ltac name_fitted :=
  repeat match goal with
         | Hfit : db.fit_users _ = Some _ |- _ =>
             apply fit_users_some in Hfit; destruct Hfit as (-> & _)
         end.

Ltac follow H :=
  cbn in H;
  repeat (lazymatch type of H with
          | context [match ?x with _ => _ end] => case_scrutinee x
          end;
          name_fitted; cbn in H; try discriminate H).

Ltac unfold_statements :=
  unfold db.select_users, db.insert_users, db.write_users, db.update_users,
    db.select_refreshTokens, db.insert_refreshTokens, db.delete_refreshTokens,
    db.roundtrip, db.gen_random_uuid, bind, ret, throw in *.

(** ** The scenario, run *)

Example registered_is_fresh : fresh_uuids Scenario.registered.
Proof. split; cbn; intros x [<-|[]]; cbn; lia. Qed.

Example register_returns_P1 :
  snd (@register Toy.platform Toy.config Scenario.registration 1000 Toy.empty)
  = Return (mkTokens Scenario.P1 "access-secret|1|1|901|a@x.com").
Proof. reflexivity. Qed.

Example refresh_next_second_returns_P2 :
  @refresh Toy.platform Toy.config Scenario.P1 2500 Scenario.registered
  = (Scenario.refreshed_next_second, Return Scenario.P2).
Proof. reflexivity. Qed.

Example login_wrong_password :
  snd (@login Toy.platform Toy.config (mkLogin "a@x.com" "wrong" "d") 3000
         Scenario.registered)
  = Throw InvalidCredentials.
Proof. reflexivity. Qed.

Example login_unknown_email :
  snd (@login Toy.platform Toy.config (mkLogin "b@x.com" "pw123456" "d") 3000
         Scenario.registered)
  = Throw NotFound.
Proof. reflexivity. Qed.

Example register_twice :
  snd (@register Toy.platform Toy.config Scenario.registration 3000
         Scenario.registered)
  = Throw AlreadyExists.
Proof. reflexivity. Qed.

(** ** Lemmas on the statements *)

Lemma roundtrip_up (s : Store) :
  store_up s -> db.roundtrip s = (s, Return tt).
Proof.
  unfold store_up, db.roundtrip. intros ->. reflexivity.
Qed.

Lemma existsb_false_fresh (rows : list refreshTokens.row) (seed : uuid) :
  (forall r, In r rows -> (refreshTokens.id r < seed)%nat) ->
  existsb (fun r => Nat.eqb (refreshTokens.id r) seed) rows = false.
Proof.
  intros Hfresh. apply not_true_is_false. intros Hex.
  apply existsb_exists in Hex. destruct Hex as [r [Hin Heq]].
  apply Nat.eqb_eq in Heq. specialize (Hfresh r Hin). lia.
Qed.

Lemma existsb_user_of_find (rows : list users.row) (i : uuid) (u : users.row) :
  hd_error (filter (fun x => Nat.eqb (users.id x) i) rows) = Some u ->
  existsb (fun x => Nat.eqb (users.id x) i) rows = true.
Proof.
  intros Hfind. apply existsb_exists. exists u.
  assert (Hin : In u (filter (fun x => Nat.eqb (users.id x) i) rows)).
  { destruct (filter _ rows); simpl in Hfind; [discriminate|].
    injection Hfind as ->. now left. }
  apply filter_In in Hin. exact Hin.
Qed.

Lemma existsb_user_in (rows : list users.row) (u : users.row) :
  In u rows -> existsb (fun x => Nat.eqb (users.id x) (users.id u)) rows = true.
Proof.
  intros Hin. apply existsb_exists. exists u. split; [exact Hin|].
  apply Nat.eqb_refl.
Qed.

Lemma hd_error_filter_In {A} (p : A -> bool) (l : list A) (a : A) :
  hd_error (filter p l) = Some a -> In a l /\ p a = true.
Proof.
  intros H. apply filter_In.
  destruct (filter p l); simpl in H; [discriminate|].
  injection H as ->. now left.
Qed.

Lemma firstn_1_hd {A} (l : list A) :
  firstn 1 l = match hd_error l with Some a => [a] | None => [] end.
Proof. destruct l; reflexivity. Qed.

(** ** What every call keeps *)

Create HintDb preserves.

Lemma preserves_ret (I : Store -> Prop) {A} (a : A) : preserves I (ret a).
Proof. intros s Hs. exact Hs. Qed.

Lemma preserves_throw (I : Store -> Prop) {A} (e : Exn) :
  preserves I (@throw A e).
Proof. intros s Hs. exact Hs. Qed.

Lemma preserves_bind (I : Store -> Prop) {A B} (m : Async A) (k : A -> Async B) :
  preserves I m -> (forall a, preserves I (k a)) -> preserves I (bind m k).
Proof.
  intros Hm Hk s Hs. unfold bind. specialize (Hm s Hs).
  destruct (m s) as [s' [a|e]]; cbn [fst] in *; [apply Hk; exact Hm|exact Hm].
Qed.

#[export] Hint Resolve preserves_ret preserves_throw : preserves.

(** An insert into [users] keeps what its round trip and its write keep. *)
Lemma insert_users_by_parts (I : Store -> Prop) v now :
  preserves I db.roundtrip ->
  (forall fitted, preserves I (db.write_users fitted now)) ->
  preserves I (db.insert_users v now).
Proof.
  intros Hround Hwrite. apply preserves_bind; [exact Hround|intros _].
  destruct (db.fit_users v); [apply Hwrite|apply preserves_throw].
Qed.


(** Break a call into its statements. *)
Ltac by_statements :=
  cbv zeta;
  repeat first
    [ progress intros
    | solve [auto with preserves]
    | match goal with
      | |- preserves _ (match ?x with _ => _ end) => destruct x
      end
    | apply preserves_bind ].

Section StoreUp.

Lemma roundtrip_stays_up : preserves store_up db.roundtrip.
Proof. intros s Hs. rewrite (roundtrip_up s Hs). exact Hs. Qed.

Lemma statement_stays_up {A} (f : Store -> Store * Outcome A) :
  (forall s, faults (fst (f s)) = faults s) ->
  preserves store_up f.
Proof. intros Hf s Hs. unfold store_up. rewrite Hf. exact Hs. Qed.

Lemma select_users_stays_up w n : preserves store_up (db.select_users w n).
Proof.
  apply preserves_bind; [apply roundtrip_stays_up|intros _].
  now apply statement_stays_up.
Qed.

Lemma select_refreshTokens_stays_up w n :
  preserves store_up (db.select_refreshTokens w n).
Proof.
  apply preserves_bind; [apply roundtrip_stays_up|intros _].
  now apply statement_stays_up.
Qed.

Lemma update_users_stays_up f w : preserves store_up (db.update_users f w).
Proof.
  apply preserves_bind; [apply roundtrip_stays_up|intros _].
  now apply statement_stays_up.
Qed.

Lemma delete_refreshTokens_stays_up w :
  preserves store_up (db.delete_refreshTokens w).
Proof.
  apply preserves_bind; [apply roundtrip_stays_up|intros _].
  now apply statement_stays_up.
Qed.

Lemma insert_users_stays_up v now : preserves store_up (db.insert_users v now).
Proof.
  apply insert_users_by_parts; [apply roundtrip_stays_up|intros fitted].
  apply preserves_bind; [now apply statement_stays_up|intros i].
  apply statement_stays_up. intros s. now destruct (existsb _ _).
Qed.

Lemma insert_refreshTokens_stays_up v now :
  preserves store_up (db.insert_refreshTokens v now).
Proof.
  apply preserves_bind; [apply roundtrip_stays_up|intros _].
  apply preserves_bind; [now apply statement_stays_up|intros i].
  apply statement_stays_up. intros s.
  destruct (existsb _ _); [reflexivity|]. now destruct (negb _).
Qed.

End StoreUp.

#[export] Hint Resolve select_users_stays_up select_refreshTokens_stays_up
  update_users_stays_up delete_refreshTokens_stays_up insert_users_stays_up
  insert_refreshTokens_stays_up : preserves.

Section FreshUuids.

Lemma statement_keeps_rows {A} (f : Store -> Store * Outcome A) :
  (forall s, users_rows (fst (f s)) = users_rows s /\
             refreshTokens_rows (fst (f s)) = refreshTokens_rows s /\
             (uuid_seed s <= uuid_seed (fst (f s)))%nat) ->
  preserves fresh_uuids f.
Proof.
  intros Hf s [Hu Hr]. destruct (Hf s) as (Eu & Er & Hseed).
  split; [rewrite Eu|rewrite Er]; intros x Hx;
    [specialize (Hu x Hx)|specialize (Hr x Hx)]; lia.
Qed.

Lemma roundtrip_keeps_fresh : preserves fresh_uuids db.roundtrip.
Proof.
  apply statement_keeps_rows. intros s. unfold db.roundtrip.
  destruct (faults s) as [|[|] rest]; cbn; auto.
Qed.

Lemma gen_random_uuid_keeps_fresh : preserves fresh_uuids db.gen_random_uuid.
Proof. apply statement_keeps_rows. intros s. cbn. auto. Qed.

Lemma select_users_keeps_fresh w n : preserves fresh_uuids (db.select_users w n).
Proof.
  apply preserves_bind; [apply roundtrip_keeps_fresh|intros _].
  apply statement_keeps_rows. intros s. cbn. auto.
Qed.

Lemma select_refreshTokens_keeps_fresh w n :
  preserves fresh_uuids (db.select_refreshTokens w n).
Proof.
  apply preserves_bind; [apply roundtrip_keeps_fresh|intros _].
  apply statement_keeps_rows. intros s. cbn. auto.
Qed.

Lemma delete_refreshTokens_keeps_fresh w :
  preserves fresh_uuids (db.delete_refreshTokens w).
Proof.
  apply preserves_bind; [apply roundtrip_keeps_fresh|intros _].
  intros s [Hu Hr]. split; cbn; [exact Hu|].
  intros r Hin. apply filter_In in Hin. apply Hr. exact (proj1 Hin).
Qed.

Lemma update_users_keeps_fresh f w :
  (forall u, users.id (f u) = users.id u) ->
  preserves fresh_uuids (db.update_users f w).
Proof.
  intros Hid. apply preserves_bind; [apply roundtrip_keeps_fresh|intros _].
  intros s [Hu Hr]. split; cbn; [|exact Hr].
  intros u Hin. apply in_map_iff in Hin. destruct Hin as (u0 & <- & Hin).
  specialize (Hu u0 Hin). destruct (w u0); [rewrite Hid|]; exact Hu.
Qed.

(** A row drawn its identifier from the supply is below the new seed. *)
Lemma insert_users_keeps_fresh v now :
  preserves fresh_uuids (db.insert_users v now).
Proof.
  apply insert_users_by_parts; [apply roundtrip_keeps_fresh|intros fitted].
  intros s [Hu Hr]. unfold db.write_users, bind, db.gen_random_uuid. cbn.
  destruct (existsb _ _); cbn; (split; cbn; [intros u Hin|intros r Hin]).
  - specialize (Hu u Hin). lia.
  - specialize (Hr r Hin). lia.
  - apply in_app_or in Hin. destruct Hin as [Hin|[<-|[]]];
      [specialize (Hu u Hin)|cbn]; lia.
  - specialize (Hr r Hin). lia.
Qed.

Lemma insert_refreshTokens_keeps_fresh v now :
  preserves fresh_uuids (db.insert_refreshTokens v now).
Proof.
  apply preserves_bind; [apply roundtrip_keeps_fresh|intros _].
  intros s [Hu Hr]. unfold bind, db.gen_random_uuid. cbn.
  destruct (existsb _ _); [|destruct (negb _)]; cbn;
    (split; cbn; [intros u Hin|intros r Hin]).
  all: try (specialize (Hu u Hin); lia).
  all: try (specialize (Hr r Hin); lia).
  apply in_app_or in Hin. destruct Hin as [Hin|[<-|[]]];
    [specialize (Hr r Hin)|cbn]; lia.
Qed.

End FreshUuids.

#[export] Hint Resolve select_users_keeps_fresh select_refreshTokens_keeps_fresh
  delete_refreshTokens_keeps_fresh insert_users_keeps_fresh
  insert_refreshTokens_keeps_fresh : preserves.

(** [s || d] is truthy when the default is. *)
Lemma or_default_truthy (s d : string) :
  Js.truthy d = true -> Js.truthy (Js.or s d) = true.
Proof. intros Hd. unfold Js.or. now destruct (Js.truthy s) eqn:Hs. Qed.

Section ServiceKeeps.
Context {P : Platform} (config : Config).
Variable I : Store -> Prop.
Hypothesis select_users_keeps : forall w n, preserves I (db.select_users w n).
Hypothesis insert_users_keeps : forall v now, preserves I (db.insert_users v now).
Hypothesis update_users_keeps :
  forall f w, (forall u, same_identity u (f u)) ->
              preserves I (db.update_users f w).
Hypothesis select_refreshTokens_keeps :
  forall w n, preserves I (db.select_refreshTokens w n).
Hypothesis insert_refreshTokens_keeps :
  forall v now,
    Js.truthy (refreshTokens.v_device v) = true ->
    preserves I (db.insert_refreshTokens v now).
Hypothesis delete_refreshTokens_keeps :
  forall w, preserves I (db.delete_refreshTokens w).

Local Hint Resolve select_users_keeps insert_users_keeps
  select_refreshTokens_keeps delete_refreshTokens_keeps : preserves.
Local Hint Extern 1 (preserves I (db.insert_refreshTokens _ _)) =>
  apply insert_refreshTokens_keeps; cbn [refreshTokens.v_device];
  apply or_default_truthy; reflexivity : preserves.
Local Hint Extern 1 (preserves I (db.update_users _ _)) =>
  apply update_users_keeps; intros ?; repeat split : preserves.

(** A property that every statement keeps is kept by every call of the
    service, returned or thrown.  Of the insert into the ledger it is
    enough that it keeps the property when the row has a device label, as
    every row the service inserts has. *)
Lemma service_keeps :
  (forall user device now,
      preserves I (_generateAuthResponse config user device now)) /\
  (forall data now, preserves I (login config data now)) /\
  (forall data now, preserves I (register config data now)) /\
  (forall idToken device now,
      preserves I (loginWithGoogle config idToken device now)) /\
  (forall token now, preserves I (refresh config token now)) /\
  (forall token, preserves I (logout token)).
Proof.
  assert (Htail : forall user device now,
             preserves I (_generateAuthResponse config user device now))
    by (unfold _generateAuthResponse; by_statements).
  split; [exact Htail|].
  unfold login, register, loginWithGoogle, resolveGoogleUser, refresh, logout.
  repeat split; by_statements.
Qed.

End ServiceKeeps.

(** The store stays up, and identifiers stay fresh, across any call. *)
Lemma service_stays_up {P : Platform} (config : Config) :
  (forall data now, preserves store_up (login config data now)) /\
  (forall data now, preserves store_up (register config data now)) /\
  (forall idToken device now,
      preserves store_up (loginWithGoogle config idToken device now)) /\
  (forall token now, preserves store_up (refresh config token now)) /\
  (forall token, preserves store_up (logout token)).
Proof.
  apply (service_keeps config store_up); auto with preserves.
Qed.

Lemma service_keeps_fresh {P : Platform} (config : Config) :
  (forall data now, preserves fresh_uuids (login config data now)) /\
  (forall data now, preserves fresh_uuids (register config data now)) /\
  (forall idToken device now,
      preserves fresh_uuids (loginWithGoogle config idToken device now)) /\
  (forall token now, preserves fresh_uuids (refresh config token now)) /\
  (forall token, preserves fresh_uuids (logout token)).
Proof.
  apply (service_keeps config fresh_uuids); auto with preserves.
  intros f w Hid. apply update_users_keeps_fresh. intros u. apply (Hid u).
Qed.

(** ** Logout *)

Section Logout.
Context {P : Platform}.

(** What [logout] does to the store for a non-empty token. *)
Lemma logout_runs (token : string) (s : Store) :
  token <> "" ->
  store_up s ->
  logout token s = (without_fingerprint token s, Return success_true).
Proof.
  intros Hne Hup. unfold logout, Js.truthy.
  destruct (String.eqb_spec token "") as [->|_]; [now elim Hne|].
  cbn [negb]. unfold db.delete_refreshTokens, bind.
  rewrite (roundtrip_up s Hup). reflexivity.
Qed.

(** C3, as amended: for every non-empty string, and with the store up,
    [logout] reports success whether or not the ledger holds a row of that
    token (never issued, consumed, logged out before); what it leaves is the
    ledger without the rows of the token's fingerprint, and logging out
    again with the same string is a success again. *)
Theorem logout_nonempty_reports_success (token : string) (s : Store) :
  token <> "" ->
  store_up s ->
  logout token s = (without_fingerprint token s, Return success_true) /\
  snd (logout token (without_fingerprint token s)) = Return success_true.
Proof.
  intros Hne Hup. split.
  - apply logout_runs; assumption.
  - rewrite logout_runs; [reflexivity|exact Hne|exact Hup].
Qed.

End Logout.

(** C3, witness: a token that was never issued, on the empty store. *)
Lemma logout_nonempty_reports_success_witness :
  @logout Toy.platform "never-issued" Toy.empty
  = (@without_fingerprint Toy.platform "never-issued" Toy.empty,
     Return success_true) /\
  snd (@logout Toy.platform "never-issued"
         (@without_fingerprint Toy.platform "never-issued" Toy.empty))
  = Return success_true.
Proof.
  apply (@logout_nonempty_reports_success Toy.platform "never-issued" Toy.empty).
  - discriminate.
  - reflexivity.
Defined.

(** C3, counterexample: the empty string is rejected with status 400. *)
Lemma logout_empty_string_is_rejected :
  @logout Toy.platform "" Toy.empty
  = (Toy.empty, Throw (AppError 400 "Token required")) /\
  snd (@logout Toy.platform "" Toy.empty) <> Return success_true.
Proof.
  split; [reflexivity|]. cbn. discriminate.
Qed.

(** ** Token verification in [refresh] *)

Section Verification.
Context {P : Platform} (config : Config).

(** A token that [jwt.verify] rejects stops [refresh] there. *)
Lemma refresh_stops_at_verify
  (token : string) (now : timestamp) (s : Store) (e : JwtError) :
  token <> "" ->
  verifyToken config token now = inl e ->
  refresh config token now s = (s, Throw (JwtThrown e)).
Proof.
  intros Hne Hverify. unfold refresh, Js.truthy.
  destruct (String.eqb_spec token "") as [->|_]; [now elim Hne|].
  cbn [negb]. rewrite Hverify. reflexivity.
Qed.

(** C4, what the code does: when [jwt.verify] rejects the presented token
    (bad signature, malformed, or embedded expiry passed) the exception it
    throws leaves [refresh] as it is, before the store is touched; it is no
    [AppError], and [errorHandler] answers it with status 500. *)
Theorem refresh_rejected_token_escapes_as_500
  (token : string) (now : timestamp) (s : Store) (e : JwtError) :
  token <> "" ->
  verifyToken config token now = inl e ->
  refresh config token now s = (s, Throw (JwtThrown e)) /\
  fst (errorHandler (JwtThrown e)) = 500 /\
  (forall statusCode message, JwtThrown e <> AppError statusCode message).
Proof.
  intros Hne Hverify. split; [|split].
  - apply refresh_stops_at_verify; assumption.
  - reflexivity.
  - intros statusCode message. discriminate.
Qed.

End Verification.

(** C4, witness: a string that is no token at all. *)
Lemma refresh_rejected_token_escapes_as_500_witness :
  @refresh Toy.platform Toy.config "not-a-jwt" 1000 Scenario.registered
  = (Scenario.registered, Throw (JwtThrown (JsonWebTokenError "jwt malformed"))) /\
  fst (errorHandler (JwtThrown (JsonWebTokenError "jwt malformed"))) = 500 /\
  (forall statusCode message,
      JwtThrown (JsonWebTokenError "jwt malformed")
      <> AppError statusCode message).
Proof.
  apply (@refresh_rejected_token_escapes_as_500 Toy.platform Toy.config
           "not-a-jwt" 1000 Scenario.registered
           (JsonWebTokenError "jwt malformed")).
  - discriminate.
  - reflexivity.
Defined.

(** The same for a token signed with another secret, and for [P1] once its
    seven days are over. *)
Example refresh_forged_token :
  errorHandler
    match snd (@refresh Toy.platform Toy.config "forged|1|1|604801|a@x.com" 1000
                 Scenario.registered) with
    | Throw e => e
    | Return _ => AppError 200 "OK"
    end
  = (500, "invalid signature").
Proof. reflexivity. Qed.

Example refresh_outdated_token :
  errorHandler
    match snd (@refresh Toy.platform Toy.config Scenario.P1 604801000
                 Scenario.registered) with
    | Throw e => e
    | Return _ => AppError 200 "OK"
    end
  = (500, "jwt expired").
Proof. reflexivity. Qed.

(** ** Storing a ledger record *)

(** C7, as amended: the ledger has no uniqueness rule on fingerprints.  With
    the store up, the owner present and the row identifier unused, storing a
    record succeeds and appends one row, whatever fingerprints the ledger
    already holds. *)
Theorem insert_refreshTokens_ignores_fingerprints
  (v : refreshTokens.values) (now : timestamp) (s : Store) :
  store_up s ->
  fresh_uuids s ->
  findById s (refreshTokens.v_userId v) <> None ->
  db.insert_refreshTokens v now s
  = (mkStore (users_rows s)
       (refreshTokens_rows s
          ++ [refreshTokens.mk (uuid_seed s) (refreshTokens.v_userId v)
                (refreshTokens.v_tokenHash v) (Some (refreshTokens.v_device v))
                (refreshTokens.v_expiresAt v) false now])
       (S (uuid_seed s)) (faults s),
     Return tt).
Proof.
  intros Hup [_ Hfresh] Howner.
  unfold db.insert_refreshTokens, bind. rewrite (roundtrip_up s Hup).
  cbn. rewrite (existsb_false_fresh _ _ Hfresh).
  unfold findById in Howner.
  destruct (hd_error _) as [u|] eqn:Hfind; [|now elim Howner].
  rewrite (existsb_user_of_find _ _ _ Hfind). reflexivity.
Qed.

(** C7, witness. *)
Lemma insert_refreshTokens_ignores_fingerprints_witness :
  db.insert_refreshTokens DuplicateFingerprint.again 500 DuplicateFingerprint.before
  = (mkStore [Scenario.ann None "local"]
       [DuplicateFingerprint.first_row;
        refreshTokens.mk 3%nat 1%nat "abc" (Some "laptop") 604800500 false 500]
       4%nat [],
     Return tt).
Proof.
  apply (insert_refreshTokens_ignores_fingerprints
           DuplicateFingerprint.again 500 DuplicateFingerprint.before).
  - reflexivity.
  - split; cbn; intros x [<-|[]]; cbn; lia.
  - cbn. discriminate.
Defined.

(** C7, counterexample: a live record of fingerprint ["abc"] is in the
    ledger, a second one is stored without any conflict, and two live rows
    of that fingerprint are there afterwards. *)
Lemma duplicate_fingerprint_is_stored :
  existsb (live_with "abc") (refreshTokens_rows DuplicateFingerprint.before) = true /\
  snd (db.insert_refreshTokens DuplicateFingerprint.again 500
         DuplicateFingerprint.before) = Return tt /\
  List.length (filter (live_with "abc") (refreshTokens_rows DuplicateFingerprint.after))
  = 2%nat.
Proof.
  repeat split.
Qed.

(** ** Token issuance *)

Section Issuance.
Context {P : Platform} (config : Config).

(** A successful [_generateAuthResponse], step by step. *)
Lemma _generateAuthResponse_returns
  (user : users.row) (device : string) (now : timestamp)
  (s s' : Store) (pair : TokenResponse) :
  _generateAuthResponse config user device now s = (s', Return pair) ->
  pair = mkTokens (generateRefreshToken config user now)
           (generateToken config user now) /\
  refreshTokens_rows s'
  = (refreshTokens_rows s
      ++ [refreshTokens.mk (uuid_seed s) (users.id user)
            (hashToken (generateRefreshToken config user now))
            (Some (Js.or device "Unknown Device")) (now + SEVEN_DAYS_MS)
            false now])%list /\
  users_rows s'
  = map (fun u => if Nat.eqb (users.id u) (users.id user)
                  then users.set_lastLoginAt now u else u) (users_rows s) /\
  uuid_seed s' = S (uuid_seed s).
Proof.
  intros H. unfold _generateAuthResponse in H. unfold_statements.
  destruct s as [us rs seed fs]. follow H.
  all: injection H as <- <-; cbn; auto.
Qed.

End Issuance.

Arguments _generateAuthResponse : simpl never.

(** ** Refresh *)

Section Refresh.
Context {P : Platform} (config : Config).

(** A successful [refresh], step by step: the token verified, the first live
    row of its fingerprint was found unexpired and deleted, its owner was
    found, and the pair comes from [_generateAuthResponse] run on the store
    without that row. *)
Lemma refresh_returns
  (token : string) (now : timestamp) (s s' : Store) (pair : TokenResponse) :
  refresh config token now s = (s', Return pair) ->
  verifies config token now /\
  exists stored user rest,
    hd_error (filter (live_with (hashToken token)) (refreshTokens_rows s))
    = Some stored /\
    now <= refreshTokens.expiresAt stored /\
    findById s (refreshTokens.userId stored) = Some user /\
    _generateAuthResponse config user
      (Js.or_opt (refreshTokens.device stored) "Unknown") now
      (consumed (refreshTokens.id stored) s rest)
    = (s', Return pair).
Proof.
  intros H. unfold refresh, verifies in *.
  unfold Js.truthy in H.
  destruct (String.eqb_spec token "") as [->|Hne]; [discriminate H|].
  cbn [negb] in H.
  destruct (verifyToken config token now) as [e|decodedToken] eqn:Hverify;
    [discriminate H|].
  destruct (decoded_truthy decodedToken) eqn:Htruthy; [|discriminate H].
  cbn [negb] in H. split; [split; [exact Hne|eauto]|].
  unfold_statements. unfold findById. fold (live_with (hashToken token)) in H.
  destruct s as [us rs seed fs].
  cbn [users_rows refreshTokens_rows uuid_seed faults] in *.
  follow H.
  all: match goal with
       | Hexp : (_ >? _) = false, Huser : @filter users.row _ _ = _ |- _ =>
           rewrite Z.gtb_ltb in Hexp; apply Z.ltb_ge in Hexp;
           eexists _, _, _; rewrite ?Huser; cbn [hd_error];
           split; [reflexivity|]; split; [exact Hexp|];
           rewrite ?Huser; split; [reflexivity|]; exact H
       end.
Qed.

End Refresh.

(** ** Every pair comes out of [_generateAuthResponse] *)

Section Issued.
Context {P : Platform} (config : Config).

Lemma login_tail (data : LoginData) (now : timestamp) (s s' : Store)
  (pair : TokenResponse) :
  login config data now s = (s', Return pair) ->
  exists user s0,
    _generateAuthResponse config user (l_device data) now s0 = (s', Return pair).
Proof.
  intros H. unfold login in H. unfold_statements.
  destruct s as [us rs seed fs]. follow H; eauto.
Qed.

Lemma register_tail (data : RegisterData) (now : timestamp) (s s' : Store)
  (pair : TokenResponse) :
  register config data now s = (s', Return pair) ->
  exists user s0,
    _generateAuthResponse config user (r_device data) now s0 = (s', Return pair).
Proof.
  intros H. unfold register in H. unfold_statements.
  destruct s as [us rs seed fs]. follow H; eauto.
Qed.

Lemma loginWithGoogle_tail (idToken device : string) (now : timestamp)
  (s s' : Store) (pair : TokenResponse) :
  loginWithGoogle config idToken device now s = (s', Return pair) ->
  exists user s0,
    _generateAuthResponse config user device now s0 = (s', Return pair).
Proof.
  intros H. unfold loginWithGoogle, resolveGoogleUser in H. unfold_statements.
  destruct s as [us rs seed fs]. follow H; eauto.
Qed.

Lemma issues_tail (now : timestamp) (s s' : Store) (pair : TokenResponse) :
  issues config now s s' pair ->
  exists user device s0,
    _generateAuthResponse config user device now s0 = (s', Return pair).
Proof.
  intros [data H|data H|idToken device H|token H].
  - destruct (login_tail _ _ _ _ _ H) as (user & s0 & Htail); eauto.
  - destruct (register_tail _ _ _ _ _ H) as (user & s0 & Htail); eauto.
  - destruct (loginWithGoogle_tail _ _ _ _ _ _ H) as (user & s0 & Htail); eauto.
  - destruct (refresh_returns _ _ _ _ _ _ H)
      as (_ & stored & user & rest & _ & _ & _ & Htail); eauto.
Qed.

(** The access token does not depend on [REFRESH_SECRET], nor the refresh
    token and its verification on [ACCESS_SECRET]. *)
Lemma secrets_are_separate
  (access access' refresh_ refresh_' client : string)
  (user : users.row) (token : string) (now : timestamp) :
  generateToken (mkConfig access refresh_ client) user now
  = generateToken (mkConfig access refresh_' client) user now /\
  generateRefreshToken (mkConfig access refresh_ client) user now
  = generateRefreshToken (mkConfig access' refresh_ client) user now /\
  verifyToken (mkConfig access refresh_ client) token now
  = verifyToken (mkConfig access' refresh_ client) token now.
Proof. repeat split. Qed.

(** C8, as amended: whichever call issued the pair, its access token is the
    claims [{id, email}] of an identity signed under [ACCESS_SECRET] for 15
    minutes, its refresh token the same claims signed under
    [REFRESH_SECRET], the other entry of the configuration, for 7 days, and
    the last row of the ledger is the record of that refresh token, with
    [expiresAt] 7 days after the time of the call.  Nothing is said of the
    two entries holding different strings. *)
Theorem issued_pair_secrets_and_lifetimes
  (now : timestamp) (s s' : Store) (pair : TokenResponse) :
  issues config now s s' pair ->
  exists (user : users.row) (earlier : list refreshTokens.row)
         (record : refreshTokens.row),
    accessToken pair
    = jwt_sign (mkPayload (users.id user) (users.email user))
        (ACCESS_SECRET config) (now / 1000) (15 * 60) /\
    refreshToken pair
    = jwt_sign (mkPayload (users.id user) (users.email user))
        (REFRESH_SECRET config) (now / 1000) (7 * 24 * 60 * 60) /\
    refreshTokens_rows s' = (earlier ++ [record])%list /\
    refreshTokens.userId record = users.id user /\
    refreshTokens.tokenHash record = sha256_hex (refreshToken pair) /\
    refreshTokens.expiresAt record = now + 7 * 24 * 60 * 60 * 1000 /\
    refreshTokens.revoked record = false.
Proof.
  intros Hissued.
  destruct (issues_tail _ _ _ _ Hissued) as (user & device & s0 & Htail).
  apply _generateAuthResponse_returns in Htail.
  destruct Htail as (-> & Hrows & _ & _).
  eexists user, _, _. rewrite Hrows. repeat split.
Qed.

End Issued.

(** ** Login *)

Section Login.
Context {P : Platform} (config : Config).

(** With the store up and the owner present, issuance succeeds. *)
Lemma _generateAuthResponse_runs
  (user : users.row) (device : string) (now : timestamp) (s : Store) :
  store_up s ->
  fresh_uuids s ->
  In user (users_rows s) ->
  _generateAuthResponse config user device now s
  = (issued_to config user device now s,
     Return (mkTokens (generateRefreshToken config user now)
               (generateToken config user now))).
Proof.
  intros Hup [_ Hfresh] Hin. unfold _generateAuthResponse, issued_to.
  unfold_statements. destruct s as [us rs seed fs].
  unfold store_up in Hup. cbn in *. subst fs. cbn.
  rewrite (existsb_false_fresh _ _ Hfresh), (existsb_user_in _ _ Hin).
  reflexivity.
Qed.


End Login.

(** ** Refresh, forwards *)

Section RefreshForwards.
Context {P : Platform} (config : Config).

Lemma refresh_verified_unfold (token : string) (now : timestamp) :
  verifies config token now ->
  refresh config token now
  = (found <- db.select_refreshTokens (live_with (hashToken token)) 1 ;;
     match found with
     | [] => throw RefreshReuseOrInvalid
     | storedRefreshToken :: _ =>
         if now >? refreshTokens.expiresAt storedRefreshToken then
           db.delete_refreshTokens (has_id (refreshTokens.id storedRefreshToken)) ;;;
           throw RefreshExpired
         else
           db.delete_refreshTokens (has_id (refreshTokens.id storedRefreshToken)) ;;;
           users_found <- db.select_users
             (fun u => Nat.eqb (users.id u)
                         (refreshTokens.userId storedRefreshToken)) 1 ;;
           match users_found with
           | [] => throw NotFound
           | user :: _ =>
               _generateAuthResponse config user
                 (Js.or_opt (refreshTokens.device storedRefreshToken) "Unknown")
                 now
           end
     end).
Proof.
  intros (Hne & decodedToken & Hverify & Htruthy).
  unfold refresh, Js.truthy.
  destruct (String.eqb_spec token "") as [->|_]; [now elim Hne|].
  cbn [negb]. rewrite Hverify, Htruthy. reflexivity.
Qed.

Lemma refresh_no_live_row (token : string) (now : timestamp) (s : Store) :
  verifies config token now ->
  store_up s ->
  filter (live_with (hashToken token)) (refreshTokens_rows s) = [] ->
  refresh config token now s = (s, Throw RefreshReuseOrInvalid).
Proof.
  intros Hv Hup Hnone. rewrite (refresh_verified_unfold _ _ Hv).
  unfold db.select_refreshTokens, bind. rewrite (roundtrip_up s Hup).
  rewrite Hnone. reflexivity.
Qed.

End RefreshForwards.

Lemma filter_nil_iff {A} (p : A -> bool) (l : list A) :
  (forall a, In a l -> p a = false) -> filter p l = [].
Proof.
  induction l as [|a l IH]; intros H; [reflexivity|]. cbn.
  rewrite (H a (or_introl eq_refl)). apply IH. intros b Hb. apply H. now right.
Qed.

(** Once the row of identifier [i] is deleted, no live row of fingerprint
    [h] is left, provided the live rows of that fingerprint all had
    identifier [i]. *)
Lemma no_live_row_after_consume (h : string) (i : uuid)
  (rows : list refreshTokens.row) :
  (forall r, In r rows -> live_with h r = true -> refreshTokens.id r = i) ->
  filter (live_with h) (filter (fun r => negb (has_id i r)) rows) = [].
Proof.
  intros Honly. apply filter_nil_iff. intros r Hin.
  apply filter_In in Hin. destruct Hin as [Hin Hkept].
  destruct (live_with h r) eqn:Hlive; [|reflexivity].
  unfold has_id in Hkept. rewrite (Honly r Hin Hlive) in Hkept.
  rewrite Nat.eqb_refl in Hkept. discriminate Hkept.
Qed.

Lemma filter_app_single {A} (p : A -> bool) (l : list A) (a : A) :
  p a = false -> filter p (l ++ [a]) = filter p l.
Proof.
  intros Ha. rewrite filter_app. cbn. rewrite Ha. apply app_nil_r.
Qed.

Section RefreshClaims.
Context {P : Platform} (config : Config).

(** An expired record is deleted and reported. *)
Lemma refresh_expired_row (token : string) (now : timestamp) (s : Store)
  (stored : refreshTokens.row) :
  verifies config token now ->
  store_up s ->
  hd_error (filter (live_with (hashToken token)) (refreshTokens_rows s))
  = Some stored ->
  now > refreshTokens.expiresAt stored ->
  refresh config token now s
  = (consumed (refreshTokens.id stored) s (faults s), Throw RefreshExpired).
Proof.
  intros Hv Hup Hfind Hexp. rewrite (refresh_verified_unfold config _ _ Hv).
  unfold db.select_refreshTokens, db.delete_refreshTokens, bind.
  rewrite (roundtrip_up s Hup), firstn_1_hd, Hfind.
  apply Z.gt_lt, Z.ltb_lt in Hexp. rewrite Z.gtb_ltb, Hexp.
  rewrite (roundtrip_up s Hup). reflexivity.
Qed.

(** C2, as amended: for a token that passes verification, whose first live
    ledger record has [expiresAt] in the past, [refresh] fails with
    [RefreshExpired] and deletes that record; and when no other live record
    carries the fingerprint, a later [refresh] of the token, still passing
    verification, fails with [RefreshReuseOrInvalid]. *)
Theorem refresh_expired_then_invalid
  (token : string) (now now' : timestamp) (s : Store)
  (stored : refreshTokens.row) :
  verifies config token now ->
  store_up s ->
  hd_error (filter (live_with (hashToken token)) (refreshTokens_rows s))
  = Some stored ->
  now > refreshTokens.expiresAt stored ->
  let s' := consumed (refreshTokens.id stored) s (faults s) in
  refresh config token now s = (s', Throw RefreshExpired) /\
  (forall r, In r (refreshTokens_rows s') ->
             refreshTokens.id r <> refreshTokens.id stored) /\
  (at_most_one_live (hashToken token) s ->
   verifies config token now' ->
   refresh config token now' s' = (s', Throw RefreshReuseOrInvalid)).
Proof.
  intros Hv Hup Hfind Hexp s'. split; [|split].
  - apply refresh_expired_row; assumption.
  - intros r Hin. cbn in Hin. apply filter_In in Hin. destruct Hin as [_ Hkept].
    unfold has_id in Hkept. intros Heq. rewrite Heq, Nat.eqb_refl in Hkept.
    discriminate Hkept.
  - intros Hone Hv'. apply refresh_no_live_row; [exact Hv'|exact Hup|].
    cbn. apply no_live_row_after_consume. intros r Hin Hlive.
    apply hd_error_filter_In in Hfind. destruct Hfind as [Hin' Hlive'].
    exact (Hone r stored Hin Hin' Hlive Hlive').
Qed.

(** Where the second use is refused: after a [refresh] of a token
    succeeded, a second [refresh] of the same token, made while the token
    still passes verification and the store is up, fails with
    [RefreshReuseOrInvalid] when the ledger held at most one live record of
    the token's fingerprint and the refresh token handed out by the first
    call has another fingerprint.  Neither holds of every token the service
    issues. *)
Lemma refresh_single_use
  (token : string) (now now' : timestamp) (s s1 : Store) (pair : TokenResponse) :
  refresh config token now s = (s1, Return pair) ->
  at_most_one_live (hashToken token) s ->
  hashToken (refreshToken pair) <> hashToken token ->
  verifies config token now' ->
  store_up s1 ->
  refresh config token now' s1 = (s1, Throw RefreshReuseOrInvalid).
Proof.
  intros Hfirst Hone Hother Hv' Hup.
  apply refresh_returns in Hfirst.
  destruct Hfirst as (_ & stored & user & rest & Hfind & _ & _ & Htail).
  apply _generateAuthResponse_returns in Htail.
  destruct Htail as (-> & Hrows & _ & _).
  apply refresh_no_live_row; [exact Hv'|exact Hup|].
  rewrite Hrows. cbn [consumed refreshTokens_rows].
  rewrite filter_app_single.
  - apply no_live_row_after_consume. intros r Hin Hlive.
    apply hd_error_filter_In in Hfind. destruct Hfind as [Hin' Hlive'].
    exact (Hone r stored Hin Hin' Hlive Hlive').
  - unfold live_with. cbn.
    destruct (String.eqb_spec (hashToken (generateRefreshToken config user now))
                (hashToken token)) as [Heq|_]; [|reflexivity].
    now elim Hother.
Qed.

(** The device of the record a successful [refresh] stores. *)
Lemma refresh_replacement_record
  (token : string) (now : timestamp) (s s' : Store) (pair : TokenResponse) :
  refresh config token now s = (s', Return pair) ->
  exists stored front replacement,
    hd_error (filter (live_with (hashToken token)) (refreshTokens_rows s))
    = Some stored /\
    refreshTokens_rows s' = (front ++ [replacement])%list /\
    refreshTokens.tokenHash replacement = hashToken (refreshToken pair) /\
    refreshTokens.device replacement
    = Some (Js.or (Js.or_opt (refreshTokens.device stored) "Unknown")
              "Unknown Device").
Proof.
  intros H. apply refresh_returns in H.
  destruct H as (_ & stored & user & rest & Hfind & _ & _ & Htail).
  apply _generateAuthResponse_returns in Htail.
  destruct Htail as (-> & Hrows & _ & _).
  eexists stored, _, _. split; [exact Hfind|]. split; [exact Hrows|].
  split; reflexivity.
Qed.

(** On a ledger row without a device label ([null] or empty), which no call
    of the services writes, the default of [refresh] would come first: the
    record that replaces the row is labelled ["Unknown"], and the default
    of issuance, ["Unknown Device"], is not reached. *)
Lemma refresh_absent_device_is_Unknown
  (token : string) (now : timestamp) (s s' : Store) (pair : TokenResponse)
  (stored : refreshTokens.row) :
  refresh config token now s = (s', Return pair) ->
  hd_error (filter (live_with (hashToken token)) (refreshTokens_rows s))
  = Some stored ->
  Js.truthy_opt (refreshTokens.device stored) = false ->
  exists front replacement,
    refreshTokens_rows s' = (front ++ [replacement])%list /\
    refreshTokens.tokenHash replacement = hashToken (refreshToken pair) /\
    refreshTokens.device replacement = Some "Unknown" /\
    refreshTokens.device replacement <> Some "Unknown Device".
Proof.
  intros H Hfind Habsent.
  destruct (refresh_replacement_record _ _ _ _ _ H)
    as (stored' & front & replacement & Hfind' & Hrows & Hhash & Hdevice).
  rewrite Hfind in Hfind'. injection Hfind' as <-.
  exists front, replacement. split; [exact Hrows|]. split; [exact Hhash|].
  assert (Hlabel : refreshTokens.device replacement = Some "Unknown").
  { rewrite Hdevice. destruct (refreshTokens.device stored) as [d|]; [|reflexivity].
    cbn in Habsent. unfold Js.or_opt, Js.or at 2. rewrite Habsent. reflexivity. }
  split; [exact Hlabel|]. rewrite Hlabel. discriminate.
Qed.

(** A device label that is present is carried over to the replacement. *)
Lemma refresh_reuses_device
  (token : string) (now : timestamp) (s s' : Store) (pair : TokenResponse)
  (stored : refreshTokens.row) (label : string) :
  refresh config token now s = (s', Return pair) ->
  hd_error (filter (live_with (hashToken token)) (refreshTokens_rows s))
  = Some stored ->
  refreshTokens.device stored = Some label -> label <> "" ->
  exists front replacement,
    refreshTokens_rows s' = (front ++ [replacement])%list /\
    refreshTokens.device replacement = Some label.
Proof.
  intros H Hfind Hlabel Hne.
  destruct (refresh_replacement_record _ _ _ _ _ H)
    as (stored' & front & replacement & Hfind' & Hrows & _ & Hdevice).
  rewrite Hfind in Hfind'. injection Hfind' as <-.
  exists front, replacement. split; [exact Hrows|].
  rewrite Hdevice, Hlabel. unfold Js.or_opt, Js.or, Js.truthy.
  destruct (String.eqb_spec label "") as [->|_]; [now elim Hne|].
  cbn [negb]. destruct (String.eqb_spec label "") as [->|_]; [now elim Hne|].
  reflexivity.
Qed.

End RefreshClaims.

Section ConsumeFirst.
Context {P : Platform} (config : Config).

(** What holds of the consume step: once [refresh] has reached its delete
    statement (the token passed
    verification, the select and the delete were answered, the record found
    had not expired), the record is gone whatever happens next.  When no
    identity has the record's [userId], the call throws [NotFound]; when the
    store fails the insert of the new record, the call throws the database
    error; in both cases the ledger is the one before the call without the
    record's row, and no pair is returned.  In every outcome of the call no
    row of the ledger bears the identifier of the consumed record.  And on
    the store such a failed call leaves, once it is up again, the token is
    refused as [RefreshReuseOrInvalid] as long as it verifies, when the
    record was the one live row of its fingerprint. *)
Lemma refresh_consumes_before_issuing
  (token : string) (now : timestamp) (s : Store) (stored : refreshTokens.row) :
  verifies config token now ->
  hd_error (filter (live_with (hashToken token)) (refreshTokens_rows s))
  = Some stored ->
  now <= refreshTokens.expiresAt stored ->
  fault_at 0 s = false ->
  fault_at 1 s = false ->
  (findById s (refreshTokens.userId stored) = None ->
   fault_at 2 s = false ->
   refresh config token now s
   = (consumed (refreshTokens.id stored) s (skipn 3 (faults s)),
      Throw NotFound)) /\
  (forall user,
      findById s (refreshTokens.userId stored) = Some user ->
      fault_at 2 s = false ->
      fault_at 3 s = true ->
      refresh config token now s
      = (consumed (refreshTokens.id stored) s (skipn 4 (faults s)),
         Throw (DatabaseError db.connection_failure))) /\
  (fresh_uuids s ->
   forall r, In r (refreshTokens_rows (fst (refresh config token now s))) ->
             refreshTokens.id r <> refreshTokens.id stored) /\
  (forall now',
      at_most_one_live (hashToken token) s ->
      verifies config token now' ->
      refresh config token now' (consumed (refreshTokens.id stored) s [])
      = (consumed (refreshTokens.id stored) s [], Throw RefreshReuseOrInvalid)).
Proof.
  intros Hv Hfind Hexp Hf0 Hf1.
  assert (Hlater : forall now',
             at_most_one_live (hashToken token) s ->
             verifies config token now' ->
             refresh config token now' (consumed (refreshTokens.id stored) s [])
             = (consumed (refreshTokens.id stored) s [],
                Throw RefreshReuseOrInvalid)).
  { intros now' Hone Hv'. apply refresh_no_live_row; [exact Hv'|reflexivity|].
    cbn. apply no_live_row_after_consume. intros r Hin Hlive.
    destruct (hd_error_filter_In _ _ _ Hfind) as [Hin' Hlive'].
    exact (Hone r stored Hin Hin' Hlive Hlive'). }
  match goal with
  | |- ?A /\ ?B /\ ?C /\ _ =>
      enough (Hthree : A /\ B /\ C)
        by (destruct Hthree as (Ha & Hb & Hc); auto)
  end.
  clear Hlater.
  rewrite (refresh_verified_unfold config _ _ Hv).
  apply Z.le_ge, Z.ge_le_iff, Z.ltb_ge in Hexp. rewrite <- Z.gtb_ltb in Hexp.
  unfold fault_at, findById in *. destruct s as [us rs seed fs].
  cbn [faults users_rows refreshTokens_rows uuid_seed] in *.
  split; [|split].
  - intros Hnone Hf2. unfold_statements.
    destruct fs as [|b0 [|b1 [|b2 fs]]]; cbn in Hf0, Hf1, Hf2; subst;
      cbn -[firstn]; rewrite firstn_1_hd, Hfind; cbn -[firstn]; rewrite Hexp;
      cbn -[firstn]; rewrite firstn_1_hd, Hnone; reflexivity.
  - intros user Huser Hf2 Hf3. unfold_statements.
    unfold _generateAuthResponse. unfold_statements.
    destruct fs as [|b0 [|b1 [|b2 [|b3 fs]]]]; cbn in Hf0, Hf1, Hf2, Hf3;
      try discriminate Hf3; subst;
      cbn -[firstn]; rewrite firstn_1_hd, Hfind; cbn -[firstn]; rewrite Hexp;
      cbn -[firstn]; rewrite firstn_1_hd, Huser; reflexivity.
  - intros [_ Hfresh] r.
    assert (Hkept : forall x,
               In x (filter (fun r0 => negb (has_id (refreshTokens.id stored) r0)) rs) ->
               refreshTokens.id x <> refreshTokens.id stored).
    { intros x Hin Heq. apply filter_In in Hin. destruct Hin as [_ Hk].
      unfold has_id in Hk. rewrite Heq, Nat.eqb_refl in Hk. discriminate Hk. }
    assert (Hstored : (refreshTokens.id stored < seed)%nat).
    { apply Hfresh. apply hd_error_filter_In in Hfind. exact (proj1 Hfind). }
    unfold_statements. unfold _generateAuthResponse. unfold_statements.
    destruct fs as [|b0 [|b1 fs]]; cbn in Hf0, Hf1; subst;
      cbn -[firstn]; rewrite firstn_1_hd, Hfind; cbn -[firstn]; rewrite Hexp;
      cbn -[firstn].
    all: repeat match goal with
           | |- context [match ?x with _ => _ end] => case_scrutinee x; cbn
           end.
    all: intros Hin; try (apply Hkept; exact Hin).
    all: apply in_app_or in Hin; destruct Hin as [Hin|[<-|[]]];
      [apply Hkept; exact Hin|cbn; lia].
Qed.

End ConsumeFirst.

(** ** Federated login *)

Lemma touched_nothing (user : users.row) (rows : list users.row) :
  touched user (fun u => u) rows = rows.
Proof.
  unfold touched. induction rows as [|u rows IH]; [reflexivity|].
  cbn. rewrite IH. now destruct (Nat.eqb _ _).
Qed.

Lemma touched_twice (user : users.row) (f g : users.row -> users.row)
  (rows : list users.row) :
  (forall u, users.id (f u) = users.id u) ->
  touched user g (touched user f rows) = touched user (fun u => g (f u)) rows.
Proof.
  intros Hid. unfold touched. rewrite map_map. apply map_ext. intros u.
  destruct (Nat.eqb (users.id u) (users.id user)) eqn:Hu.
  - now rewrite Hid, Hu.
  - now rewrite Hu.
Qed.

Section Federation.
Context {P : Platform} (config : Config).

(** The whole call, linking step and issuance: a federated login whose
    verified email is that of an existing identity rewrites only the rows of
    that identity, and of those only [googleId], [authProvider] and
    [lastLoginAt], which issuance stamps at every login: the password hash
    and every other field stay.  If the identity is linked already, its
    [googleId] and [authProvider] stay as well.  When the call returns a
    pair, [lastLoginAt] is the time of the call, and an identity that was
    not linked now has the subject id of the ticket and provider
    ["google"]. *)
Lemma loginWithGoogle_frame
  (idToken device : string) (now : timestamp) (s : Store)
  (payload : GooglePayload) (email : string) (user : users.row) :
  verifyIdToken idToken (GOOGLE_CLIENT_ID config) = Some (Some payload) ->
  g_email payload = Some email ->
  findByEmail s email = Some user ->
  exists touch,
    users_rows (fst (loginWithGoogle config idToken device now s))
    = touched user touch (users_rows s) /\
    (forall u, same_identity u (touch u)) /\
    (Js.truthy_opt (users.googleId user) = true ->
     forall u, same_link u (touch u)) /\
    (forall pair,
        snd (loginWithGoogle config idToken device now s) = Return pair ->
        (forall u, users.lastLoginAt (touch u) = now) /\
        (Js.truthy_opt (users.googleId user) = false ->
         forall u, users.googleId (touch u) = Some (g_sub payload) /\
                   users.authProvider (touch u) = Some "google")).
Proof.
  intros Hticket Hemail Hfind.
  destruct (loginWithGoogle config idToken device now s) as [s' o] eqn:H.
  cbn [fst snd]. unfold loginWithGoogle in H. rewrite Hticket, Hemail in H.
  unfold resolveGoogleUser, _generateAuthResponse, findByEmail in *.
  unfold_statements. destruct s as [us rs seed fs].
  cbn [users_rows] in *.
  destruct (filter (fun u => (users.email u =? email)%string) us)
    as [|found others] eqn:Hfilter; [discriminate Hfind|].
  cbn in Hfind. injection Hfind as ->.
  cbn -[firstn] in H. 
  repeat (lazymatch type of H with
          | context [match ?x with _ => _ end] => case_scrutinee x
          end;
          cbn -[firstn] in *; rewrite ?Hfilter in *; cbn in *; try discriminate; try congruence).
  all: injection H as <- <-.
  all: cbn [users_rows].
  all: lazymatch goal with
       | |- exists _, map _ (map _ _) = _ /\ _ =>
           exists (fun u => users.set_lastLoginAt now
                              (users.set_google (g_sub payload) "google" u));
           split; [apply (touched_twice user); reflexivity|]
       | |- exists _, map (fun u => if _ then users.set_google _ _ u else u) _ = _ /\ _ =>
           exists (users.set_google (g_sub payload) "google");
           split; [reflexivity|]
       | |- exists _, map _ _ = _ /\ _ =>
           exists (users.set_lastLoginAt now); split; [reflexivity|]
       | |- exists _, _ = _ /\ _ =>
           exists (fun u => u); split; [symmetry; apply touched_nothing|]
       end.
  all: split; [intros u; repeat split|].
  all: split; [intros Hlinked u; try (split; reflexivity)
              |intros pair Hpair; try discriminate Hpair].
  all: try match goal with
           | Hl : Js.truthy_opt _ = true, Hb : negb (Js.truthy_opt _) = true |- _ =>
               rewrite Hl in Hb; discriminate Hb
           end.
  all: split; [reflexivity|intros Hunlinked u; try (split; reflexivity)].
  all: match goal with
       | Hl : Js.truthy_opt _ = false, Hb : negb (Js.truthy_opt _) = false |- _ =>
           rewrite Hl in Hb; discriminate Hb
       end.
Qed.

(** C6: a federated login whose ticket Google verified, with the email of
    an existing identity, is the linking step followed by issuance.  If the
    identity has a [googleId], the linking step writes nothing, whatever the
    state of the database, and with the database up it hands on the
    identity as found.  If it has none, the step sends one update, for the
    rows of that identity: the tables are as before, or the table of
    identities is the one where [googleId] and [authProvider] of the
    identity are the subject id of the ticket and ["google"], which it is
    when the database is up.  That update leaves every other field of the
    identity, its password hash among them, as it was. *)
Theorem resolveGoogleUser_links
  (idToken device : string) (payload : GooglePayload) (email : string)
  (now : timestamp) (s : Store) (user : users.row) :
  verifyIdToken idToken (GOOGLE_CLIENT_ID config) = Some (Some payload) ->
  g_email payload = Some email ->
  email <> "" ->
  findByEmail s email = Some user ->
  let link := users.set_google (g_sub payload) "google" in
  let step := resolveGoogleUser payload email now in
  loginWithGoogle config idToken device now s
  = (linked <- step ;; _generateAuthResponse config linked device now) s /\
  (Js.truthy_opt (users.googleId user) = true ->
   users_rows (fst (step s)) = users_rows s /\
   refreshTokens_rows (fst (step s)) = refreshTokens_rows s /\
   (store_up s -> step s = (s, Return user))) /\
  (Js.truthy_opt (users.googleId user) = false ->
   (users_rows (fst (step s)) = users_rows s \/
    users_rows (fst (step s)) = touched user link (users_rows s)) /\
   refreshTokens_rows (fst (step s)) = refreshTokens_rows s /\
   (store_up s ->
    step s
    = (mkStore (touched user link (users_rows s)) (refreshTokens_rows s)
         (uuid_seed s) (faults s),
       Return user))) /\
  (forall u,
      users.googleId (link u) = Some (g_sub payload) /\
      users.authProvider (link u) = Some "google" /\
      users.password (link u) = users.password u /\
      link_apart u (link u)).
Proof.
  intros Hticket Hemail Hne Hfind link step.
  split; [|split; [|split]].
  - unfold loginWithGoogle. rewrite Hticket, Hemail. unfold Js.truthy.
    destruct (String.eqb_spec email "") as [->|_]; [now elim Hne|reflexivity].
  - intros Hlinked. unfold step, resolveGoogleUser, findByEmail in *.
    unfold db.select_users, db.roundtrip, bind, ret.
    destruct s as [us rs seed fs]. cbn [users_rows faults] in *.
    destruct (filter (fun u => (users.email u =? email)%string) us)
      as [|found others] eqn:Hfilter; [discriminate Hfind|].
    cbn in Hfind. injection Hfind as ->.
    destruct fs as [|[|] fs]; cbn -[firstn]; rewrite ?firstn_1_hd, ?Hfilter;
      cbn; rewrite ?Hlinked; cbn; repeat split; try reflexivity;
      intros Hup; discriminate Hup.
  - intros Hunlinked. unfold step, resolveGoogleUser, findByEmail in *.
    unfold db.select_users, db.update_users, db.roundtrip, bind, ret.
    destruct s as [us rs seed fs]. cbn [users_rows faults] in *.
    destruct (filter (fun u => (users.email u =? email)%string) us)
      as [|found others] eqn:Hfilter; [discriminate Hfind|].
    cbn in Hfind. injection Hfind as ->.
    destruct fs as [|[|] [|[|] fs]]; cbn -[firstn]; rewrite ?firstn_1_hd, ?Hfilter;
      cbn; rewrite ?Hunlinked; cbn; repeat split; auto;
      intros Hup; discriminate Hup.
  - intros u. repeat split.
Qed.

End Federation.

(** ** The expiry of a token and the expiry of its record *)

Section ExpiryOrder.
Context {P : Platform} (config : Config).

(** jsonwebtoken refuses a token it signed once the clock has reached
    [iat + expiresIn]. *)
Hypothesis jwt_verify_expired :
  forall payload secret iat expiresIn clock,
    clock >= iat + expiresIn ->
    jwt_verify (jwt_sign payload secret iat expiresIn) secret clock
    = inl TokenExpiredError.

(** The record [_generateAuthResponse] stores at [issued] expires at
    [issued + SEVEN_DAYS_MS]; by then the refresh token it stands for no
    longer verifies. *)
Lemma issued_token_expires_before_its_record
  (user : users.row) (issued now : timestamp) :
  now > issued + SEVEN_DAYS_MS ->
  verifyToken config (generateRefreshToken config user issued) now
  = inl TokenExpiredError.
Proof.
  intros Hlate. unfold verifyToken, generateRefreshToken.
  apply jwt_verify_expired. unfold seconds, REFRESH_EXPIRES_IN, SEVEN_DAYS_MS in *.
  assert (H : (issued + 7 * 24 * 60 * 60 * 1000) / 1000 <= now / 1000)
    by (apply Z.div_le_mono; lia).
  replace (issued + 7 * 24 * 60 * 60 * 1000)
    with (issued + (7 * 24 * 60 * 60) * 1000) in H by lia.
  rewrite Z.div_add in H by lia. lia.
Qed.

(** So a [refresh] of an issued token after the expiry of its record stops
    at [jwt.verify] and leaves the store alone. *)
Lemma refresh_of_issued_token_after_expiry
  (user : users.row) (issued now : timestamp) (s : Store) :
  generateRefreshToken config user issued <> "" ->
  now > issued + SEVEN_DAYS_MS ->
  refresh config (generateRefreshToken config user issued) now s
  = (s, Throw (JwtThrown TokenExpiredError)).
Proof.
  intros Hne Hlate.
  apply (refresh_stops_at_verify config _ now s TokenExpiredError Hne).
  apply issued_token_expires_before_its_record. exact Hlate.
Qed.

End ExpiryOrder.

(** ** The theorems at work on the scenario *)

(** [P1], refreshed in the second after its issue and then presented
    again, is refused. *)
Lemma refresh_single_use_witness :
  @refresh Toy.platform Toy.config Scenario.P1 2600 Scenario.refreshed_next_second
  = (Scenario.refreshed_next_second, Throw RefreshReuseOrInvalid).
Proof.
  apply (@refresh_single_use Toy.platform Toy.config Scenario.P1 2500 2600
           Scenario.registered Scenario.refreshed_next_second Scenario.P2).
  - reflexivity.
  - intros r r' [<-|[]] [<-|[]] _ _. reflexivity.
  - cbn. discriminate.
  - split; [discriminate|]. eexists. split; reflexivity.
  - reflexivity.
Defined.

(** C1: a refresh token is not single-use when it is signed twice within a
    second.  [P1], issued by the registration at 1000 ms, is refreshed at
    1500 ms.  The call deletes the record of [P1], succeeds and hands out
    [P1] again: [jwt.sign] has the same claims and the same [iat], counted
    in seconds, and nothing else to tell the two tokens apart.  The record
    stored for the new token has the fingerprint of [P1], and the second
    [refresh] of [P1], at 1600 ms, returns a pair where
    [RefreshReuseOrInvalid] is due.  Likewise after a [login] in the second
    of the registration, which returns [P1] once more and stores a second
    row of its fingerprint: [P1] is then refreshed twice, in later
    seconds. *)
Theorem refresh_twice_within_a_second :
  (snd (@register Toy.platform Toy.config Scenario.registration 1000 Toy.empty)
   = Return (mkTokens Scenario.P1 "access-secret|1|1|901|a@x.com") /\
   @refresh Toy.platform Toy.config Scenario.P1 1500 Scenario.registered
   = (Scenario.refreshed_same_second,
      Return (mkTokens Scenario.P1 "access-secret|1|1|901|a@x.com")) /\
   snd (@refresh Toy.platform Toy.config Scenario.P1 1600
          Scenario.refreshed_same_second)
   = Return (mkTokens Scenario.P1 "access-secret|1|1|901|a@x.com") /\
   snd (@refresh Toy.platform Toy.config Scenario.P1 1600
          Scenario.refreshed_same_second)
   <> Throw RefreshReuseOrInvalid) /\
  (@login Toy.platform Toy.config (mkLogin "a@x.com" "pw123456" "deviceY") 1700
     Scenario.registered
   = (Scenario.logged_in_same_second,
      Return (mkTokens Scenario.P1 "access-secret|1|1|901|a@x.com")) /\
   snd (@refresh Toy.platform Toy.config Scenario.P1 2500
          Scenario.logged_in_same_second)
   = Return Scenario.P2 /\
   snd (@refresh Toy.platform Toy.config Scenario.P1 3500
          (fst (@refresh Toy.platform Toy.config Scenario.P1 2500
                  Scenario.logged_in_same_second)))
   = Return (mkTokens "refresh-secret|1|3|604803|a@x.com"
               "access-secret|1|3|903|a@x.com")).
Proof.
  repeat split. vm_compute. discriminate.
Qed.

(** A consumed token presented after its seven days is not told
    [RefreshReuseOrInvalid] either: [jwt.verify] throws first. *)
Example refresh_of_consumed_token_after_expiry :
  @refresh Toy.platform Toy.config Scenario.P1 604801000
    Scenario.refreshed_next_second
  = (Scenario.refreshed_next_second, Throw (JwtThrown TokenExpiredError)).
Proof. reflexivity. Qed.

(** C2, witness: the ledger row of [P1] with its expiry brought forward. *)
Lemma refresh_expired_then_invalid_witness :
  let s' := consumed 2%nat Scenario.shortened [] in
  @refresh Toy.platform Toy.config Scenario.P1 1500 Scenario.shortened
  = (s', Throw RefreshExpired) /\
  (forall r, In r (refreshTokens_rows s') -> refreshTokens.id r <> 2%nat) /\
  (at_most_one_live (@hashToken Toy.platform Scenario.P1) Scenario.shortened ->
   @verifies Toy.platform Toy.config Scenario.P1 1600 ->
   @refresh Toy.platform Toy.config Scenario.P1 1600 s'
   = (s', Throw RefreshReuseOrInvalid)).
Proof.
  apply (@refresh_expired_then_invalid Toy.platform Toy.config Scenario.P1
           1500 1600 Scenario.shortened
           (Scenario.record_of_P1 (Some "deviceX") 1200)).
  - split; [discriminate|]. eexists. split; reflexivity.
  - reflexivity.
  - reflexivity.
  - reflexivity.
Defined.

(** C2, counterexample: one millisecond after the expiry of its ledger
    record, [P1] is refused by [jwt.verify], whose own expiry is not later:
    the call throws [TokenExpiredError], not [RefreshExpired], and the
    expired record stays in the ledger.  And where two expired rows carry
    the fingerprint of a token that verifies, the second [refresh] is told
    [RefreshExpired] again. *)
Lemma refresh_after_expiry_is_not_RefreshExpired :
  (hd_error (filter (live_with (@hashToken Toy.platform Scenario.P1))
               (refreshTokens_rows Scenario.registered))
   = Some (Scenario.record_of_P1 (Some "deviceX") 604801000) /\
   604801001 > refreshTokens.expiresAt (Scenario.record_of_P1 (Some "deviceX") 604801000) /\
   @refresh Toy.platform Toy.config Scenario.P1 604801001 Scenario.registered
   = (Scenario.registered, Throw (JwtThrown TokenExpiredError)) /\
   snd (@refresh Toy.platform Toy.config Scenario.P1 604801001 Scenario.registered)
   <> Throw RefreshExpired) /\
  (snd (@refresh Toy.platform Toy.config Scenario.P1 1500 Scenario.shortened_twice)
   = Throw RefreshExpired /\
   snd (@refresh Toy.platform Toy.config Scenario.P1 1600
          (fst (@refresh Toy.platform Toy.config Scenario.P1 1500
                  Scenario.shortened_twice)))
   = Throw RefreshExpired).
Proof.
  repeat split. vm_compute. discriminate.
Qed.


(** Ann, registered with a password, logs in through Google: the whole
    call. *)
Lemma loginWithGoogle_frame_witness :
  exists touch,
    users_rows (fst (@loginWithGoogle Toy.platform Toy.config "id-token-of-ann"
                       "phone" 5000 Scenario.ann_local))
    = touched (Scenario.ann None "local") touch (users_rows Scenario.ann_local) /\
    (forall u, same_identity u (touch u)) /\
    (Js.truthy_opt (users.googleId (Scenario.ann None "local")) = true ->
     forall u, same_link u (touch u)) /\
    (forall pair,
        snd (@loginWithGoogle Toy.platform Toy.config "id-token-of-ann"
               "phone" 5000 Scenario.ann_local) = Return pair ->
        (forall u, users.lastLoginAt (touch u) = 5000) /\
        (Js.truthy_opt (users.googleId (Scenario.ann None "local")) = false ->
         forall u, users.googleId (touch u) = Some "sub-ann" /\
                   users.authProvider (touch u) = Some "google")).
Proof.
  apply (@loginWithGoogle_frame Toy.platform Toy.config "id-token-of-ann"
           "phone" 5000 Scenario.ann_local
           (mkGoogle (Some "ann@x.com") (Some "Ann") "sub-ann" None)
           "ann@x.com" (Scenario.ann None "local")).
  - reflexivity.
  - reflexivity.
  - reflexivity.
Defined.

(** What the two federated logins of the scenario leave in [users]. *)
Example loginWithGoogle_links_ann :
  users_rows (fst (@loginWithGoogle Toy.platform Toy.config "id-token-of-ann"
                     "phone" 5000 Scenario.ann_local))
  = [users.mk 1%nat "ann@x.com" "Ann" (Some "bcrypt:pw") (Some "sub-ann")
       (Some "google") None 5000 0 0].
Proof. reflexivity. Qed.

(** Ann is linked already, with [lastLoginAt] 0; the linking step of her
    federated login at 5000 ms leaves her row alone, and issuance, the step
    after it, stamps [lastLoginAt] as it does at every login. *)
Example loginWithGoogle_stamps_lastLoginAt :
  users_rows (fst (resolveGoogleUser
                     (mkGoogle (Some "ann@x.com") (Some "Ann") "sub-ann" None)
                     "ann@x.com" 5000 Scenario.ann_linked))
  = users_rows Scenario.ann_linked /\
  users_rows (fst (@loginWithGoogle Toy.platform Toy.config "id-token-of-ann"
                     "phone" 5000 Scenario.ann_linked))
  = [users.set_lastLoginAt 5000 (Scenario.ann (Some "sub-ann") "google")].
Proof. split; reflexivity. Qed.

(** C6, witness: Ann, registered with a password and not linked, comes in
    through Google. *)
Lemma resolveGoogleUser_links_witness :
  resolveGoogleUser Walkthrough.ann_payload "ann@x.com" 5000 Scenario.ann_local
  = (mkStore
       [users.mk 1%nat "ann@x.com" "Ann" (Some "bcrypt:pw") (Some "sub-ann")
          (Some "google") None 0 0 0]
       [] 2%nat [],
     Return (Scenario.ann None "local")).
Proof.
  assert (H := fun Hne =>
    @resolveGoogleUser_links Toy.platform Toy.config "id-token-of-ann" "phone"
      Walkthrough.ann_payload "ann@x.com" 5000 Scenario.ann_local
      (Scenario.ann None "local") eq_refl eq_refl Hne eq_refl).
  destruct H as (_ & _ & Hunlinked & _); [discriminate|].
  destruct Hunlinked as (_ & _ & Hrun); [reflexivity|].
  apply Hrun. reflexivity.
Defined.

(** The linking step on the two stores of Ann: she gains the federated login
    and keeps her password; linked already, her row is not written. *)
Example resolveGoogleUser_on_ann :
  let payload := mkGoogle (Some "ann@x.com") (Some "Ann") "sub-ann" None in
  users_rows (fst (resolveGoogleUser payload "ann@x.com" 5000 Scenario.ann_local))
  = [users.mk 1%nat "ann@x.com" "Ann" (Some "bcrypt:pw") (Some "sub-ann")
       (Some "google") None 0 0 0] /\
  resolveGoogleUser payload "ann@x.com" 5000 Scenario.ann_linked
  = (Scenario.ann_linked, Return (Scenario.ann (Some "sub-ann") "google")).
Proof. split; reflexivity. Qed.

(** C8, counterexample: under a configuration whose two entries hold the
    same string, registration issues a pair whose two tokens are signed
    with that one secret, and the access token passes the verification of
    refresh tokens. *)
Lemma one_secret_signs_both_tokens :
  ACCESS_SECRET Scenario.one_secret = REFRESH_SECRET Scenario.one_secret /\
  @register Toy.platform Scenario.one_secret Scenario.registration 1000 Toy.empty
  = (Scenario.one_secret_registered, Return Scenario.one_secret_pair) /\
  @issues Toy.platform Scenario.one_secret 1000 Toy.empty
    Scenario.one_secret_registered Scenario.one_secret_pair /\
  accessToken Scenario.one_secret_pair
  = Toy.sign (mkPayload 1%nat "a@x.com") "one-secret" 1 (15 * 60) /\
  refreshToken Scenario.one_secret_pair
  = Toy.sign (mkPayload 1%nat "a@x.com") "one-secret" 1 (7 * 24 * 60 * 60) /\
  @verifyToken Toy.platform Scenario.one_secret
    (accessToken Scenario.one_secret_pair) 1000
  = inr (DecodedObject (mkPayload 1%nat "a@x.com")).
Proof.
  repeat split.
  apply (issued_by_register Scenario.one_secret 1000 Toy.empty
           Scenario.one_secret_registered Scenario.one_secret_pair
           Scenario.registration).
  reflexivity.
Qed.

(** C8, witness: the pair that registration issued. *)
Lemma issued_pair_secrets_and_lifetimes_witness :
  exists (user : users.row) (earlier : list refreshTokens.row)
         (record : refreshTokens.row),
    "access-secret|1|1|901|a@x.com"
    = Toy.sign (mkPayload (users.id user) (users.email user))
        "access-secret" (1000 / 1000) (15 * 60) /\
    Scenario.P1
    = Toy.sign (mkPayload (users.id user) (users.email user))
        "refresh-secret" (1000 / 1000) (7 * 24 * 60 * 60) /\
    refreshTokens_rows Scenario.registered = (earlier ++ [record])%list /\
    refreshTokens.userId record = users.id user /\
    refreshTokens.tokenHash record = ("sha256:" ++ Scenario.P1)%string /\
    refreshTokens.expiresAt record = 1000 + 7 * 24 * 60 * 60 * 1000 /\
    refreshTokens.revoked record = false.
Proof.
  apply (@issued_pair_secrets_and_lifetimes Toy.platform Toy.config 1000
           Toy.empty Scenario.registered
           (mkTokens Scenario.P1 "access-secret|1|1|901|a@x.com")).
  apply (issued_by_register Toy.config 1000 Toy.empty Scenario.registered _
           Scenario.registration).
  reflexivity.
Defined.

(** The ledger row of [P1], its device label taken out by hand. *)
Lemma refresh_absent_device_is_Unknown_witness :
  exists front replacement,
    refreshTokens_rows
      (fst (@refresh Toy.platform Toy.config Scenario.P1 2500 Scenario.unlabelled))
    = (front ++ [replacement])%list /\
    refreshTokens.tokenHash replacement
    = @hashToken Toy.platform (refreshToken Scenario.P2) /\
    refreshTokens.device replacement = Some "Unknown" /\
    refreshTokens.device replacement <> Some "Unknown Device".
Proof.
  apply (@refresh_absent_device_is_Unknown Toy.platform Toy.config Scenario.P1
           2500 Scenario.unlabelled _ Scenario.P2
           (Scenario.record_of_P1 None 604801000)).
  - reflexivity.
  - reflexivity.
  - reflexivity.
Defined.

(** The ledger after that call. *)
Example refresh_unlabelled_row :
  refreshTokens_rows
    (fst (@refresh Toy.platform Toy.config Scenario.P1 2500 Scenario.unlabelled))
  = [refreshTokens.mk 3%nat 1%nat "sha256:refresh-secret|1|2|604802|a@x.com"
       (Some "Unknown") 604802500 false 2500].
Proof. reflexivity. Qed.

(** The store goes down at the insert of the new record. *)
Lemma refresh_consumes_before_issuing_witness :
  @refresh Toy.platform Toy.config Scenario.P1 2500 Scenario.failing_at_insert
  = (mkStore [Scenario.a] [] 3%nat [],
     Throw (DatabaseError db.connection_failure)).
Proof.
  refine (proj1 (proj2
    (@refresh_consumes_before_issuing Toy.platform Toy.config Scenario.P1 2500
       Scenario.failing_at_insert
       (Scenario.record_of_P1 (Some "deviceX") 604801000) _ _ _ _ _))
    Scenario.a _ _ _).
  - split; [discriminate|]. eexists. split; reflexivity.
  - reflexivity.
  - discriminate.
  - reflexivity.
  - reflexivity.
  - reflexivity.
  - reflexivity.
  - reflexivity.
Defined.

(** C10: a token that a failed [refresh] consumed is not consumed for good
    when it was signed twice within a second.  [a] registers at 1000 ms and
    logs in at 1700 ms: [login] returns [P1] again and the ledger has two
    rows of its fingerprint.  The [refresh] of [P1] at 2500 ms deletes the
    first, and meets a database that is down at the insert of the new
    record: it throws, returns no pair, and the deleted row is not put
    back.  The [refresh] of [P1] at 3500 ms, the database up again, finds
    the second row and returns a pair. *)
Theorem refresh_failed_then_succeeds :
  @register Toy.platform Toy.config Scenario.registration 1000 Toy.empty
  = (Scenario.registered,
     Return (mkTokens Scenario.P1 "access-secret|1|1|901|a@x.com")) /\
  @login Toy.platform Toy.config (mkLogin "a@x.com" "pw123456" "deviceY") 1700
    Scenario.registered
  = (Scenario.logged_in_same_second,
     Return (mkTokens Scenario.P1 "access-secret|1|1|901|a@x.com")) /\
  refreshTokens_rows Scenario.logged_in_same_second
  = [Scenario.record_of_P1 (Some "deviceX") 604801000;
     refreshTokens.mk 3%nat 1%nat "sha256:refresh-secret|1|1|604801|a@x.com"
       (Some "deviceY") 604801700 false 1700] /\
  @refresh Toy.platform Toy.config Scenario.P1 2500
    Scenario.duplicated_failing_at_insert
  = (Scenario.duplicated_after_failure,
     Throw (DatabaseError db.connection_failure)) /\
  refreshTokens_rows Scenario.duplicated_after_failure
  = [refreshTokens.mk 3%nat 1%nat "sha256:refresh-secret|1|1|604801|a@x.com"
       (Some "deviceY") 604801700 false 1700] /\
  snd (@refresh Toy.platform Toy.config Scenario.P1 3500
         Scenario.duplicated_after_failure)
  = Return (mkTokens "refresh-secret|1|3|604803|a@x.com"
              "access-secret|1|3|903|a@x.com").
Proof. repeat split. Qed.

(** No identity behind the record: [NotFound], and the record is gone. *)
Example refresh_orphaned_record :
  @refresh Toy.platform Toy.config Scenario.P1 2500 Scenario.orphaned
  = (mkStore [] [] 3%nat [], Throw NotFound).
Proof. reflexivity. Qed.

(** * Beyond the claims: how the calls compose *)

(** ** Calls that go through *)

Lemma filter_filter_implied {A} (p q : A -> bool) (l : list A) :
  (forall a, In a l -> p a = true -> q a = true) ->
  filter p (filter q l) = filter p l.
Proof.
  induction l as [|a l IH]; intros H; [reflexivity|]. cbn.
  assert (IH' : filter p (filter q l) = filter p l)
    by (apply IH; intros b Hb; apply H; now right).
  destruct (q a) eqn:Hq; cbn.
  - now rewrite IH'.
  - destruct (p a) eqn:Hp; [|exact IH'].
    rewrite (H a (or_introl eq_refl) Hp) in Hq. discriminate Hq.
Qed.

Lemma filter_filter_comm {A} (p q : A -> bool) (l : list A) :
  filter p (filter q l) = filter q (filter p l).
Proof.
  induction l as [|a l IH]; [reflexivity|]. cbn.
  destruct (q a) eqn:Hq, (p a) eqn:Hp; cbn; rewrite ?Hq, ?Hp, IH; reflexivity.
Qed.

Lemma fresh_uuids_consumed (i : uuid) (s : Store) (rest : list bool) :
  fresh_uuids s -> fresh_uuids (consumed i s rest).
Proof.
  intros [Hu Hr]. split; cbn; [exact Hu|].
  intros r Hin. apply filter_In in Hin. apply Hr. exact (proj1 Hin).
Qed.

Section Forwards.
Context {P : Platform} (config : Config).

(** A login that [accepts] lets through returns the pair of the identity. *)
Lemma login_accepts (data : LoginData) (now : timestamp) (s : Store) :
  store_up s ->
  fresh_uuids s ->
  accepts s (l_email data) (l_password data) ->
  exists user,
    findByEmail s (l_email data) = Some user /\
    login config data now s
    = (issued_to config user (l_device data) now s,
       Return (mkTokens (generateRefreshToken config user now)
                 (generateToken config user now))).
Proof.
  intros Hup Hfresh (user & hash & Hfind & Hhash & Hne & Hgood).
  exists user. split; [exact Hfind|].
  unfold login, db.select_users, bind. rewrite (roundtrip_up s Hup).
  rewrite firstn_1_hd. unfold findByEmail in Hfind. rewrite Hfind. cbv iota.
  rewrite Hhash. unfold Js.truthy.
  destruct (String.eqb_spec hash "") as [->|_]; [now elim Hne|].
  cbn [negb]. rewrite Hgood. cbn [negb].
  apply _generateAuthResponse_runs; [exact Hup|exact Hfresh|].
  exact (proj1 (hd_error_filter_In _ _ _ Hfind)).
Qed.

(** A refresh of a verified token with a live, unexpired record whose owner
    is in the table returns the pair of the owner. *)
Lemma refresh_runs (token : string) (now : timestamp) (s : Store)
  (stored : refreshTokens.row) (user : users.row) :
  verifies config token now ->
  store_up s ->
  fresh_uuids s ->
  hd_error (filter (live_with (hashToken token)) (refreshTokens_rows s))
  = Some stored ->
  now <= refreshTokens.expiresAt stored ->
  findById s (refreshTokens.userId stored) = Some user ->
  refresh config token now s
  = (issued_to config user
       (Js.or_opt (refreshTokens.device stored) "Unknown") now
       (consumed (refreshTokens.id stored) s (faults s)),
     Return (mkTokens (generateRefreshToken config user now)
               (generateToken config user now))).
Proof.
  intros Hv Hup Hfresh Hfind Hexp Huser.
  rewrite (refresh_verified_unfold config _ _ Hv).
  unfold db.select_refreshTokens, db.delete_refreshTokens, db.select_users, bind.
  rewrite (roundtrip_up s Hup), firstn_1_hd, Hfind. cbv iota.
  apply Z.le_ge, Z.ge_le_iff, Z.ltb_ge in Hexp. rewrite Z.gtb_ltb, Hexp.
  rewrite (roundtrip_up s Hup).
  change (mkStore (users_rows s)
            (filter (fun r => negb (has_id (refreshTokens.id stored) r))
               (refreshTokens_rows s)) (uuid_seed s) (faults s))
    with (consumed (refreshTokens.id stored) s (faults s)).
  assert (Hup' : store_up (consumed (refreshTokens.id stored) s (faults s)))
    by exact Hup.
  rewrite (roundtrip_up _ Hup'), firstn_1_hd.
  unfold findById in Huser. cbn [consumed users_rows]. rewrite Huser.
  apply _generateAuthResponse_runs;
    [exact Hup'|apply fresh_uuids_consumed; exact Hfresh|].
  exact (proj1 (hd_error_filter_In _ _ _ Huser)).
Qed.

(** The owner of the record is not in the table. *)
Lemma refresh_owner_missing (token : string) (now : timestamp) (s : Store)
  (stored : refreshTokens.row) :
  verifies config token now ->
  store_up s ->
  hd_error (filter (live_with (hashToken token)) (refreshTokens_rows s))
  = Some stored ->
  now <= refreshTokens.expiresAt stored ->
  findById s (refreshTokens.userId stored) = None ->
  refresh config token now s
  = (consumed (refreshTokens.id stored) s (faults s), Throw NotFound).
Proof.
  intros Hv Hup Hfind Hexp Huser.
  rewrite (refresh_verified_unfold config _ _ Hv).
  unfold db.select_refreshTokens, db.delete_refreshTokens, db.select_users, bind.
  rewrite (roundtrip_up s Hup), firstn_1_hd, Hfind. cbv iota.
  apply Z.le_ge, Z.ge_le_iff, Z.ltb_ge in Hexp. rewrite Z.gtb_ltb, Hexp.
  rewrite (roundtrip_up s Hup).
  change (mkStore (users_rows s)
            (filter (fun r => negb (has_id (refreshTokens.id stored) r))
               (refreshTokens_rows s)) (uuid_seed s) (faults s))
    with (consumed (refreshTokens.id stored) s (faults s)).
  assert (Hup' : store_up (consumed (refreshTokens.id stored) s (faults s)))
    by exact Hup.
  rewrite (roundtrip_up _ Hup'), firstn_1_hd.
  unfold findById in Huser. cbn [consumed users_rows]. rewrite Huser.
  reflexivity.
Qed.

(** Either the token gets past lines 124-127, or [refresh] throws there,
    the same exception on every store, and leaves the store alone. *)
Lemma refresh_verifies_or_stops (token : string) (now : timestamp) :
  verifies config token now \/
  exists e, forall s, refresh config token now s = (s, Throw e).
Proof.
  unfold verifies, refresh, Js.truthy.
  destruct (String.eqb_spec token "") as [->|Hne]; cbn [negb].
  - right. eexists. reflexivity.
  - destruct (verifyToken config token now) as [e|decodedToken].
    + right. eexists. reflexivity.
    + destruct (decoded_truthy decodedToken) eqn:Htruthy; cbn [negb].
      * left. split; [exact Hne|]. eauto.
      * right. eexists. reflexivity.
Qed.

End Forwards.

(** ** Logout and refresh *)

Section LogoutRefresh.
Context {P : Platform} (config : Config).

(** X1: a token that was logged out is refused by [refresh] as
    [RefreshReuseOrInvalid], however many ledger rows bore its fingerprint
    and whether they were revoked or not. *)
Theorem refresh_after_logout (token : string) (now : timestamp) (s : Store) :
  store_up s ->
  verifies config token now ->
  refresh config token now (fst (logout token s))
  = (fst (logout token s), Throw RefreshReuseOrInvalid).
Proof.
  intros Hup Hv. rewrite (logout_runs token s (proj1 Hv) Hup). cbn [fst].
  apply refresh_no_live_row; [exact Hv|exact Hup|].
  cbn. apply filter_nil_iff. intros r Hin.
  apply filter_In in Hin. destruct Hin as [_ Hkept]. unfold live_with.
  destruct (refreshTokens.tokenHash r =? hashToken token)%string;
    [discriminate Hkept|reflexivity].
Qed.

(** X2: logging out one token does not change what a [refresh] of a token
    of another fingerprint returns. *)
Theorem logout_spares_other_tokens
  (token other : string) (now : timestamp) (s : Store) :
  store_up s ->
  fresh_uuids s ->
  token <> "" ->
  hashToken other <> hashToken token ->
  snd (refresh config other now (fst (logout token s)))
  = snd (refresh config other now s).
Proof.
  intros Hup Hfresh Hne Hother. rewrite (logout_runs token s Hne Hup). cbn [fst].
  assert (Hsame : filter (live_with (hashToken other))
                    (refreshTokens_rows (without_fingerprint token s))
                  = filter (live_with (hashToken other)) (refreshTokens_rows s)).
  { cbn. apply filter_filter_implied. intros r _ Hlive. unfold live_with in Hlive.
    apply andb_true_iff in Hlive. destruct Hlive as [Hhash _].
    apply String.eqb_eq in Hhash. rewrite Hhash.
    destruct (String.eqb_spec (hashToken other) (hashToken token)) as [Heq|_];
      [now elim Hother|reflexivity]. }
  assert (Hup' : store_up (without_fingerprint token s)) by exact Hup.
  assert (Hfresh' : fresh_uuids (without_fingerprint token s)).
  { destruct Hfresh as [Hu Hr]. split; cbn; [exact Hu|].
    intros r Hin. apply filter_In in Hin. apply Hr. exact (proj1 Hin). }
  destruct (refresh_verifies_or_stops config other now) as [Hv|[e Hstop]];
    [|now rewrite !Hstop].
  destruct (hd_error (filter (live_with (hashToken other)) (refreshTokens_rows s)))
    as [stored|] eqn:Hfind.
  - pose proof Hfind as Hfind'. rewrite <- Hsame in Hfind'.
    destruct (Z.leb_spec now (refreshTokens.expiresAt stored)) as [Hle|Hgt].
    + destruct (findById s (refreshTokens.userId stored)) as [user|] eqn:Huser.
      * rewrite (refresh_runs config other now s stored user
                   Hv Hup Hfresh Hfind Hle Huser).
        rewrite (refresh_runs config other now (without_fingerprint token s)
                   stored user Hv Hup' Hfresh' Hfind' Hle Huser).
        reflexivity.
      * rewrite (refresh_owner_missing config other now s stored
                   Hv Hup Hfind Hle Huser).
        rewrite (refresh_owner_missing config other now
                   (without_fingerprint token s) stored Hv Hup' Hfind' Hle Huser).
        reflexivity.
    + apply Z.lt_gt in Hgt.
      rewrite (refresh_expired_row config other now s stored Hv Hup Hfind Hgt).
      rewrite (refresh_expired_row config other now
                 (without_fingerprint token s) stored Hv Hup' Hfind' Hgt).
      reflexivity.
  - assert (Hnone : filter (live_with (hashToken other)) (refreshTokens_rows s) = [])
      by (destruct (filter _ (refreshTokens_rows s)); [reflexivity|discriminate Hfind]).
    rewrite (refresh_no_live_row config other now s Hv Hup Hnone).
    rewrite <- Hsame in Hnone.
    rewrite (refresh_no_live_row config other now _ Hv Hup' Hnone).
    reflexivity.
Qed.

End LogoutRefresh.

(** ** Lists of rows *)

Lemma hd_error_filter_exists {A} (p : A -> bool) (l : list A) (a : A) :
  In a l -> p a = true -> exists b, hd_error (filter p l) = Some b.
Proof.
  intros Hin Hp.
  assert (Hf : In a (filter p l)) by (apply filter_In; auto).
  destruct (filter p l) as [|b l']; [contradiction|]. now exists b.
Qed.

Lemma hd_error_filter_none {A} (p : A -> bool) (l : list A) :
  hd_error (filter p l) = None -> filter p l = [].
Proof. destruct (filter p l); [reflexivity|discriminate]. Qed.

Lemma filter_map_stable {A} (p : A -> bool) (f : A -> A) (l : list A) :
  (forall a, p (f a) = p a) ->
  filter p (map f l) = map f (filter p l).
Proof.
  intros Hp. induction l as [|a l IH]; [reflexivity|]. cbn.
  rewrite Hp, IH. now destruct (p a).
Qed.

(** An update that keeps emails keeps what a lookup by email finds, up to
    the update. *)
Lemma findByEmail_after_update (rows : list users.row) (e : string)
  (g : users.row -> users.row) :
  (forall u, users.email (g u) = users.email u) ->
  hd_error (filter (fun u => (users.email u =? e)%string) (map g rows))
  = option_map g (hd_error (filter (fun u => (users.email u =? e)%string) rows)).
Proof.
  intros Hg. rewrite filter_map_stable by (intros a; now rewrite Hg).
  now destruct (filter _ rows).
Qed.

Lemma findById_after_update (rows : list users.row) (i : uuid)
  (g : users.row -> users.row) :
  (forall u, users.id (g u) = users.id u) ->
  hd_error (filter (fun u => Nat.eqb (users.id u) i) (map g rows))
  = option_map g (hd_error (filter (fun u => Nat.eqb (users.id u) i) rows)).
Proof.
  intros Hg. rewrite filter_map_stable by (intros a; now rewrite Hg).
  now destruct (filter _ rows).
Qed.

(** ** Rotation *)

Section Rotation.
Context {P : Platform} (config : Config).

(** X3: the refresh token a [refresh] hands out can be refreshed in its
    turn, within seven days and while it verifies, when its fingerprint was
    not in the ledger before. *)
Theorem refreshed_token_can_be_refreshed
  (token : string) (now now' : timestamp) (s s1 : Store) (pair : TokenResponse) :
  refresh config token now s = (s1, Return pair) ->
  store_up s1 ->
  fresh_uuids s ->
  filter (live_with (hashToken (refreshToken pair))) (refreshTokens_rows s) = [] ->
  verifies config (refreshToken pair) now' ->
  now' <= now + SEVEN_DAYS_MS ->
  exists s2 pair2,
    refresh config (refreshToken pair) now' s1 = (s2, Return pair2).
Proof.
  intros Hfirst Hup1 Hfresh Hnew Hv' Hsoon.
  assert (Hfresh1 : fresh_uuids s1).
  { pose proof (service_keeps_fresh config) as (_ & _ & _ & Hkeeps & _).
    specialize (Hkeeps token now s Hfresh). now rewrite Hfirst in Hkeeps. }
  apply refresh_returns in Hfirst.
  destruct Hfirst as (_ & stored & user & rest & _ & _ & Huser & Htail).
  apply _generateAuthResponse_returns in Htail.
  destruct Htail as (-> & Hrows & Husers & _).
  cbn [refreshToken consumed refreshTokens_rows users_rows] in *.
  set (record := refreshTokens.mk (uuid_seed s) (users.id user)
                   (hashToken (generateRefreshToken config user now))
                   (Some (Js.or (Js.or_opt (refreshTokens.device stored) "Unknown")
                            "Unknown Device"))
                   (now + SEVEN_DAYS_MS) false now) in *.
  set (touch := fun u => if Nat.eqb (users.id u) (users.id user)
                         then users.set_lastLoginAt now u else u) in *.
  assert (Hfind : hd_error (filter (live_with (hashToken
                              (generateRefreshToken config user now)))
                              (refreshTokens_rows s1)) = Some record).
  { rewrite Hrows, filter_app, filter_filter_comm, Hnew. cbn.
    unfold live_with. cbn. now rewrite String.eqb_refl. }
  assert (Hid : forall u, users.id (touch u) = users.id u)
    by (intros u; unfold touch; now destruct (Nat.eqb _ _)).
  assert (Huser1 : findById s1 (refreshTokens.userId record) = Some (touch user)).
  { unfold findById in *. rewrite Husers, (findById_after_update _ _ touch Hid).
    cbn [refreshTokens.userId record].
    pose proof (hd_error_filter_In _ _ _ Huser) as [_ Heq].
    apply Nat.eqb_eq in Heq. rewrite Heq, Huser. reflexivity. }
  pose proof (refresh_runs config _ now' s1 record (touch user)
                Hv' Hup1 Hfresh1 Hfind Hsoon Huser1) as Hrun.
  eexists _, _. exact Hrun.
Qed.

End Rotation.

(** ** Registration *)

Section Registration.
Context {P : Platform} (config : Config).

(** A successful [register], step by step. *)
Lemma register_returns
  (data : RegisterData) (now : timestamp) (s s1 : Store) (pair : TokenResponse) :
  register config data now s = (s1, Return pair) ->
  findByEmail s (r_email data) = None /\
  users_rows s1
  = map (fun u => if Nat.eqb (users.id u) (uuid_seed s)
                  then users.set_lastLoginAt now u else u)
      (users_rows s ++ [registered_user data now (uuid_seed s)]) /\
  exists record,
    refreshTokens_rows s1 = (refreshTokens_rows s ++ [record])%list /\
    refreshTokens.userId record = uuid_seed s.
Proof.
  intros H. unfold register in H. unfold_statements. unfold findByEmail.
  destruct s as [us rs seed fs]. cbn [users_rows uuid_seed refreshTokens_rows].
  follow H.
  all: apply _generateAuthResponse_returns in H.
  all: destruct H as (_ & Hrows & Husers & _); cbn in Hrows, Husers.
  all: split; [reflexivity|]; split; [exact Husers|].
  all: eexists; split; [exact Hrows|reflexivity].
Qed.

(** X4: whoever registered can log in with the same email and password,
    bcrypt accepting a password against its own hash. *)
Theorem login_after_register
  (data : RegisterData) (device : string) (now now' : timestamp)
  (s s1 : Store) (pair : TokenResponse) :
  register config data now s = (s1, Return pair) ->
  store_up s1 ->
  fresh_uuids s ->
  bcrypt_hash (r_password data) 10 <> "" ->
  bcrypt_compare (r_password data) (bcrypt_hash (r_password data) 10) = true ->
  exists s2 pair2,
    login config (mkLogin (r_email data) (r_password data) device) now' s1
    = (s2, Return pair2).
Proof.
  intros Hreg Hup1 Hfresh Hne Hgood.
  assert (Hfresh1 : fresh_uuids s1).
  { pose proof (service_keeps_fresh config) as (_ & Hkeeps & _).
    specialize (Hkeeps data now s Hfresh). now rewrite Hreg in Hkeeps. }
  apply register_returns in Hreg. destruct Hreg as (Hnone & Husers & _).
  destruct (login_accepts config
              (mkLogin (r_email data) (r_password data) device) now' s1
              Hup1 Hfresh1) as (user & _ & Hrun).
  - unfold accepts, findByEmail in *. cbn [l_email l_password].
    rewrite Husers, findByEmail_after_update
      by (intros u; now destruct (Nat.eqb _ _)).
    rewrite filter_app, (hd_error_filter_none _ _ Hnone). cbn.
    rewrite String.eqb_refl. cbn. rewrite Nat.eqb_refl.
    eexists _, _. split; [reflexivity|]. cbn. split; [reflexivity|].
    split; [exact Hne|exact Hgood].
  - eexists _, _. exact Hrun.
Qed.

(** X5: an email registers once: after a successful [register], another
    with the same email is refused as [AlreadyExists] and writes nothing. *)
Theorem register_again_is_refused
  (data again : RegisterData) (now now' : timestamp)
  (s s1 : Store) (pair : TokenResponse) :
  register config data now s = (s1, Return pair) ->
  store_up s1 ->
  r_email again = r_email data ->
  register config again now' s1 = (s1, Throw AlreadyExists).
Proof.
  intros Hreg Hup1 Hemail.
  apply register_returns in Hreg. destruct Hreg as (Hnone & Husers & _).
  unfold register, db.select_users, bind. rewrite (roundtrip_up s1 Hup1).
  rewrite firstn_1_hd, Hemail, Husers.
  rewrite findByEmail_after_update by (intros u; now destruct (Nat.eqb _ _)).
  unfold findByEmail in Hnone.
  rewrite filter_app, (hd_error_filter_none _ _ Hnone). cbn.
  rewrite String.eqb_refl. reflexivity.
Qed.

End Registration.

(** ** Accounts made by a federated login *)

Section GoogleAccounts.
Context {P : Platform} (config : Config).

(** A successful [loginWithGoogle] for an email that was not in the table. *)
Lemma loginWithGoogle_creates
  (idToken device : string) (now : timestamp) (s s1 : Store)
  (pair : TokenResponse) (payload : GooglePayload) (email : string) :
  verifyIdToken idToken (GOOGLE_CLIENT_ID config) = Some (Some payload) ->
  g_email payload = Some email ->
  findByEmail s email = None ->
  loginWithGoogle config idToken device now s = (s1, Return pair) ->
  users_rows s1
  = map (fun u => if Nat.eqb (users.id u) (uuid_seed s)
                  then users.set_lastLoginAt now u else u)
      (users_rows s ++ [google_user payload email now (uuid_seed s)]).
Proof.
  intros Hticket Hemail Hnone H. unfold loginWithGoogle in H.
  rewrite Hticket, Hemail in H. unfold resolveGoogleUser, findByEmail in *.
  unfold_statements. destruct s as [us rs seed fs].
  cbn [users_rows uuid_seed] in *.
  apply hd_error_filter_none in Hnone.
  destruct (negb (Js.truthy email)); [discriminate H|].
  repeat (lazymatch type of H with
          | context [match ?x with _ => _ end] => case_scrutinee x
          end;
          name_fitted;
          cbn -[firstn] in H; rewrite ?Hnone in H; cbn in H;
          try discriminate H).
  all: apply _generateAuthResponse_returns in H.
  all: destruct H as (_ & _ & Husers & _); exact Husers.
Qed.

(** X6: an account that a federated login created has no password: every
    [login] with its email is answered [WrongAuthMethod], whatever the
    password, and writes nothing. *)
Theorem google_account_has_no_password_login
  (idToken device : string) (now : timestamp) (s s1 : Store)
  (pair : TokenResponse) (payload : GooglePayload) (email : string)
  (data : LoginData) (now' : timestamp) :
  verifyIdToken idToken (GOOGLE_CLIENT_ID config) = Some (Some payload) ->
  g_email payload = Some email ->
  findByEmail s email = None ->
  loginWithGoogle config idToken device now s = (s1, Return pair) ->
  store_up s1 ->
  l_email data = email ->
  login config data now' s1 = (s1, Throw WrongAuthMethod).
Proof.
  intros Hticket Hemail Hnone H Hup1 Hdata.
  pose proof (loginWithGoogle_creates _ _ _ _ _ _ _ _ Hticket Hemail Hnone H)
    as Husers.
  unfold login, db.select_users, bind. rewrite (roundtrip_up s1 Hup1).
  rewrite firstn_1_hd, Hdata, Husers.
  rewrite findByEmail_after_update by (intros u; now destruct (Nat.eqb _ _)).
  unfold findByEmail in Hnone.
  rewrite filter_app, (hd_error_filter_none _ _ Hnone). cbn.
  rewrite String.eqb_refl. cbn. rewrite Nat.eqb_refl. reflexivity.
Qed.

End GoogleAccounts.

(** ** What the auth service never does to an identity *)

Section UsersKept.
Context {P : Platform} (config : Config).

(** [Q] is a property of the table of identities that survives an insert
    at the end and an update that keeps the fields of [same_identity]. *)
Variable Q : list users.row -> Prop.
Hypothesis Q_insert : forall rows u, Q rows -> Q (rows ++ [u]).
Hypothesis Q_update :
  forall rows f w,
    (forall u, same_identity u (f u)) ->
    Q rows -> Q (map (fun u => if (w u : bool) then f u else u) rows).

Let I (s : Store) : Prop := Q (users_rows s).

Lemma users_untouched_keeps {A} (m : Async A) :
  (forall s, users_rows (fst (m s)) = users_rows s) -> preserves I m.
Proof. intros Hm s Hs. unfold I. now rewrite Hm. Qed.

Lemma roundtrip_keeps_users : preserves I db.roundtrip.
Proof.
  apply users_untouched_keeps. intros s. unfold db.roundtrip.
  now destruct (faults s) as [|[|] rest].
Qed.

Lemma auth_service_keeps_users :
  (forall data now, preserves I (login config data now)) /\
  (forall data now, preserves I (register config data now)) /\
  (forall idToken device now,
      preserves I (loginWithGoogle config idToken device now)) /\
  (forall token now, preserves I (refresh config token now)) /\
  (forall token, preserves I (logout token)).
Proof.
  apply (service_keeps config I).
  - intros w n. apply preserves_bind; [apply roundtrip_keeps_users|intros _].
    now apply users_untouched_keeps.
  - intros v now.
    apply insert_users_by_parts; [apply roundtrip_keeps_users|intros fitted].
    apply preserves_bind; [now apply users_untouched_keeps|intros i].
    intros s Hs. unfold I in *. destruct (existsb _ _); cbn; [exact Hs|].
    apply Q_insert. exact Hs.
  - intros f w Hf. apply preserves_bind; [apply roundtrip_keeps_users|intros _].
    intros s Hs. unfold I in *. cbn. apply Q_update; assumption.
  - intros w n. apply preserves_bind; [apply roundtrip_keeps_users|intros _].
    now apply users_untouched_keeps.
  - intros v now _. apply preserves_bind; [apply roundtrip_keeps_users|intros _].
    apply preserves_bind; [now apply users_untouched_keeps|intros i].
    apply users_untouched_keeps. intros s.
    destruct (existsb _ _); [reflexivity|]. now destruct (negb _).
  - intros w. apply preserves_bind; [apply roundtrip_keeps_users|intros _].
    now apply users_untouched_keeps.
Qed.

End UsersKept.

Section Credentials.
Context {P : Platform} (config : Config).

(** X7: no call of the auth service takes away a password login: an email
    and password that [login] would accept before a call of [login],
    [register], [loginWithGoogle], [refresh] or [logout] are accepted after
    it, whether the call returned or threw. *)
Theorem auth_calls_keep_password_logins (email password : string) :
  (forall data now,
      preserves (fun s => accepts s email password) (login config data now)) /\
  (forall data now,
      preserves (fun s => accepts s email password) (register config data now)) /\
  (forall idToken device now,
      preserves (fun s => accepts s email password)
        (loginWithGoogle config idToken device now)) /\
  (forall token now,
      preserves (fun s => accepts s email password) (refresh config token now)) /\
  (forall token,
      preserves (fun s => accepts s email password) (logout token)).
Proof.
  set (Q := fun rows : list users.row =>
              exists user hash,
                hd_error (filter (fun u => (users.email u =? email)%string) rows)
                = Some user /\
                users.password user = Some hash /\
                hash <> "" /\
                bcrypt_compare password hash = true).
  apply (auth_service_keeps_users config Q).
  - intros rows u (user & hash & Hfind & Hrest). exists user, hash.
    split; [|exact Hrest]. rewrite filter_app.
    destruct (filter _ rows); [discriminate Hfind|exact Hfind].
  - intros rows f w Hf (user & hash & Hfind & Hhash & Hrest).
    set (g := fun u => if w u then f u else u).
    assert (Hg : forall u, users.email (g u) = users.email u /\
                           users.password (g u) = users.password u).
    { intros u. unfold g. destruct (w u); [|now split].
      destruct (Hf u) as (_ & He & _ & Hp & _). now split. }
    exists (g user), hash. split.
    + rewrite (findByEmail_after_update rows email g (fun u => proj1 (Hg u))).
      now rewrite Hfind.
    + rewrite (proj2 (Hg user)). now split.
Qed.

End Credentials.

(** ** What every call of the user service keeps *)

Section UserServiceKeeps.
Context {P : Platform}.
Variable I : Store -> Prop.
Hypothesis select_users_keeps : forall w n, preserves I (db.select_users w n).
Hypothesis insert_users_keeps : forall v now, preserves I (db.insert_users v now).
Hypothesis select_all_keeps :
  forall scan, preserves I (userStatements.select_all scan).
Hypothesis update_returning_keeps :
  forall email name password now id,
    preserves I (userStatements.update_returning
                   (set_updateData email name password now)
                   (fun u => Nat.eqb (users.id u) id)).
Hypothesis delete_returning_keeps :
  forall id, preserves I (userStatements.delete_returning
                            (fun u => Nat.eqb (users.id u) id)).

Local Hint Resolve select_users_keeps insert_users_keeps select_all_keeps
  update_returning_keeps delete_returning_keeps : preserves.

Lemma user_service_keeps :
  (forall data now, preserves I (userService.create data now)) /\
  (forall scan, preserves I (userService.getAll scan)) /\
  (forall id, preserves I (userService.getById id)) /\
  (forall id data now, preserves I (userService.update id data now)) /\
  (forall id, preserves I (userService.delete id)).
Proof.
  unfold userService.create, userService.getAll, userService.getById,
    userService.update, userService.delete.
  repeat split; by_statements.
Qed.

End UserServiceKeeps.

(** ** Referential integrity *)

Lemma existsb_false_forall {A} (f : A -> bool) (l : list A) :
  existsb f l = false <-> (forall a, In a l -> f a = false).
Proof.
  split.
  - intros H a Hin. destruct (f a) eqn:Hf; [|reflexivity].
    rewrite <- H. symmetry. apply existsb_exists. now exists a.
  - intros H. apply not_true_is_false. intros Hex.
    apply existsb_exists in Hex. destruct Hex as (a & Hin & Hf).
    rewrite (H a Hin) in Hf. discriminate Hf.
Qed.

Lemma existsb_id_map (g : users.row -> users.row) (i : uuid)
  (rows : list users.row) :
  (forall u, users.id (g u) = users.id u) ->
  existsb (fun u => Nat.eqb (users.id u) i) (map g rows)
  = existsb (fun u => Nat.eqb (users.id u) i) rows.
Proof.
  intros Hg. induction rows as [|u rows IH]; [reflexivity|].
  cbn. now rewrite Hg, IH.
Qed.

Section References.

Lemma references_same_rows {A} (m : Async A) :
  (forall s, users_rows (fst (m s)) = users_rows s /\
             refreshTokens_rows (fst (m s)) = refreshTokens_rows s) ->
  preserves references_hold m.
Proof.
  intros Hm s Hs r Hin. destruct (Hm s) as [Hu Hr].
  rewrite Hu. apply Hs. now rewrite <- Hr.
Qed.

Lemma roundtrip_keeps_references : preserves references_hold db.roundtrip.
Proof.
  apply references_same_rows. intros s. unfold db.roundtrip.
  now destruct (faults s) as [|[|] rest].
Qed.

Lemma after_roundtrip_keeps_references {A} (f : Store -> Store * Outcome A) :
  preserves references_hold f ->
  preserves references_hold (db.roundtrip ;;; f).
Proof.
  intros Hf. apply preserves_bind; [apply roundtrip_keeps_references|now intros _].
Qed.

Lemma select_users_keeps_references w n :
  preserves references_hold (db.select_users w n).
Proof.
  apply after_roundtrip_keeps_references. now apply references_same_rows.
Qed.

Lemma select_all_keeps_references scan :
  preserves references_hold (userStatements.select_all scan).
Proof.
  apply after_roundtrip_keeps_references. now apply references_same_rows.
Qed.

Lemma select_refreshTokens_keeps_references w n :
  preserves references_hold (db.select_refreshTokens w n).
Proof.
  apply after_roundtrip_keeps_references. now apply references_same_rows.
Qed.

Lemma insert_users_keeps_references v now :
  preserves references_hold (db.insert_users v now).
Proof.
  apply insert_users_by_parts; [apply roundtrip_keeps_references|intros fitted].
  apply preserves_bind; [now apply references_same_rows|intros i].
  intros s Hs. cbv beta. destruct (existsb _ (users_rows s)); cbn; [exact Hs|].
  intros r Hin. cbn in *. rewrite existsb_app, (Hs r Hin). reflexivity.
Qed.

Lemma update_users_keeps_references f w :
  (forall u, same_identity u (f u)) ->
  preserves references_hold (db.update_users f w).
Proof.
  intros Hf. apply after_roundtrip_keeps_references.
  intros s Hs r Hin. cbn in *. rewrite existsb_id_map; [now apply Hs|].
  intros u. destruct (w u); [exact (proj1 (Hf u))|reflexivity].
Qed.

Lemma update_returning_keeps_references email name password now id :
  preserves references_hold
    (userStatements.update_returning
       (set_updateData email name password now)
       (fun u => Nat.eqb (users.id u) id)).
Proof.
  apply after_roundtrip_keeps_references.
  intros s Hs. cbn. destruct (existsb _ _); cbn; [exact Hs|].
  intros r Hin. cbn in *. rewrite existsb_id_map; [now apply Hs|].
  intros u. now destruct (Nat.eqb (users.id u) id).
Qed.

(** The reference of [userId] is checked when a ledger row is inserted. *)
Lemma insert_refreshTokens_keeps_references v now :
  preserves references_hold (db.insert_refreshTokens v now).
Proof.
  apply after_roundtrip_keeps_references.
  apply preserves_bind; [now apply references_same_rows|intros i].
  intros s Hs. cbv beta.
  destruct (existsb _ (refreshTokens_rows s)); cbn; [exact Hs|].
  destruct (existsb _ (users_rows s)) eqn:Hfk; cbn; [|exact Hs].
  intros r Hin. cbn in *. apply in_app_or in Hin.
  destruct Hin as [Hin|[<-|[]]]; [now apply Hs|exact Hfk].
Qed.

Lemma delete_refreshTokens_keeps_references w :
  preserves references_hold (db.delete_refreshTokens w).
Proof.
  apply after_roundtrip_keeps_references.
  intros s Hs r Hin. cbn in *. apply filter_In in Hin. now apply Hs.
Qed.

(** The ledger rows of a deleted identity are deleted with it. *)
Lemma delete_returning_keeps_references w :
  preserves references_hold (userStatements.delete_returning w).
Proof.
  apply after_roundtrip_keeps_references.
  intros s Hs r Hin. cbn in *. apply filter_In in Hin.
  destruct Hin as [Hin Hkept]. apply negb_true_iff in Hkept.
  specialize (Hs r Hin). apply existsb_exists in Hs.
  destruct Hs as (u & Hu & Hid). apply existsb_exists. exists u.
  split; [|exact Hid]. apply filter_In. split; [exact Hu|].
  destruct (w u) eqn:Hw; [|reflexivity].
  rewrite existsb_false_forall in Hkept.
  rewrite (Hkept u) in Hid; [discriminate Hid|].
  apply filter_In. now split.
Qed.

End References.

(** X9: every ledger row belongs to an identity of the table, and stays so
    through any call of the auth service and of the user service, returned
    or thrown: rows are inserted for identities that exist, and leave with
    the identity that is deleted. *)
Theorem references_are_kept {P : Platform} (config : Config) :
  ((forall data now, preserves references_hold (login config data now)) /\
   (forall data now, preserves references_hold (register config data now)) /\
   (forall idToken device now,
       preserves references_hold (loginWithGoogle config idToken device now)) /\
   (forall token now, preserves references_hold (refresh config token now)) /\
   (forall token, preserves references_hold (logout token))) /\
  ((forall data now, preserves references_hold (userService.create data now)) /\
   (forall scan, preserves references_hold (userService.getAll scan)) /\
   (forall id, preserves references_hold (userService.getById id)) /\
   (forall id data now,
       preserves references_hold (userService.update id data now)) /\
   (forall id, preserves references_hold (userService.delete id))).
Proof.
  split.
  - apply (service_keeps config references_hold).
    + apply select_users_keeps_references.
    + apply insert_users_keeps_references.
    + apply update_users_keeps_references.
    + apply select_refreshTokens_keeps_references.
    + intros v now _. apply insert_refreshTokens_keeps_references.
    + apply delete_refreshTokens_keeps_references.
  - apply (user_service_keeps references_hold).
    + apply select_users_keeps_references.
    + apply insert_users_keeps_references.
    + apply select_all_keeps_references.
    + apply update_returning_keeps_references.
    + intros id. apply delete_returning_keeps_references.
Qed.

(** ** Unique identifiers and emails *)

Lemma NoDup_app_single {A} (l : list A) (a : A) :
  NoDup l -> ~ In a l -> NoDup (l ++ [a]).
Proof.
  intros Hl Ha. apply NoDup_app.
  - exact Hl.
  - repeat constructor. intros [].
  - intros x Hx [<-|[]]. exact (Ha Hx).
Qed.

(** Deleting rows keeps a column free of duplicates. *)
Lemma column_unique_after_delete {Row Col : Type} (column : Row -> Col)
  (keep : Row -> bool) (rows : list Row)
  (Hunique : NoDup (map column rows)) :
  NoDup (map column (filter keep rows)).
Proof.
  induction rows as [|row rows IH]; [constructor|].
  cbn in *. inversion Hunique as [|x xs Hnotin Hrest]; subst.
  destruct (keep row); [|now apply IH]. cbn. constructor; [|now apply IH].
  intros Hin. apply Hnotin. apply in_map_iff in Hin.
  destruct Hin as (b & Hb & Hin). apply filter_In in Hin.
  apply in_map_iff. exists b. split; [exact Hb|exact (proj1 Hin)].
Qed.

(** The rows written by an update of the identity [i] may take an email
    only if no other identity holds it: then emails stay unique. *)
Lemma update_keeps_emails_unique (g : users.row -> users.row) (i : uuid)
  (rows : list users.row) :
  (forall u, users.id (g u) = users.id u) ->
  NoDup (map users.id rows) ->
  NoDup (map users.email rows) ->
  let w := fun u => Nat.eqb (users.id u) i in
  let rows' := map (fun u => if w u then g u else u) rows in
  (forall u' v, In u' (map g (filter w rows)) -> In v rows' ->
                users.id v <> users.id u' -> users.email v <> users.email u') ->
  NoDup (map users.email rows').
Proof.
  intros Hg. induction rows as [|a rows IH]; intros Hids Hemails w rows' Hfree;
    [constructor|].
  cbn in Hids, Hemails.
  inversion Hids as [|x xs Hid_a Hids']; subst.
  inversion Hemails as [|x xs Hemail_a Hemails']; subst.
  subst rows'. cbn [map]. destruct (w a) eqn:Hwa.
  - apply Nat.eqb_eq in Hwa.
    assert (Hsame : map (fun u => if w u then g u else u) rows = rows).
    { rewrite <- (map_id rows) at 2. apply map_ext_in. intros v Hv.
      unfold w. destruct (Nat.eqb_spec (users.id v) i) as [Hv_i|_]; [|reflexivity].
      elim Hid_a. apply in_map_iff. exists v. split; [congruence|exact Hv]. }
    rewrite Hsame. cbn. constructor; [|exact Hemails'].
    intros Hin. apply in_map_iff in Hin. destruct Hin as (v & Hv_e & Hv).
    refine (Hfree (g a) v _ _ _ Hv_e).
    + cbn. unfold w at 1. rewrite <- Hwa, Nat.eqb_refl. now left.
    + cbn. right. rewrite Hsame. exact Hv.
    + rewrite Hg. intros Heq. apply Hid_a. apply in_map_iff.
      exists v. split; [exact Heq|exact Hv].
  - cbn. constructor.
    + intros Hin. apply in_map_iff in Hin. destruct Hin as (v' & Hv_e & Hv').
      apply in_map_iff in Hv'. destruct Hv' as (v & <- & Hv).
      destruct (w v) eqn:Hwv.
      * refine (Hfree (g v) a _ _ _ (eq_sym Hv_e)).
        -- cbn. rewrite Hwa. apply in_map. apply filter_In. now split.
        -- cbn. rewrite Hwa. now left.
        -- rewrite Hg. unfold w in Hwa, Hwv. apply Nat.eqb_eq in Hwv.
           apply Nat.eqb_neq in Hwa. congruence.
      * apply Hemail_a. apply in_map_iff. exists v. now split.
    + apply IH; [exact Hids'|exact Hemails'|].
      intros u' v Hu' Hv. apply Hfree.
      * cbn. now rewrite Hwa.
      * cbn. rewrite Hwa. now right.
Qed.

Section Directory.

Lemma directory_same_users {A} (m : Async A) :
  (forall s, users_rows (fst (m s)) = users_rows s) ->
  preserves directory_sound m.
Proof.
  intros Hm s Hs. unfold directory_sound, ids_unique, emails_unique in *.
  now rewrite Hm.
Qed.

Lemma roundtrip_keeps_directory : preserves directory_sound db.roundtrip.
Proof.
  apply directory_same_users. intros s. unfold db.roundtrip.
  now destruct (faults s) as [|[|] rest].
Qed.

Lemma after_roundtrip_keeps_directory {A} (f : Store -> Store * Outcome A) :
  preserves directory_sound f ->
  preserves directory_sound (db.roundtrip ;;; f).
Proof.
  intros Hf. apply preserves_bind; [apply roundtrip_keeps_directory|now intros _].
Qed.

(** The primary key and the [unique()] of [email] are checked on insert. *)
Lemma insert_users_keeps_directory v now :
  preserves directory_sound (db.insert_users v now).
Proof.
  apply insert_users_by_parts; [apply roundtrip_keeps_directory|intros fitted].
  apply preserves_bind; [now apply directory_same_users|intros i].
  intros s [Hids Hemails]. cbv beta.
  destruct (existsb _ (users_rows s)) eqn:Hex; cbn; [now split|].
  rewrite existsb_false_forall in Hex.
  unfold directory_sound, ids_unique, emails_unique in *. cbn.
  rewrite !map_app. cbn. split; apply NoDup_app_single; try assumption.
  - intros Hin. apply in_map_iff in Hin. destruct Hin as (u & Hu & Hin).
    specialize (Hex u Hin). apply orb_false_iff in Hex.
    rewrite Hu, Nat.eqb_refl in Hex. now destruct Hex.
  - intros Hin. apply in_map_iff in Hin. destruct Hin as (u & Hu & Hin).
    specialize (Hex u Hin). apply orb_false_iff in Hex.
    rewrite Hu, String.eqb_refl in Hex. now destruct Hex.
Qed.

Lemma update_users_keeps_directory f w :
  (forall u, same_identity u (f u)) ->
  preserves directory_sound (db.update_users f w).
Proof.
  intros Hf. apply after_roundtrip_keeps_directory.
  intros s [Hids Hemails].
  unfold directory_sound, ids_unique, emails_unique in *. cbn.
  rewrite !map_map. split.
  - erewrite map_ext; [exact Hids|]. intros u. cbn.
    destruct (w u); [exact (proj1 (Hf u))|reflexivity].
  - erewrite map_ext; [exact Hemails|]. intros u. cbn.
    destruct (w u); [exact (proj1 (proj2 (Hf u)))|reflexivity].
Qed.

(** The [unique()] of [email] is checked on update. *)
Lemma update_returning_keeps_directory email name password now id :
  preserves directory_sound
    (userStatements.update_returning
       (set_updateData email name password now)
       (fun u => Nat.eqb (users.id u) id)).
Proof.
  apply after_roundtrip_keeps_directory.
  intros s [Hids Hemails]. cbv beta zeta.
  destruct (existsb _ (map _ _)) eqn:Hex; cbn [fst]; [now split|].
  rewrite existsb_false_forall in Hex.
  unfold directory_sound, ids_unique, emails_unique in *.
  cbn [users_rows]. split.
  - rewrite map_map. erewrite map_ext; [exact Hids|].
    intros u. cbn. now destruct (Nat.eqb (users.id u) id).
  - apply (update_keeps_emails_unique _ id);
      [reflexivity|exact Hids|exact Hemails|].
    intros u' v Hu' Hv Hne Heq. specialize (Hex u' Hu').
    unfold userStatements.email_taken in Hex.
    rewrite existsb_false_forall in Hex. specialize (Hex v Hv).
    apply andb_false_iff in Hex. destruct Hex as [Hex|Hex].
    + apply negb_false_iff, Nat.eqb_eq in Hex. contradiction.
    + rewrite Heq, String.eqb_refl in Hex. discriminate Hex.
Qed.

Lemma delete_returning_keeps_directory w :
  preserves directory_sound (userStatements.delete_returning w).
Proof.
  apply after_roundtrip_keeps_directory.
  intros s [Hids Hemails]. split; cbn; now apply column_unique_after_delete.
Qed.

End Directory.

(** X10: identities keep distinct identifiers and distinct emails through
    any call of the auth service and of the user service, returned or
    thrown. *)
Theorem identifiers_and_emails_stay_unique {P : Platform} (config : Config) :
  ((forall data now, preserves directory_sound (login config data now)) /\
   (forall data now, preserves directory_sound (register config data now)) /\
   (forall idToken device now,
       preserves directory_sound (loginWithGoogle config idToken device now)) /\
   (forall token now, preserves directory_sound (refresh config token now)) /\
   (forall token, preserves directory_sound (logout token))) /\
  ((forall data now, preserves directory_sound (userService.create data now)) /\
   (forall scan, preserves directory_sound (userService.getAll scan)) /\
   (forall id, preserves directory_sound (userService.getById id)) /\
   (forall id data now,
       preserves directory_sound (userService.update id data now)) /\
   (forall id, preserves directory_sound (userService.delete id))).
Proof.
  assert (Hselect : forall w n, preserves directory_sound (db.select_users w n)).
  { intros w n. apply after_roundtrip_keeps_directory.
    now apply directory_same_users. }
  split.
  - apply (service_keeps config directory_sound).
    + exact Hselect.
    + apply insert_users_keeps_directory.
    + apply update_users_keeps_directory.
    + intros w n. apply after_roundtrip_keeps_directory.
      now apply directory_same_users.
    + intros v now _. apply after_roundtrip_keeps_directory.
      apply preserves_bind; [now apply directory_same_users|intros i].
      apply directory_same_users. intros s. cbv beta.
      destruct (existsb _ _); [reflexivity|]. now destruct (negb _).
    + intros w. apply after_roundtrip_keeps_directory.
      now apply directory_same_users.
  - apply (user_service_keeps directory_sound).
    + exact Hselect.
    + apply insert_users_keeps_directory.
    + intros scan. apply after_roundtrip_keeps_directory.
      now apply directory_same_users.
    + apply update_returning_keeps_directory.
    + intros id. apply delete_returning_keeps_directory.
Qed.

(** ** What [refresh] never answers *)

Section NeverNotFound.
Context {P : Platform} (config : Config).

(** Issuance throws nothing but database errors. *)
Lemma _generateAuthResponse_throws
  (user : users.row) (device : string) (now : timestamp)
  (s s' : Store) (e : Exn) :
  _generateAuthResponse config user device now s = (s', Throw e) ->
  exists code, e = DatabaseError code.
Proof.
  intros H. unfold _generateAuthResponse in H. unfold_statements.
  destruct s as [us rs seed fs]. follow H.
  all: injection H as _ <-; eauto.
Qed.

(** X11: where every ledger row belongs to an identity of the table,
    [refresh] never answers [NotFound]: the owner of the record it consumed
    is there, whatever the token, the time and the availability of the
    store. *)
Theorem refresh_finds_the_owner (token : string) (now : timestamp) (s : Store) :
  references_hold s ->
  snd (refresh config token now s) <> Throw NotFound.
Proof.
  intros Href. destruct (refresh config token now s) as [s' o] eqn:H.
  cbn [snd]. intros ->. unfold refresh in H. unfold_statements.
  destruct s as [us rs seed fs]. unfold references_hold in Href. cbn in Href.
  follow H.
  all: try (apply _generateAuthResponse_throws in H; destruct H as [code H];
            discriminate H).
  all: match goal with
       | Hrow : @filter refreshTokens.row _ _ = ?r :: _,
         Hnone : @filter users.row _ _ = [] |- _ =>
           assert (Hin : In r rs)
             by (eapply proj1, filter_In; rewrite Hrow; now left);
           specialize (Href r Hin); apply existsb_exists in Href;
           destruct Href as (u & Hu & Hid);
           assert (Hf : In u (filter (fun u => Nat.eqb (users.id u)
                                                 (refreshTokens.userId r)) us))
             by (apply filter_In; now split);
           rewrite Hnone in Hf; exact Hf
       end.
Qed.

End NeverNotFound.

(** ** Sessions side by side *)

Section Sessions.
Context {P : Platform} (config : Config).

Lemma _generateAuthResponse_adds
  (user : users.row) (device : string) (now : timestamp) (s : Store) :
  ledger_grows s (fst (_generateAuthResponse config user device now s)).
Proof.
  destruct (_generateAuthResponse config user device now s) as [s' o] eqn:H.
  unfold _generateAuthResponse in H. unfold_statements.
  destruct s as [us rs seed fs]. unfold ledger_grows. cbn [fst refreshTokens_rows].
  follow H.
  all: injection H as <- _; cbn [refreshTokens_rows].
  all: first [ exists []; rewrite app_nil_r; split; [reflexivity|cbn; lia]
             | eexists [_]; split; [reflexivity|cbn; lia] ].
Qed.

(** X8: [login], [register] and [loginWithGoogle] take no session away: the
    ledger after the call, returned or thrown, is the ledger before it with
    at most one row added at its end. *)
Theorem issuing_calls_keep_sessions (now : timestamp) (s : Store) :
  (forall data, ledger_grows s (fst (login config data now s))) /\
  (forall data, ledger_grows s (fst (register config data now s))) /\
  (forall idToken device,
      ledger_grows s (fst (loginWithGoogle config idToken device now s))).
Proof.
  assert (Hnothing : forall s', refreshTokens_rows s' = refreshTokens_rows s ->
                                ledger_grows s s')
    by (intros s' Hs'; exists []; rewrite app_nil_r; split; [exact Hs'|cbn; lia]).
  assert (Htail : forall user device s0 s' o,
             refreshTokens_rows s0 = refreshTokens_rows s ->
             _generateAuthResponse config user device now s0 = (s', o) ->
             ledger_grows s s').
  { intros user device s0 s' o Hs0 Hrun.
    pose proof (_generateAuthResponse_adds user device now s0)
      as (added & Hadd & Hone).
    rewrite Hrun in Hadd. cbn in Hadd. exists added. now rewrite Hadd, Hs0. }
  destruct s as [us rs seed fs]. repeat split.
  - intros data.
    destruct (login config data now _) as [s' o] eqn:H. cbn [fst].
    unfold login in H. unfold_statements. follow H.
    all: first [ eapply Htail; [|exact H]; reflexivity
               | injection H as <- _; now apply Hnothing ].
  - intros data.
    destruct (register config data now _) as [s' o] eqn:H. cbn [fst].
    unfold register in H. unfold_statements. follow H.
    all: first [ eapply Htail; [|exact H]; reflexivity
               | injection H as <- _; now apply Hnothing ].
  - intros idToken device.
    destruct (loginWithGoogle config idToken device now _) as [s' o] eqn:H.
    cbn [fst]. unfold loginWithGoogle, resolveGoogleUser in H.
    unfold_statements. follow H.
    all: first [ eapply Htail; [|exact H]; reflexivity
               | injection H as <- _; now apply Hnothing ].
Qed.

End Sessions.

(** ** The user service: store up, identifiers fresh *)

Lemma user_service_stays_up {P : Platform} :
  (forall data now, preserves store_up (userService.create data now)) /\
  (forall scan, preserves store_up (userService.getAll scan)) /\
  (forall id, preserves store_up (userService.getById id)) /\
  (forall id data now, preserves store_up (userService.update id data now)) /\
  (forall id, preserves store_up (userService.delete id)).
Proof.
  apply (user_service_keeps store_up); auto with preserves.
  - intros scan. apply preserves_bind; [apply roundtrip_stays_up|intros _].
    now apply statement_stays_up.
  - intros email name password now id.
    apply preserves_bind; [apply roundtrip_stays_up|intros _].
    apply statement_stays_up. intros s. cbv beta zeta.
    now destruct (existsb _ _).
  - intros id. apply preserves_bind; [apply roundtrip_stays_up|intros _].
    now apply statement_stays_up.
Qed.

Lemma user_service_keeps_fresh {P : Platform} :
  (forall data now, preserves fresh_uuids (userService.create data now)) /\
  (forall scan, preserves fresh_uuids (userService.getAll scan)) /\
  (forall id, preserves fresh_uuids (userService.getById id)) /\
  (forall id data now, preserves fresh_uuids (userService.update id data now)) /\
  (forall id, preserves fresh_uuids (userService.delete id)).
Proof.
  apply (user_service_keeps fresh_uuids); auto with preserves.
  - intros scan. apply preserves_bind; [apply roundtrip_keeps_fresh|intros _].
    apply statement_keeps_rows. intros s. cbn. auto.
  - intros email name password now id.
    apply preserves_bind; [apply roundtrip_keeps_fresh|intros _].
    intros s [Hu Hr]. cbv beta zeta. destruct (existsb _ _); cbn; [now split|].
    split; cbn; [|exact Hr]. intros u Hin. apply in_map_iff in Hin.
    destruct Hin as (u0 & <- & Hin). specialize (Hu u0 Hin).
    now destruct (Nat.eqb (users.id u0) id).
  - intros id. apply preserves_bind; [apply roundtrip_keeps_fresh|intros _].
    intros s [Hu Hr]. split; cbn; intros x Hin; apply filter_In in Hin;
      [apply Hu|apply Hr]; exact (proj1 Hin).
Qed.

(** ** Creating an identity *)

Section Create.
Context {P : Platform} (config : Config).

(** A successful [userService.create], step by step. *)
Lemma create_returns
  (data : CreateUserData) (now : timestamp) (s s1 : Store) (res : UserResponse) :
  userService.create data now s = (s1, Return res) ->
  findByEmail s (c_email data) = None /\
  findById s (uuid_seed s) = None /\
  users_rows s1 = (users_rows s ++ [created_user data now (uuid_seed s)])%list /\
  refreshTokens_rows s1 = refreshTokens_rows s /\
  res = withoutPassword (created_user data now (uuid_seed s)).
Proof.
  intros H. unfold userService.create in H. unfold_statements.
  unfold findByEmail, findById.
  destruct s as [us rs seed fs]. cbn [users_rows uuid_seed refreshTokens_rows].
  follow H.
  all: injection H as <- <-; cbn.
  all: repeat split.
  all: match goal with
       | Hex : existsb _ ?l = false |- _ =>
           rewrite existsb_false_forall in Hex;
           rewrite (filter_nil_iff _ l); [reflexivity|];
           intros u Hu; specialize (Hex u Hu);
           apply orb_false_iff in Hex; exact (proj1 Hex)
       end.
Qed.

(** X12: the identity [create] returns is the one [getById] finds under the
    identifier returned, and [getAll] lists it once among the identities
    that were there, in whatever order the table is scanned. *)
Theorem created_identity_is_found
  (data : CreateUserData) (now : timestamp) (s s1 : Store) (res : UserResponse)
  (scan : list users.row -> list users.row) :
  (forall rows, Permutation (scan rows) rows) ->
  userService.create data now s = (s1, Return res) ->
  store_up s1 ->
  userService.getById (res_id res) s1 = (s1, Return res) /\
  exists listed,
    userService.getAll scan s1 = (s1, Return listed) /\
    Permutation listed (res :: map withoutPassword (users_rows s)).
Proof.
  intros Hscan H Hup1. apply create_returns in H.
  destruct H as (_ & Hnoid & Husers & _ & ->). split.
  - unfold userService.getById, db.select_users, bind.
    rewrite (roundtrip_up s1 Hup1), firstn_1_hd, Husers, filter_app.
    unfold findById in Hnoid. cbn [res_id withoutPassword created_user users.id].
    rewrite (hd_error_filter_none _ _ Hnoid). cbn. rewrite Nat.eqb_refl.
    reflexivity.
  - unfold userService.getAll, userStatements.select_all, bind.
    rewrite (roundtrip_up s1 Hup1). cbn. eexists. split; [reflexivity|].
    rewrite (Permutation_map withoutPassword (Hscan (users_rows s1))), Husers.
    rewrite map_app. cbn. symmetry. apply Permutation_cons_append.
Qed.

(** X13: an identity made by [userService.create] logs in through the auth
    service with the password it was created with, bcrypt accepting a
    password against its own hash. *)
Theorem login_after_create
  (data : CreateUserData) (device : string) (now now' : timestamp)
  (s s1 : Store) (res : UserResponse) :
  userService.create data now s = (s1, Return res) ->
  store_up s1 ->
  fresh_uuids s ->
  bcrypt_hash (c_password data) 10 <> "" ->
  bcrypt_compare (c_password data) (bcrypt_hash (c_password data) 10) = true ->
  exists s2 pair,
    login config (mkLogin (c_email data) (c_password data) device) now' s1
    = (s2, Return pair).
Proof.
  intros H Hup1 Hfresh Hne Hgood.
  assert (Hfresh1 : fresh_uuids s1).
  { pose proof user_service_keeps_fresh as (Hkeeps & _).
    specialize (Hkeeps data now s Hfresh). now rewrite H in Hkeeps. }
  apply create_returns in H. destruct H as (Hnone & _ & Husers & _).
  destruct (login_accepts config
              (mkLogin (c_email data) (c_password data) device) now' s1
              Hup1 Hfresh1) as (user & _ & Hrun).
  - unfold accepts, findByEmail in *. cbn [l_email l_password].
    rewrite Husers, filter_app, (hd_error_filter_none _ _ Hnone). cbn.
    rewrite String.eqb_refl. cbn.
    eexists _, _. split; [reflexivity|]. cbn. split; [reflexivity|].
    split; [exact Hne|exact Hgood].
  - eexists _, _. exact Hrun.
Qed.

(** X14: the email of a created identity is taken, in both services: a
    second [create] with it is refused with status 409 and a [register]
    with it as [AlreadyExists], and neither writes anything. *)
Theorem created_email_is_taken
  (data : CreateUserData) (now now' : timestamp) (s s1 : Store)
  (res : UserResponse) (again : CreateUserData) (registration : RegisterData) :
  userService.create data now s = (s1, Return res) ->
  store_up s1 ->
  c_email again = c_email data ->
  r_email registration = c_email data ->
  userService.create again now' s1
  = (s1, Throw (AppError 409 "Email already exists")) /\
  register config registration now' s1 = (s1, Throw AlreadyExists).
Proof.
  intros H Hup1 Hagain Hreg. apply create_returns in H.
  destruct H as (Hnone & _ & Husers & _). unfold findByEmail in Hnone.
  split.
  - unfold userService.create, db.select_users, bind.
    rewrite (roundtrip_up s1 Hup1), firstn_1_hd, Hagain, Husers, filter_app.
    rewrite (hd_error_filter_none _ _ Hnone). cbn.
    rewrite String.eqb_refl. reflexivity.
  - unfold register, db.select_users, bind.
    rewrite (roundtrip_up s1 Hup1), firstn_1_hd, Hreg, Husers, filter_app.
    rewrite (hd_error_filter_none _ _ Hnone). cbn.
    rewrite String.eqb_refl. reflexivity.
Qed.

End Create.

(** ** Updating an identity *)

Lemma NoDup_map_inj {A B} (f : A -> B) (l : list A) (a b : A) :
  NoDup (map f l) -> In a l -> In b l -> f a = f b -> a = b.
Proof.
  induction l as [|x l IH]; intros Hnd Ha Hb Hf; [contradiction|].
  cbn in Hnd. inversion Hnd as [|y ys Hnotin Hrest]; subst.
  destruct Ha as [<-|Ha], Hb as [<-|Hb].
  - reflexivity.
  - elim Hnotin. rewrite Hf. now apply in_map.
  - elim Hnotin. rewrite <- Hf. now apply in_map.
  - now apply IH.
Qed.

Section Update.
Context {P : Platform} (config : Config).

(** A successful [userService.update], step by step. *)
Lemma update_returns
  (id : uuid) (data : UpdateUserData) (now : timestamp) (s s1 : Store)
  (res : UserResponse) :
  userService.update id data now s = (s1, Return res) ->
  exists existing,
    findById s id = Some existing /\
    users_rows s1
    = map (fun u => if Nat.eqb (users.id u) id then updated_user data now u else u)
        (users_rows s) /\
    refreshTokens_rows s1 = refreshTokens_rows s /\
    res = withoutPassword (updated_user data now existing) /\
    (forall v, In v (users_rows s1) -> users.id v <> id ->
               users.email v <> res_email res).
Proof.
  intros H. unfold userService.update, userStatements.update_returning in H.
  unfold_statements. unfold findById, updated_user.
  destruct s as [us rs seed fs]. cbn [users_rows refreshTokens_rows].
  cbn -[firstn userStatements.email_taken] in H.
  repeat (lazymatch type of H with
          | context [match ?x with _ => _ end] => case_scrutinee x
          end;
          cbn -[userStatements.email_taken] in H; try discriminate H).
  all: try match goal with
           | Hm : map _ (filter _ _) = _ :: _,
             Hf : @filter users.row _ _ = _ :: _ |- _ =>
               rewrite Hf in Hm; cbn [map] in Hm; injection Hm as <- <-
           end.
  all: injection H as <- <-; cbn [users_rows refreshTokens_rows].
  all: eexists; split; [reflexivity|]; split; [reflexivity|];
    split; [reflexivity|]; split; [reflexivity|].
  all: intros v Hv Hid Hemail.
  all: try match goal with
           | Hfree : existsb _ (_ :: _) = false,
             Hrow : filter (fun u => Nat.eqb (users.id u) _) _ = _ :: _ |- _ =>
               cbn [existsb] in Hfree; apply orb_false_iff in Hfree;
               destruct Hfree as [Hfree _];
               unfold userStatements.email_taken in Hfree;
               rewrite existsb_false_forall in Hfree;
               specialize (Hfree v Hv);
               pose proof (f_equal (@hd_error _) Hrow) as Hhd;
               apply hd_error_filter_In in Hhd; destruct Hhd as [_ Hrid];
               apply Nat.eqb_eq in Hrid;
               apply andb_false_iff in Hfree; destruct Hfree as [Hfree|Hfree];
               [apply negb_false_iff, Nat.eqb_eq in Hfree; cbn in Hfree;
                congruence
               |cbn in Hfree, Hemail; rewrite Hemail, String.eqb_refl in Hfree;
                discriminate Hfree]
           end.
Qed.

(** X15: an update that goes through rewrites the identity of the given
    identifier only, and of it only [email], [name], [password] and
    [updatedAt], a field that is not given keeping its value; the federation
    link, [lastLoginAt] and the ledger are left as they are, and the
    password never comes back in the answer. *)
Theorem update_frame
  (id : uuid) (data : UpdateUserData) (now : timestamp) (s s1 : Store)
  (res : UserResponse) :
  userService.update id data now s = (s1, Return res) ->
  refreshTokens_rows s1 = refreshTokens_rows s /\
  exists write,
    users_rows s1
    = map (fun u => if Nat.eqb (users.id u) id then write u else u)
        (users_rows s) /\
    (forall u, same_account u (write u)) /\
    (forall u, users.updatedAt (write u) = now) /\
    (forall u, up_email data = None -> users.email (write u) = users.email u) /\
    (forall u, up_name data = None -> users.name (write u) = users.name u) /\
    (forall u, up_password data = None ->
               users.password (write u) = users.password u) /\
    (exists existing,
        findById s id = Some existing /\ res = withoutPassword (write existing)).
Proof.
  intros H. apply update_returns in H.
  destruct H as (existing & Hfind & Husers & Hrows & Hres & _).
  split; [exact Hrows|]. exists (updated_user data now).
  split; [exact Husers|]. split; [intros u; repeat split|].
  split; [reflexivity|].
  split; [intros u Hnone; unfold updated_user; rewrite Hnone; reflexivity|].
  split; [intros u Hnone; unfold updated_user; rewrite Hnone; reflexivity|].
  split; [intros u Hnone; unfold updated_user; rewrite Hnone; reflexivity|].
  exists existing. now split.
Qed.

(** X16: after an update that sets a password, the identity logs in with the
    new password under the email the update answered, bcrypt accepting a
    password against its own hash. *)
Theorem login_after_password_update
  (id : uuid) (data : UpdateUserData) (password device : string)
  (now now' : timestamp) (s s1 : Store) (res : UserResponse) :
  userService.update id data now s = (s1, Return res) ->
  up_password data = Some password ->
  password <> "" ->
  ids_unique s ->
  store_up s1 ->
  fresh_uuids s ->
  bcrypt_hash password 10 <> "" ->
  bcrypt_compare password (bcrypt_hash password 10) = true ->
  exists s2 pair,
    login config (mkLogin (res_email res) password device) now' s1
    = (s2, Return pair).
Proof.
  intros H Hpassword Hne Hids Hup1 Hfresh Hhash Hgood.
  assert (Hfresh1 : fresh_uuids s1).
  { pose proof user_service_keeps_fresh as (_ & _ & _ & Hkeeps & _).
    specialize (Hkeeps id data now s Hfresh). now rewrite H in Hkeeps. }
  apply update_returns in H.
  destruct H as (existing & Hfind & Husers & _ & Hres & Hfree).
  set (g := fun u => if Nat.eqb (users.id u) id then updated_user data now u else u)
    in *.
  assert (Hg : forall u, users.id (g u) = users.id u)
    by (intros u; unfold g; now destruct (Nat.eqb (users.id u) id)).
  pose proof (hd_error_filter_In _ _ _ Hfind) as [Hin Hid].
  apply Nat.eqb_eq in Hid.
  assert (Hwritten : In (updated_user data now existing) (users_rows s1)).
  { rewrite Husers. apply in_map_iff. exists existing. split; [|exact Hin].
    unfold g. now rewrite Hid, Nat.eqb_refl. }
  assert (Hfound : findByEmail s1 (res_email res)
                   = Some (updated_user data now existing)).
  { unfold findByEmail.
    destruct (hd_error_filter_exists
                (fun u => (users.email u =? res_email res)%string)
                (users_rows s1) _ Hwritten) as [b Hb].
    { rewrite Hres. cbn. apply String.eqb_refl. }
    rewrite Hb. f_equal.
    pose proof (hd_error_filter_In _ _ _ Hb) as [Hb_in Hb_email].
    apply String.eqb_eq in Hb_email.
    assert (Hb_id : users.id b = id).
    { destruct (Nat.eq_dec (users.id b) id) as [Heq|Hneq]; [exact Heq|].
      elim (Hfree b Hb_in Hneq Hb_email). }
    apply (NoDup_map_inj users.id (users_rows s1)); [|exact Hb_in|exact Hwritten|].
    - rewrite Husers, map_map. erewrite map_ext; [exact Hids|].
      intros u. apply Hg.
    - rewrite Hb_id. cbn. now rewrite Hid. }
  destruct (login_accepts config (mkLogin (res_email res) password device)
              now' s1 Hup1 Hfresh1) as (user & _ & Hrun).
  - exists (updated_user data now existing), (bcrypt_hash password 10).
    split; [exact Hfound|]. cbn [l_password]. split; [|now split].
    unfold updated_user, Js.truthy. rewrite Hpassword.
    destruct (String.eqb_spec password "") as [->|_]; [now elim Hne|].
    reflexivity.
  - eexists _, _. exact Hrun.
Qed.

(** X17: an update is refused before anything is written when the
    identifier names no identity (status 404), and when the email asked for,
    not empty and not the identity's own, is held by an identity (status
    409); asking for the identity's own email is not a conflict. *)
Theorem update_refusals
  (id : uuid) (data : UpdateUserData) (now : timestamp) (s : Store) :
  store_up s ->
  (findById s id = None ->
   userService.update id data now s
   = (s, Throw (AppError 404 "User not found"))) /\
  (forall existing email holder,
      findById s id = Some existing ->
      up_email data = Some email ->
      email <> "" ->
      email <> users.email existing ->
      findByEmail s email = Some holder ->
      userService.update id data now s
      = (s, Throw (AppError 409 "Email already exists"))) /\
  (forall existing,
      findById s id = Some existing ->
      up_email data = Some (users.email existing) ->
      ids_unique s -> emails_unique s ->
      exists s1 res, userService.update id data now s = (s1, Return res)).
Proof.
  intros Hup. unfold userService.update, db.select_users, bind.
  rewrite (roundtrip_up s Hup), firstn_1_hd. unfold findById, findByEmail.
  split; [|split].
  - intros ->. reflexivity.
  - intros existing email holder -> -> Hne Hother Hholder. cbv iota.
    unfold Js.truthy.
    destruct (String.eqb_spec email "") as [->|_]; [now elim Hne|].
    destruct (String.eqb_spec email (users.email existing)) as [Heq|_];
      [now elim Hother|].
    cbn [negb andb]. rewrite (roundtrip_up s Hup), firstn_1_hd, Hholder.
    reflexivity.
  - intros existing Hfind Hemail Hids Hemails. rewrite Hfind, Hemail. cbv iota.
    rewrite String.eqb_refl, andb_false_r. unfold ret at 1.
    unfold userStatements.update_returning, bind.
    rewrite (roundtrip_up s Hup). cbv beta zeta.
    match goal with
    | |- context [existsb ?f ?l] => destruct (existsb f l) eqn:Hex
    end.
    + exfalso. apply existsb_exists in Hex. destruct Hex as (u' & Hu' & Htaken).
      unfold userStatements.email_taken in Htaken.
      apply existsb_exists in Htaken. destruct Htaken as (v' & Hv' & Hboth).
      apply andb_true_iff in Hboth. destruct Hboth as [Hid Hsame].
      apply negb_true_iff, Nat.eqb_neq in Hid. apply String.eqb_eq in Hsame.
      apply in_map_iff in Hu'. destruct Hu' as (u & <- & Hu).
      apply filter_In in Hu. destruct Hu as [Hu Hu_id]. apply Nat.eqb_eq in Hu_id.
      apply in_map_iff in Hv'. destruct Hv' as (v & <- & Hv).
      pose proof (hd_error_filter_In _ _ _ Hfind) as [Hex_in Hex_id].
      apply Nat.eqb_eq in Hex_id.
      assert (Hu_ex : u = existing).
      { apply (NoDup_map_inj users.id (users_rows s)); try assumption.
        congruence. }
      subst u. cbn in Hid, Hsame.
      destruct (Nat.eqb_spec (users.id v) id) as [Hv_id|Hv_id]; cbn in Hid, Hsame.
      * congruence.
      * assert (Hv_ex : v = existing).
        { apply (NoDup_map_inj users.email (users_rows s)); assumption. }
        subst v. congruence.
    + destruct (filter (fun u => Nat.eqb (users.id u) id) (users_rows s))
        as [|first others]; [discriminate Hfind|].
      cbn. eexists _, _. reflexivity.
Qed.

End Update.

(** ** Deleting an identity *)

Section Delete.
Context {P : Platform} (config : Config).

(** A successful [userService.delete], step by step: the rows of the ledger
    that go are those of the identifier. *)
Lemma delete_returns (id : uuid) (s s1 : Store) (res : UserResponse) :
  userService.delete id s = (s1, Return res) ->
  (exists deleted,
      findById s id = Some deleted /\ res = withoutPassword deleted) /\
  users_rows s1
  = filter (fun u => negb (Nat.eqb (users.id u) id)) (users_rows s) /\
  refreshTokens_rows s1
  = filter (fun r => negb (Nat.eqb (refreshTokens.userId r) id))
      (refreshTokens_rows s).
Proof.
  intros H. unfold userService.delete, userStatements.delete_returning in H.
  unfold_statements. unfold findById.
  destruct s as [us rs seed fs]. cbn [users_rows refreshTokens_rows].
  follow H.
  all: injection H as <- <-; cbn [users_rows refreshTokens_rows].
  all: split; [eexists; split; reflexivity|]; split; [reflexivity|].
  all: apply filter_ext_in; intros row _; f_equal.
  all: match goal with
       | Hrow : @filter users.row _ _ = ?d :: ?l
         |- (_ || existsb ?f ?l)%bool = _ =>
           change (existsb f (d :: l) = Nat.eqb (refreshTokens.userId row) id);
           assert (Hall : forall u, In u (d :: l) -> users.id u = id)
             by (intros u Hu; rewrite <- Hrow in Hu; apply filter_In in Hu;
                 apply Nat.eqb_eq; exact (proj2 Hu));
           destruct (Nat.eqb_spec (refreshTokens.userId row) id) as [Heq|Hneq];
           [cbn [existsb]; rewrite (Hall d (or_introl eq_refl)), Heq,
              Nat.eqb_refl; reflexivity
           |apply existsb_false_forall; intros u Hu; apply Nat.eqb_neq;
            rewrite (Hall u Hu); congruence]
       end.
Qed.

(** X18: a delete that goes through takes the identity and every ledger row
    of its identifier, and nothing else; the identifier is unknown to
    [getById] afterwards. *)
Theorem delete_cascades (id : uuid) (s s1 : Store) (res : UserResponse) :
  userService.delete id s = (s1, Return res) ->
  store_up s1 ->
  (forall u, In u (users_rows s1) <-> In u (users_rows s) /\ users.id u <> id) /\
  (forall r, In r (refreshTokens_rows s1) <->
             In r (refreshTokens_rows s) /\ refreshTokens.userId r <> id) /\
  userService.getById id s1 = (s1, Throw (AppError 404 "User not found")).
Proof.
  intros H Hup1. apply delete_returns in H. destruct H as (_ & Husers & Hrows).
  split; [|split].
  - intros u. rewrite Husers, filter_In, negb_true_iff, Nat.eqb_neq. tauto.
  - intros r. rewrite Hrows, filter_In, negb_true_iff, Nat.eqb_neq. tauto.
  - unfold userService.getById, db.select_users, bind.
    rewrite (roundtrip_up s1 Hup1), firstn_1_hd, Husers.
    rewrite (filter_nil_iff _ (filter _ _)); [reflexivity|].
    intros u Hu. apply filter_In in Hu. apply negb_true_iff. exact (proj2 Hu).
Qed.

(** X19: the sessions of a deleted identity are over: a token whose live
    ledger rows all belonged to it is refused by [refresh] as
    [RefreshReuseOrInvalid]. *)
Theorem refresh_after_delete
  (id : uuid) (s s1 : Store) (res : UserResponse)
  (token : string) (now : timestamp) :
  userService.delete id s = (s1, Return res) ->
  store_up s1 ->
  verifies config token now ->
  (forall r, In r (refreshTokens_rows s) ->
             live_with (hashToken token) r = true ->
             refreshTokens.userId r = id) ->
  refresh config token now s1 = (s1, Throw RefreshReuseOrInvalid).
Proof.
  intros H Hup1 Hv Howned. apply delete_returns in H.
  destruct H as (_ & _ & Hrows).
  apply refresh_no_live_row; [exact Hv|exact Hup1|].
  rewrite Hrows. apply filter_nil_iff. intros r Hin.
  apply filter_In in Hin. destruct Hin as [Hin Hkept].
  destruct (live_with (hashToken token) r) eqn:Hlive; [|reflexivity].
  rewrite (Howned r Hin Hlive), Nat.eqb_refl in Hkept. discriminate Hkept.
Qed.

(** X20: with emails unique, the email of a deleted identity is unknown to
    [login] afterwards, and free to [register] again. *)
Theorem login_after_delete
  (id : uuid) (s s1 : Store) (res : UserResponse)
  (data : LoginData) (now : timestamp) :
  userService.delete id s = (s1, Return res) ->
  store_up s1 ->
  emails_unique s ->
  l_email data = res_email res ->
  login config data now s1 = (s1, Throw NotFound) /\
  findByEmail s1 (res_email res) = None.
Proof.
  intros H Hup1 Hunique Hemail. apply delete_returns in H.
  destruct H as ((deleted & Hfind & ->) & Husers & _).
  pose proof (hd_error_filter_In _ _ _ Hfind) as [Hin Hid].
  apply Nat.eqb_eq in Hid.
  assert (Hnone : filter (fun u => (users.email u =? users.email deleted)%string)
                    (users_rows s1) = []).
  { apply filter_nil_iff. intros u Hu. rewrite Husers in Hu.
    apply filter_In in Hu. destruct Hu as [Hu Hkept].
    destruct (String.eqb_spec (users.email u) (users.email deleted)) as [Heq|_];
      [|reflexivity].
    rewrite (NoDup_map_inj users.email (users_rows s) u deleted
               Hunique Hu Hin Heq), Hid, Nat.eqb_refl in Hkept.
    discriminate Hkept. }
  cbn [res_email withoutPassword] in *. split.
  - unfold login, db.select_users, bind.
    rewrite (roundtrip_up s1 Hup1), firstn_1_hd, Hemail, Hnone. reflexivity.
  - unfold findByEmail. now rewrite Hnone.
Qed.

End Delete.

(** ** How calls fail, and when they do not *)

(** The owner of a ledger row is found by its identifier. *)
Lemma owner_is_found (s : Store) (r : refreshTokens.row) :
  references_hold s ->
  In r (refreshTokens_rows s) ->
  findById s (refreshTokens.userId r) <> None.
Proof.
  intros Href Hin Hnone. specialize (Href r Hin).
  apply existsb_exists in Href. destruct Href as (u & Hu & Hid).
  unfold findById in Hnone. apply hd_error_filter_none in Hnone.
  assert (Hf : In u (filter (fun u => Nat.eqb (users.id u) (refreshTokens.userId r))
                       (users_rows s)))
    by (apply filter_In; now split).
  rewrite Hnone in Hf. exact Hf.
Qed.



Section Failures.
Context {P : Platform} (config : Config).

(** X21: on a store that is up, with fresh identifiers and every ledger row
    owned, a [refresh] that fails is answered with status 401, unless it is
    [jwt.verify] that threw: then the answer is 500.  No other status
    leaves [refresh]. *)
Theorem refresh_failure_statuses
  (token : string) (now : timestamp) (s : Store) (e : Exn) :
  store_up s ->
  fresh_uuids s ->
  references_hold s ->
  snd (refresh config token now s) = Throw e ->
  (fst (errorHandler e) = 401 /\ forall thrown, e <> JwtThrown thrown) \/
  (fst (errorHandler e) = 500 /\
   exists thrown, e = JwtThrown thrown /\ verifyToken config token now = inl thrown).
Proof.
  intros Hup Hfresh Href Hthrow.
  assert (Hcases :
            verifies config token now \/
            (refresh config token now s = (s, Throw (AppError 401 "No token provided"))) \/
            (refresh config token now s
             = (s, Throw (AppError 401 "Invalid token signature"))) \/
            (exists thrown, verifyToken config token now = inl thrown /\
                            refresh config token now s = (s, Throw (JwtThrown thrown)))).
  { unfold verifies, refresh, Js.truthy.
    destruct (String.eqb_spec token "") as [->|Hne]; cbn [negb]; [auto|].
    destruct (verifyToken config token now) as [thrown|decodedToken]; [eauto 6|].
    destruct (decoded_truthy decodedToken) eqn:Htruthy; cbn [negb]; [|auto].
    left. split; [exact Hne|eauto]. }
  destruct Hcases as [Hv|[Hrun|[Hrun|(thrown & Hverify & Hrun)]]].
  - left.
    destruct (hd_error (filter (live_with (hashToken token)) (refreshTokens_rows s)))
      as [stored|] eqn:Hfind.
    + destruct (Z.leb_spec now (refreshTokens.expiresAt stored)) as [Hle|Hgt].
      * destruct (findById s (refreshTokens.userId stored)) as [user|] eqn:Huser.
        -- rewrite (refresh_runs config token now s stored user
                      Hv Hup Hfresh Hfind Hle Huser) in Hthrow.
           discriminate Hthrow.
        -- elim (owner_is_found s stored Href); [|exact Huser].
           exact (proj1 (hd_error_filter_In _ _ _ Hfind)).
      * apply Z.lt_gt in Hgt.
        rewrite (refresh_expired_row config token now s stored Hv Hup Hfind Hgt)
          in Hthrow.
        injection Hthrow as <-. split; [reflexivity|discriminate].
    + rewrite (refresh_no_live_row config token now s Hv Hup
                 (hd_error_filter_none _ _ Hfind)) in Hthrow.
      injection Hthrow as <-. split; [reflexivity|discriminate].
  - rewrite Hrun in Hthrow. injection Hthrow as <-. left.
    split; [reflexivity|discriminate].
  - rewrite Hrun in Hthrow. injection Hthrow as <-. left.
    split; [reflexivity|discriminate].
  - rewrite Hrun in Hthrow. injection Hthrow as <-. right.
    split; [reflexivity|eauto].
Qed.

(** A federated login whose ticket Google does not verify is refused with
    status 401, and one whose ticket carries no payload, or no email, or an
    empty one, with status 400; no statement is sent to the store, which
    may be down. *)
Lemma loginWithGoogle_refusals
  (idToken device : string) (now : timestamp) (s : Store) :
  (verifyIdToken idToken (GOOGLE_CLIENT_ID config) = None ->
   loginWithGoogle config idToken device now s
   = (s, Throw (AppError 401 "Invalid Google Token"))) /\
  (forall ticket,
      verifyIdToken idToken (GOOGLE_CLIENT_ID config) = Some ticket ->
      match ticket with
      | None => True
      | Some payload => Js.truthy_opt (g_email payload) = false
      end ->
      loginWithGoogle config idToken device now s
      = (s, Throw (AppError 400 "Google account validation failed"))).
Proof.
  unfold loginWithGoogle. split.
  - intros ->. reflexivity.
  - intros ticket -> Hincomplete. destruct ticket as [payload|]; [|reflexivity].
    destruct (g_email payload) as [email|]; [|reflexivity].
    cbn in Hincomplete. rewrite Hincomplete. reflexivity.
Qed.



End Failures.

Section CreateSucceeds.
Context {P : Platform}.



End CreateSucceeds.

(** ** The device label of a session *)

Section Labels.
Context {P : Platform} (config : Config).

Lemma same_ledger_keeps_labels {A} (m : Async A) :
  (forall s, refreshTokens_rows (fst (m s)) = refreshTokens_rows s) ->
  preserves labelled m.
Proof. intros Hm s Hs r Hin. rewrite Hm in Hin. exact (Hs r Hin). Qed.

Lemma roundtrip_keeps_labels : preserves labelled db.roundtrip.
Proof.
  apply same_ledger_keeps_labels. intros s. unfold db.roundtrip.
  now destruct (faults s) as [|[|] rest].
Qed.

Lemma after_roundtrip_keeps_labels {A} (f : Store -> Store * Outcome A) :
  preserves labelled f -> preserves labelled (db.roundtrip ;;; f).
Proof.
  intros Hf. apply preserves_bind; [apply roundtrip_keeps_labels|now intros _].
Qed.

Lemma insert_users_keeps_labels v now :
  preserves labelled (db.insert_users v now).
Proof.
  apply insert_users_by_parts; [apply roundtrip_keeps_labels|intros fitted].
  apply preserves_bind; [now apply same_ledger_keeps_labels|intros i].
  apply same_ledger_keeps_labels. intros s. now destruct (existsb _ _).
Qed.

(** The row the service inserts into the ledger has a device label. *)
Lemma insert_refreshTokens_keeps_labels v now :
  Js.truthy (refreshTokens.v_device v) = true ->
  preserves labelled (db.insert_refreshTokens v now).
Proof.
  intros Hlabel. apply after_roundtrip_keeps_labels.
  apply preserves_bind; [now apply same_ledger_keeps_labels|intros i].
  intros s Hs. cbv beta. destruct (existsb _ (refreshTokens_rows s)); [exact Hs|].
  destruct (negb _); [exact Hs|]. intros r Hin. cbn in Hin.
  apply in_app_or in Hin. destruct Hin as [Hin|[<-|[]]]; [exact (Hs r Hin)|].
  exact Hlabel.
Qed.

Lemma delete_refreshTokens_keeps_labels w :
  preserves labelled (db.delete_refreshTokens w).
Proof.
  apply after_roundtrip_keeps_labels. intros s Hs r Hin. cbn in Hin.
  apply filter_In in Hin. exact (Hs r (proj1 Hin)).
Qed.

Lemma auth_service_keeps_labels :
  (forall user device now,
      preserves labelled (_generateAuthResponse config user device now)) /\
  (forall data now, preserves labelled (login config data now)) /\
  (forall data now, preserves labelled (register config data now)) /\
  (forall idToken device now,
      preserves labelled (loginWithGoogle config idToken device now)) /\
  (forall token now, preserves labelled (refresh config token now)) /\
  (forall token, preserves labelled (logout token)).
Proof.
  apply (service_keeps config labelled).
  - intros w n. apply after_roundtrip_keeps_labels.
    now apply same_ledger_keeps_labels.
  - apply insert_users_keeps_labels.
  - intros f w _. apply after_roundtrip_keeps_labels.
    now apply same_ledger_keeps_labels.
  - intros w n. apply after_roundtrip_keeps_labels.
    now apply same_ledger_keeps_labels.
  - apply insert_refreshTokens_keeps_labels.
  - apply delete_refreshTokens_keeps_labels.
Qed.

Lemma user_service_keeps_labels :
  (forall data now, preserves labelled (userService.create data now)) /\
  (forall scan, preserves labelled (userService.getAll scan)) /\
  (forall id, preserves labelled (userService.getById id)) /\
  (forall id data now, preserves labelled (userService.update id data now)) /\
  (forall id, preserves labelled (userService.delete id)).
Proof.
  apply (user_service_keeps labelled).
  - intros w n. apply after_roundtrip_keeps_labels.
    now apply same_ledger_keeps_labels.
  - apply insert_users_keeps_labels.
  - intros scan. apply after_roundtrip_keeps_labels.
    now apply same_ledger_keeps_labels.
  - intros email name password now id. apply after_roundtrip_keeps_labels.
    apply same_ledger_keeps_labels. intros s. cbv beta zeta.
    now destruct (existsb _ _).
  - intros id. apply after_roundtrip_keeps_labels. intros s Hs r Hin.
    cbn in Hin. apply filter_In in Hin. exact (Hs r (proj1 Hin)).
Qed.

(** No store the services produce has a ledger row without a device
    label: issuance, the one place where a row is inserted, writes
    [device || 'Unknown Device']. *)
Lemma produced_is_labelled (s : Store) : produced config s -> labelled s.
Proof.
  intros Hs. induction Hs as [identities seed script|c s Hs IH|script s Hs IH].
  - intros r [].
  - destruct auth_service_keeps_labels
      as (_ & Hlogin & Hregister & Hgoogle & Hrefresh & Hlogout).
    destruct user_service_keeps_labels
      as (Hcreate & HgetAll & HgetById & Hupdate & Hdelete).
    destruct c; cbn [after];
      [apply Hlogin|apply Hregister|apply Hgoogle|apply Hrefresh|apply Hlogout
      |apply Hcreate|apply HgetAll|apply HgetById|apply Hupdate|apply Hdelete];
      exact IH.
  - exact IH.
Qed.


End Labels.

(** ** The walkthrough, run *)

Example walkthrough_second_session :
  @login Toy.platform Toy.config Walkthrough.relogin 2700 Scenario.registered
  = (Walkthrough.two_sessions,
     Return (mkTokens Walkthrough.P3 "access-secret|1|2|902|a@x.com")) /\
  map refreshTokens.tokenHash (refreshTokens_rows Walkthrough.two_sessions)
  = ["sha256:refresh-secret|1|1|604801|a@x.com";
     "sha256:refresh-secret|1|2|604802|a@x.com"].
Proof. split; reflexivity. Qed.

Example walkthrough_ann :
  users_rows Walkthrough.ann_created
  = [users.mk 1%nat "ann@x.com" "Ann" None (Some "sub-ann") (Some "google")
       None 5000 5000 5000] /\
  Walkthrough.ann_pair
  = mkTokens "refresh-secret|1|5|604805|ann@x.com"
      "access-secret|1|5|905|ann@x.com".
Proof. split; reflexivity. Qed.

Example walkthrough_bob :
  users_rows Walkthrough.bob_created
  = [users.mk 1%nat "bob@x.com" "Bob" (Some "bcrypt:secret-pw") None
       (Some "local") None 1000 1000 1000] /\
  Walkthrough.bob_response
  = mkResponse 1%nat "bob@x.com" "Bob" None (Some "local") None 1000 1000 1000 /\
  users_rows Walkthrough.bob_updated
  = [users.mk 1%nat "bob@x.com" "Robert" (Some "bcrypt:new-secret") None
       (Some "local") None 1000 1000 2000] /\
  Walkthrough.bob_updated_response
  = mkResponse 1%nat "bob@x.com" "Robert" None (Some "local") None
      1000 1000 2000.
Proof. repeat split. Qed.

Example walkthrough_delete :
  Walkthrough.a_deleted = mkStore [] [] 3%nat [] /\
  res_email Walkthrough.a_response = "a@x.com".
Proof. split; reflexivity. Qed.

(** X1, witness: [P1] is logged out, then presented to [refresh]. *)
Lemma refresh_after_logout_witness :
  @refresh Toy.platform Toy.config Scenario.P1 2000
    (fst (@logout Toy.platform Scenario.P1 Scenario.registered))
  = (fst (@logout Toy.platform Scenario.P1 Scenario.registered),
     Throw RefreshReuseOrInvalid).
Proof.
  apply (@refresh_after_logout Toy.platform Toy.config Scenario.P1 2000
           Scenario.registered).
  - reflexivity.
  - split; [discriminate|]. eexists. split; reflexivity.
Defined.

(** X2, witness: of the two sessions of [a], the first is logged out and
    the second refreshed. *)
Lemma logout_spares_other_tokens_witness :
  snd (@refresh Toy.platform Toy.config Walkthrough.P3 3500
         (fst (@logout Toy.platform Scenario.P1 Walkthrough.two_sessions)))
  = snd (@refresh Toy.platform Toy.config Walkthrough.P3 3500
           Walkthrough.two_sessions).
Proof.
  apply (@logout_spares_other_tokens Toy.platform Toy.config Scenario.P1
           Walkthrough.P3 3500 Walkthrough.two_sessions).
  - reflexivity.
  - split; cbn; intros x Hx;
      repeat (destruct Hx as [<-|Hx]; [cbn; lia|]); destruct Hx.
  - discriminate.
  - cbn. discriminate.
Defined.

(** X3, witness: the token of [P2], which the refresh of [P1] handed out. *)
Lemma refreshed_token_can_be_refreshed_witness :
  exists s2 pair2,
    @refresh Toy.platform Toy.config (refreshToken Scenario.P2) 3600
      Scenario.refreshed_next_second
    = (s2, Return pair2).
Proof.
  apply (@refreshed_token_can_be_refreshed Toy.platform Toy.config Scenario.P1
           2500 3600 Scenario.registered Scenario.refreshed_next_second
           Scenario.P2).
  - reflexivity.
  - reflexivity.
  - split; cbn; intros x Hx;
      repeat (destruct Hx as [<-|Hx]; [cbn; lia|]); destruct Hx.
  - reflexivity.
  - split; [discriminate|]. eexists. split; reflexivity.
  - vm_compute. discriminate.
Defined.

(** X4, witness: [a] registers, then logs in. *)
Lemma login_after_register_witness :
  exists s2 pair2,
    @login Toy.platform Toy.config (mkLogin "a@x.com" "pw123456" "deviceY") 2000
      Scenario.registered
    = (s2, Return pair2).
Proof.
  apply (@login_after_register Toy.platform Toy.config Scenario.registration
           "deviceY" 1000 2000 Toy.empty Scenario.registered
           (mkTokens Scenario.P1 "access-secret|1|1|901|a@x.com")).
  - reflexivity.
  - reflexivity.
  - split; cbn; intros x [].
  - cbn. discriminate.
  - reflexivity.
Defined.

(** X5, witness: [a] registers again, under another name. *)
Lemma register_again_is_refused_witness :
  @register Toy.platform Toy.config
    (mkRegister "a@x.com" "Another" "other-pw" "deviceZ") 4000 Scenario.registered
  = (Scenario.registered, Throw AlreadyExists).
Proof.
  apply (@register_again_is_refused Toy.platform Toy.config Scenario.registration
           (mkRegister "a@x.com" "Another" "other-pw" "deviceZ") 1000 4000
           Toy.empty Scenario.registered
           (mkTokens Scenario.P1 "access-secret|1|1|901|a@x.com")).
  - reflexivity.
  - reflexivity.
  - reflexivity.
Defined.

(** X6, witness: Ann, who came in through Google, tries a password. *)
Lemma google_account_has_no_password_login_witness :
  @login Toy.platform Toy.config (mkLogin "ann@x.com" "guess" "phone") 6000
    Walkthrough.ann_created
  = (Walkthrough.ann_created, Throw WrongAuthMethod).
Proof.
  apply (@google_account_has_no_password_login Toy.platform Toy.config
           "id-token-of-ann" "phone" 5000 Toy.empty Walkthrough.ann_created
           Walkthrough.ann_pair Walkthrough.ann_payload "ann@x.com"
           (mkLogin "ann@x.com" "guess" "phone") 6000).
  - reflexivity.
  - reflexivity.
  - reflexivity.
  - reflexivity.
  - reflexivity.
  - reflexivity.
Defined.

(** X11, witness: the refresh of [P1] on the registered store. *)
Lemma refresh_finds_the_owner_witness :
  snd (@refresh Toy.platform Toy.config Scenario.P1 2500 Scenario.registered)
  <> Throw NotFound.
Proof.
  apply (@refresh_finds_the_owner Toy.platform Toy.config Scenario.P1 2500
           Scenario.registered).
  intros r [<-|[]]. reflexivity.
Defined.

(** X12, witness: Bob, just created. *)
Lemma created_identity_is_found_witness :
  userService.getById (res_id Walkthrough.bob_response) Walkthrough.bob_created
  = (Walkthrough.bob_created, Return Walkthrough.bob_response) /\
  exists listed,
    userService.getAll (@rev users.row) Walkthrough.bob_created
    = (Walkthrough.bob_created, Return listed) /\
    Permutation listed
      (Walkthrough.bob_response :: map withoutPassword (users_rows Toy.empty)).
Proof.
  apply (@created_identity_is_found Toy.platform Walkthrough.bob 1000 Toy.empty
           Walkthrough.bob_created Walkthrough.bob_response (@rev users.row)).
  - intros rows. symmetry. apply Permutation_rev.
  - reflexivity.
  - reflexivity.
Defined.

(** X13, witness: Bob logs in with the password he was created with. *)
Lemma login_after_create_witness :
  exists s2 pair,
    @login Toy.platform Toy.config (mkLogin "bob@x.com" "secret-pw" "laptop") 1500
      Walkthrough.bob_created
    = (s2, Return pair).
Proof.
  apply (@login_after_create Toy.platform Toy.config Walkthrough.bob "laptop"
           1000 1500 Toy.empty Walkthrough.bob_created Walkthrough.bob_response).
  - reflexivity.
  - reflexivity.
  - split; cbn; intros x [].
  - cbn. discriminate.
  - reflexivity.
Defined.

(** X14, witness: Bob's email, asked for again in both services. *)
Lemma created_email_is_taken_witness :
  @userService.create Toy.platform (mkCreate "bob@x.com" "Bobby" "12345678") 1500
    Walkthrough.bob_created
  = (Walkthrough.bob_created, Throw (AppError 409 "Email already exists")) /\
  @register Toy.platform Toy.config
    (mkRegister "bob@x.com" "Bobby" "12345678" "tablet") 1500
    Walkthrough.bob_created
  = (Walkthrough.bob_created, Throw AlreadyExists).
Proof.
  apply (@created_email_is_taken Toy.platform Toy.config Walkthrough.bob 1000
           1500 Toy.empty Walkthrough.bob_created Walkthrough.bob_response
           (mkCreate "bob@x.com" "Bobby" "12345678")
           (mkRegister "bob@x.com" "Bobby" "12345678" "tablet")).
  - reflexivity.
  - reflexivity.
  - reflexivity.
  - reflexivity.
Defined.

(** X15, witness: Bob's update. *)
Lemma update_frame_witness :
  refreshTokens_rows Walkthrough.bob_updated
  = refreshTokens_rows Walkthrough.bob_created /\
  exists write,
    users_rows Walkthrough.bob_updated
    = map (fun u => if Nat.eqb (users.id u) 1%nat then write u else u)
        (users_rows Walkthrough.bob_created) /\
    (forall u, same_account u (write u)) /\
    (forall u, users.updatedAt (write u) = 2000) /\
    (forall u, up_email Walkthrough.bob_changes = None ->
               users.email (write u) = users.email u) /\
    (forall u, up_name Walkthrough.bob_changes = None ->
               users.name (write u) = users.name u) /\
    (forall u, up_password Walkthrough.bob_changes = None ->
               users.password (write u) = users.password u) /\
    (exists existing,
        findById Walkthrough.bob_created 1%nat = Some existing /\
        Walkthrough.bob_updated_response = withoutPassword (write existing)).
Proof.
  apply (@update_frame Toy.platform 1%nat Walkthrough.bob_changes 2000
           Walkthrough.bob_created Walkthrough.bob_updated
           Walkthrough.bob_updated_response).
  reflexivity.
Defined.

(** X16, witness: Bob logs in with his new password. *)
Lemma login_after_password_update_witness :
  exists s2 pair,
    @login Toy.platform Toy.config (mkLogin "bob@x.com" "new-secret" "laptop")
      2500 Walkthrough.bob_updated
    = (s2, Return pair).
Proof.
  apply (@login_after_password_update Toy.platform Toy.config 1%nat
           Walkthrough.bob_changes "new-secret" "laptop" 2000 2500
           Walkthrough.bob_created Walkthrough.bob_updated
           Walkthrough.bob_updated_response).
  - reflexivity.
  - reflexivity.
  - discriminate.
  - repeat constructor. intros [].
  - reflexivity.
  - split; cbn; intros x Hx;
      repeat (destruct Hx as [<-|Hx]; [cbn; lia|]); destruct Hx.
  - cbn. discriminate.
  - reflexivity.
Defined.

(** X17, witness: an update of an identifier that names no one. *)
Lemma update_refusals_witness :
  @userService.update Toy.platform 7%nat Walkthrough.bob_changes 2000
    Walkthrough.bob_created
  = (Walkthrough.bob_created, Throw (AppError 404 "User not found")).
Proof.
  refine (proj1 (@update_refusals Toy.platform 7%nat Walkthrough.bob_changes 2000
                   Walkthrough.bob_created _) _).
  - reflexivity.
  - reflexivity.
Defined.

(** An update that asks for the email of another identity. *)
Example update_to_taken_email :
  snd (@userService.update Toy.platform 1%nat
         (mkUpdate (Some "carol@x.com") None None) 3000
         (fst (@userService.create Toy.platform
                 (mkCreate "carol@x.com" "Carol" "carol-pw1") 2500
                 Walkthrough.bob_updated)))
  = Throw (AppError 409 "Email already exists").
Proof. reflexivity. Qed.

(** X18, witness: [a] is deleted, with the session of the registration. *)
Lemma delete_cascades_witness :
  (forall u, In u (users_rows Walkthrough.a_deleted) <->
             In u (users_rows Scenario.registered) /\ users.id u <> 1%nat) /\
  (forall r, In r (refreshTokens_rows Walkthrough.a_deleted) <->
             In r (refreshTokens_rows Scenario.registered) /\
             refreshTokens.userId r <> 1%nat) /\
  userService.getById 1%nat Walkthrough.a_deleted
  = (Walkthrough.a_deleted, Throw (AppError 404 "User not found")).
Proof.
  apply (delete_cascades 1%nat Scenario.registered Walkthrough.a_deleted
           Walkthrough.a_response).
  - reflexivity.
  - reflexivity.
Defined.

(** X19, witness: [P1] after its owner was deleted. *)
Lemma refresh_after_delete_witness :
  @refresh Toy.platform Toy.config Scenario.P1 2500 Walkthrough.a_deleted
  = (Walkthrough.a_deleted, Throw RefreshReuseOrInvalid).
Proof.
  apply (@refresh_after_delete Toy.platform Toy.config 1%nat Scenario.registered
           Walkthrough.a_deleted Walkthrough.a_response Scenario.P1 2500).
  - reflexivity.
  - reflexivity.
  - split; [discriminate|]. eexists. split; reflexivity.
  - intros r [<-|[]] _. reflexivity.
Defined.

(** X20, witness: [a] tries to log in after the deletion. *)
Lemma login_after_delete_witness :
  @login Toy.platform Toy.config (mkLogin "a@x.com" "pw123456" "deviceX") 2500
    Walkthrough.a_deleted
  = (Walkthrough.a_deleted, Throw NotFound) /\
  findByEmail Walkthrough.a_deleted (res_email Walkthrough.a_response) = None.
Proof.
  apply (@login_after_delete Toy.platform Toy.config 1%nat Scenario.registered
           Walkthrough.a_deleted Walkthrough.a_response
           (mkLogin "a@x.com" "pw123456" "deviceX") 2500).
  - reflexivity.
  - reflexivity.
  - repeat constructor. intros [].
  - reflexivity.
Defined.

(** X21, witness: [P1], consumed already, is presented again. *)
Lemma refresh_failure_statuses_witness :
  (fst (errorHandler RefreshReuseOrInvalid) = 401 /\
   forall thrown, RefreshReuseOrInvalid <> JwtThrown thrown) \/
  (fst (errorHandler RefreshReuseOrInvalid) = 500 /\
   exists thrown,
     RefreshReuseOrInvalid = JwtThrown thrown /\
     @verifyToken Toy.platform Toy.config Scenario.P1 2600 = inl thrown).
Proof.
  apply (@refresh_failure_statuses Toy.platform Toy.config Scenario.P1 2600
           Scenario.refreshed_next_second RefreshReuseOrInvalid).
  - reflexivity.
  - split; cbn; intros x Hx;
      repeat (destruct Hx as [<-|Hx]; [cbn; lia|]); destruct Hx.
  - intros r [<-|[]]. reflexivity.
  - reflexivity.
Defined.



(** X7, witness: [a] can still log in after the refresh of [P1]. *)
Lemma auth_calls_keep_password_logins_witness :
  @accepts Toy.platform Scenario.refreshed_next_second "a@x.com" "pw123456".
Proof.
  apply (proj1 (proj2 (proj2 (proj2
           (@auth_calls_keep_password_logins Toy.platform Toy.config
              "a@x.com" "pw123456"))))
           Scenario.P1 2500 Scenario.registered).
  exists Scenario.a, "bcrypt:pw123456". repeat split. discriminate.
Defined.

(** X9, witness: the ledger after [a] was deleted, and after the refresh of
    [P1]. *)
Lemma references_are_kept_witness :
  references_hold Walkthrough.a_deleted /\
  references_hold Scenario.refreshed_next_second.
Proof.
  assert (Hregistered : references_hold Scenario.registered)
    by (intros r [<-|[]]; reflexivity).
  split.
  - apply (proj2 (proj2 (proj2 (proj2 (proj2
             (@references_are_kept Toy.platform Toy.config)))))
             1%nat Scenario.registered Hregistered).
  - apply (proj1 (proj2 (proj2 (proj2 (proj1
             (@references_are_kept Toy.platform Toy.config)))))
             Scenario.P1 2500 Scenario.registered Hregistered).
Defined.

(** X10, witness: the table after Bob's update. *)
Lemma identifiers_and_emails_stay_unique_witness :
  directory_sound Walkthrough.bob_updated.
Proof.
  apply (proj1 (proj2 (proj2 (proj2 (proj2
           (@identifiers_and_emails_stay_unique Toy.platform Toy.config)))))
           1%nat Walkthrough.bob_changes 2000 Walkthrough.bob_created).
  split; repeat constructor; intros [].
Defined.


(** The label of the session of the registration goes from record to
    record, and a login that names no device is recorded under
    ["Unknown Device"]. *)
Example device_labels_of_the_scenario :
  map refreshTokens.device (refreshTokens_rows Scenario.registered)
  = [Some "deviceX"] /\
  map refreshTokens.device (refreshTokens_rows Scenario.refreshed_next_second)
  = [Some "deviceX"] /\
  map refreshTokens.device
    (refreshTokens_rows
       (fst (@login Toy.platform Toy.config (mkLogin "a@x.com" "pw123456" "")
               2700 Scenario.registered)))
  = [Some "deviceX"; Some "Unknown Device"].
Proof. repeat split. Qed.

(** The ledger row without a label is not one the services produce. *)
Example unlabelled_is_not_produced :
  ~ @produced Toy.platform Toy.config Scenario.unlabelled.
Proof.
  intros H. apply (produced_is_labelled Toy.config) in H.
  specialize (H _ (or_introl eq_refl)). discriminate H.
Qed.

(** A name of 256 letters does not fit its column: the insert is refused
    with [22001], which the error handler answers with status 500, and
    nothing is written.  A name of 255 letters and two spaces is cut to the
    255 letters. *)
Example register_long_name_is_refused :
  @register Toy.platform Toy.config Scenario.long_name 1000 Toy.empty
  = (Toy.empty, Throw (DatabaseError db.string_data_right_truncation)) /\
  errorHandler (DatabaseError db.string_data_right_truncation)
  = (500, "Database error") /\
  map users.name
    (users_rows (fst (@register Toy.platform Toy.config Scenario.spaced_name
                        1000 Toy.empty)))
  = [Scenario.letters 255].
Proof. repeat split. Qed.
